(** * Nonbonded-proxy processing: clashes and hydrogen bonds

    A shallow embedding of
    [cctbx/geometry_restraints/process_nonbonded_proxies.py]
    and the properties of its 1-5 test, collinearity score, clash
    registry, hydrogen-bond registry and manager pipeline.

    Conventions of the embedding
    - Python floats are IEEE binary64 numbers: [spec_float] with
      precision 53 and maximal exponent 1024, operations rounded to
      nearest even as in [SpecFloat].
    - Code that can raise returns a [result]; the exception caught in
      [cos_vec] is handled where the source handles it.
    - Dictionaries whose iteration order is observable (the clash
      registry, the multi-clash index, the hydrogen-bond registry) are
      insertion-ordered association lists with unique keys; the
      connectivity table and the distance table of the 1-5 test, which
      are only looked up, are [gmap]s; Python sets are [gset]s. *)

From Stdlib Require Import ZArith Lia Bool.
From Stdlib Require Import Floats.SpecFloat.
From stdpp Require Import base option list gmap strings.

#[local] Set Warnings "-clear-no-such-hyp".

Local Open Scope Z_scope.
Local Open Scope nat_scope.

(** ** Exceptions and results *)

Module Py.

Inductive exn : Set :=
  | KeyError
  | IndexError
  | TypeError
  | AttributeError
  | AssertionError
  | NameError
  | RuntimeError.

Inductive result (A : Type) : Type :=
  | Ok (a : A)
  | Raise (e : exn).
Arguments Ok {A} a.
Arguments Raise {A} e.

Definition bind {A B} (m : result A) (k : A -> result B) : result B :=
  match m with
  | Ok a => k a
  | Raise e => Raise e
  end.

#[global] Instance result_ret : MRet result := fun _ a => Ok a.
#[global] Instance result_bind : MBind result := fun _ _ k m => bind m k.

(** [seq[i]] on a Python sequence indexed by a non-negative integer. *)
Definition getitem {A} (l : list A) (i : nat) : result A :=
  match l !! i with
  | Some a => Ok a
  | None => Raise IndexError
  end.

(** Monadic left fold: a [for] loop whose body can raise. *)
Fixpoint for_each {A S} (body : A -> S -> result S) (l : list A) (s : S)
  : result S :=
  match l with
  | [] => Ok s
  | a :: l' => s' ← body a s; for_each body l' s'
  end.

(** Collect the (possibly raising) results of a loop body, in order. *)
Fixpoint collect {A B} (body : A -> result (list B)) (l : list A)
  : result (list B) :=
  match l with
  | [] => Ok []
  | a :: l' => bs ← body a; rest ← collect body l'; Ok (bs ++ rest)
  end.

End Py.
Import Py.

(** ** Binary64 arithmetic *)

Module F64.

Definition prec : Z := 53.
Definition emax : Z := 1024.

Definition float : Type := spec_float.

Definition add : float -> float -> float := SFadd prec emax.
Definition sub : float -> float -> float := SFsub prec emax.
Definition mul : float -> float -> float := SFmul prec emax.
Definition div : float -> float -> float := SFdiv prec emax.
Definition sqrt : float -> float := SFsqrt prec emax.
Definition opp : float -> float := SFopp.
Definition abs : float -> float := SFabs.
Definition ltb : float -> float -> bool := SFltb.
Definition leb : float -> float -> bool := SFleb.
Definition eqb : float -> float -> bool := SFeqb.

(** The float of an integer that binary64 represents exactly. *)
Definition of_Z (z : Z) : float := binary_normalize prec emax z 0 false.

(** The decimal literal [m / 10^k], rounded once: the double Python reads
    for it (both operands are exact, the quotient is rounded to nearest). *)
Definition dec (m : Z) (k : nat) : float :=
  div (of_Z m) (of_Z (10 ^ Z.of_nat k)).

Definition zero : float := S754_zero false.
Definition one : float := of_Z 1.
Definition two : float := of_Z 2.

Definition is_zero (x : float) : bool :=
  match x with S754_zero _ => true | _ => false end.


End F64.

Abbreviation float := F64.float.

(** ** Three-dimensional vectors

    [scitbx.matrix.col] over triples of floats. *)

Record vec3 : Type := Vec3 { vx : float; vy : float; vz : float }.

Module Col.

(** Modelled from the spec: the arithmetic of [scitbx.matrix.col] is not
    under src/; sums, differences and quotients by a scalar are taken
    element by element. *)
Definition vadd (a b : vec3) : vec3 :=
  Vec3 (F64.add (vx a) (vx b)) (F64.add (vy a) (vy b)) (F64.add (vz a) (vz b)).

Definition vsub (a b : vec3) : vec3 :=
  Vec3 (F64.sub (vx a) (vx b)) (F64.sub (vy a) (vy b)) (F64.sub (vz a) (vz b)).

Definition vscale_inv (a : vec3) (d : float) : vec3 :=
  Vec3 (F64.div (vx a) d) (F64.div (vy a) d) (F64.div (vz a) d).

(** Dividing by a zero of either sign raises ZeroDivisionError ([None]
    here: the only caller that can meet it catches it). *)
Definition vdiv (a : vec3) (d : float) : option vec3 :=
  if F64.eqb d F64.zero then None else Some (vscale_inv a d).

(** Modelled from the spec: [scitbx.matrix.col.dot] is not under src/;
    the products are summed from the left starting at 0. *)
Definition dot (a b : vec3) : float :=
  F64.add (F64.add (F64.add F64.zero (F64.mul (vx a) (vx b)))
                   (F64.mul (vy a) (vy b)))
          (F64.mul (vz a) (vz b)).

(** Modelled from the spec: [scitbx.matrix.col.length] is not under src/;
    the square root of the sum of the squared elements. *)
Definition length (a : vec3) : float := F64.sqrt (dot a a).

(** Modelled from the spec: [scitbx.matrix.col.normalize] is not under
    src/; the vector divided by its length, ZeroDivisionError for a
    vector of length zero. *)
Definition normalize (a : vec3) : option vec3 := vdiv a (length a).

(** [a != b] on coordinate triples: some pair of elements is not [==]. *)
Definition neq (a b : vec3) : bool :=
  negb (F64.eqb (vx a) (vx b) && F64.eqb (vy a) (vy b)
        && F64.eqb (vz a) (vz b)).

End Col.

(** ** [cos_vec] *)

(** [u/2] and [v/2] divide by the constant 2 and cannot raise; the
    two calls of [normalize] are inside the [try], and either of them
    raising gives the result 1. *)
Definition cos_vec (u v w : vec3) : float :=
  let vec1 :=
    Col.vsub w (Col.vadd (Col.vscale_inv u F64.two)
                         (Col.vscale_inv v F64.two)) in
  let vec2 := Col.vsub u v in
  match Col.normalize vec1 with
  | Some n1 =>
      match Col.normalize vec2 with
      | Some n2 => F64.abs (Col.dot n1 n2)
      | None => F64.one
      end
  | None => F64.one
  end.

(** ** [check_if_1_5_interaction] *)

(** The connectivity table: atom index to the list of bonded atoms. *)
Abbreviation conn_table := (gmap nat (list nat)).

Definition table_getitem (t : conn_table) (key : nat)
  : result (list nat) :=
  match t !! key with
  | Some l => Ok l
  | None => Raise KeyError
  end.

Record bfs_state : Type := BfsState {
  atoms_numbers : gmap nat nat;
  used_connections : gset nat;
  new_connections : gset nat
}.

(** The inner loop [for key in new_connections]: the union of the
    neighbour sets of the atoms reached in the previous step. *)
Definition gather (t : conn_table) (keys : list nat)
  : result (gset nat) :=
  for_each (fun key (connections : gset nat) =>
              l ← table_getitem t key;
              Ok (connections ∪ list_to_set l))
           keys ∅.

(** [for new_atom in new_connections: atoms_numbers[new_atom] = i] *)
Definition label_atoms (i : nat) (new_atoms : list nat)
  (numbers : gmap nat nat) : gmap nat nat :=
  foldl (fun m new_atom => <[new_atom := i]> m) numbers new_atoms.

(** One pass of [for i in range(2,6)]. *)
Definition bfs_step (t : conn_table) (i : nat) (s : bfs_state)
  : result bfs_state :=
  connections ← gather t (elements (new_connections s));
  let new := connections ∖ used_connections s in
  Ok (BfsState (label_atoms i (elements new) (atoms_numbers s))
               (used_connections s ∪ connections)
               new).

(** The hydrogen is at distance zero and is the only atom used and the
    only new one. *)
Definition bfs_init (i_seq : nat) : bfs_state :=
  BfsState {[ i_seq := 0 ]} {[ i_seq ]} {[ i_seq ]}.

(** [xor = lambda a,b: (a or b) and not (a and b)] *)
Definition py_xor (a b : bool) : bool := (a || b) && negb (a && b).

(** The atoms of the first pass, the direct neighbours of the hydrogen,
    get the number 2, those of the fourth and last pass the number 5. *)
Definition check_if_1_5_interaction (i_seq j_seq : nat)
  (hd_sel : list bool) (full_connectivity_table : conn_table)
  : result bool :=
  hi ← getitem hd_sel i_seq;
  hj ← getitem hd_sel j_seq;
  if py_xor hi hj then
    let '(i_seq, j_seq) :=
      if negb hi then (j_seq, i_seq) else (i_seq, j_seq) in
    s ← for_each (bfs_step full_connectivity_table) (seq 2 4)
                 (bfs_init i_seq);
    Ok (match atoms_numbers s !! j_seq with
        | Some n => n =? 5
        | None => false
        end)
  else Ok false.

(** ** Insertion-ordered dictionaries *)

Module Dict.
Section ops.
Context {K V : Type} `{EqDecision K}.

(** [d[k]], [None] where Python raises KeyError. *)
Fixpoint get (d : list (K * V)) (k : K) : option V :=
  match d with
  | [] => None
  | (k', v) :: d' => if decide (k = k') then Some v else get d' k
  end.

(** [k in d] *)
Definition mem (d : list (K * V)) (k : K) : bool :=
  match get d k with Some _ => true | None => false end.

(** [d[k] = v]: a present key keeps its place, a new key goes last. *)
Fixpoint set (d : list (K * V)) (k : K) (v : V) : list (K * V) :=
  match d with
  | [] => [(k, v)]
  | (k', v') :: d' =>
      if decide (k = k') then (k', v) :: d' else (k', v') :: set d' k v
  end.

(** [del d[k]] for a key that may be absent. *)
Fixpoint del (d : list (K * V)) (k : K) : list (K * V) :=
  match d with
  | [] => []
  | (k', v') :: d' =>
      if decide (k = k') then d' else (k', v') :: del d' k
  end.

Definition keys (d : list (K * V)) : list K := d.*1.

Definition getitem (d : list (K * V)) (k : K) : result V :=
  match get d k with
  | Some v => Ok v
  | None => Raise KeyError
  end.
End ops.
End Dict.

(** ** The data of the model *)

(** A symmetry operator, through its action on fractional coordinates. *)
Record rt_mx : Type := RtMx { rt_apply : vec3 -> vec3 }.

(** A unit cell, through its two coordinate maps. *)
Record unit_cell : Type := UnitCell {
  fractionalize : vec3 -> vec3;
  orthogonalize : vec3 -> vec3
}.

(** An atom with the altloc of its atom group ([atom.parent().altloc]). *)
Record atom : Type := Atom {
  i_seq : nat;
  name : string;
  element : string;
  xyz : vec3;
  altloc : string
}.

(** A residue group ([atom.parent().parent()]). *)
Record residue_group : Type := ResidueGroup {
  id_str : string;
  rg_atoms : list atom
}.

Record hier_atom : Type := HierAtom {
  the_atom : atom;
  parent_rg : residue_group
}.

(** One entry of the sorted nonbonded list:
    [(labels, i_seq, j_seq, model_distance, vdw_sum, symop_str, symop)]. *)
Record proxy : Type := Proxy {
  p_labels : string;
  p_i_seq : nat;
  p_j_seq : nat;
  p_model_distance : float;
  p_vdw_sum : float;
  p_symop_str : string;
  p_symop : option rt_mx
}.

(** What the pipeline reads from the model and its restraints manager. *)
Record model_t : Type := Model {
  m_atoms : list hier_atom;          (* get_atoms() *)
  m_sites_cart : list vec3;          (* get_sites_cart() *)
  m_hd_sel : list bool;              (* get_hd_selection() *)
  m_water_sel : list bool;           (* selection('water') *)
  m_unit_cell : option unit_cell;    (* crystal_symmetry().unit_cell() *)
  m_get_sorted : option (list proxy * nat);
                                     (* nonbonded_proxies.get_sorted(...) *)
  m_fsc0 : conn_table                (* shell_sym_tables[0]
                                        .full_simple_connectivity() *)
}.

(** The functions of [math] and [scitbx.matrix] that binary64 arithmetic
    does not define: [col.angle] (radians) and [math.degrees]. *)
Record libm : Type := Libm {
  angle : vec3 -> vec3 -> float;
  degrees : float -> float
}.

(** Modelled from the spec: [libtbx.test_utils.approx_equal] is not under
    src/; two floats agree when they differ by at most the tolerance. *)
Definition approx_equal (a1 a2 eps : float) : bool :=
  negb (F64.ltb eps (F64.abs (F64.sub a1 a2))).

(** ** Class [clashes] *)

(** [[model_distance, vdw_sum, abs(delta), symop_str, symop]] *)
Record clash_info : Type := ClashInfo {
  ci_model_distance : float;
  ci_vdw_sum : float;
  ci_overlap : float;
  ci_symop_str : string;
  ci_symop : option rt_mx
}.

Abbreviation clash_key := (nat * nat)%type.
Abbreviation clashes_dict_t := (list (clash_key * clash_info)).

Record clashes : Type := Clashes {
  _clashes_dict : clashes_dict_t;
  clashes_model : model_t
}.

Definition add_clash (self : clashes) (clash_tuple : clash_key)
  (info : clash_info) : clashes :=
  Clashes (Dict.set (_clashes_dict self) clash_tuple info)
          (clashes_model self).

Definition remove_clash (self : clashes) (clash_tuple : clash_key)
  : clashes :=
  if Dict.mem (_clashes_dict self) clash_tuple
  then Clashes (Dict.del (_clashes_dict self) clash_tuple)
               (clashes_model self)
  else self.

Definition iseq_tuple_is_sym_clash (self : clashes)
  (clash_tuple : clash_key) : result (option rt_mx) :=
  info ← Dict.getitem (_clashes_dict self) clash_tuple;
  Ok (ci_symop info).

Definition iseq_tuple_is_clashing (self : clashes)
  (clash_tuple : clash_key) : bool :=
  Dict.mem (_clashes_dict self) clash_tuple.

Definition get_model_distance (self : clashes) (clash_tuple : clash_key)
  : result float :=
  info ← Dict.getitem (_clashes_dict self) clash_tuple;
  Ok (ci_model_distance info).

Definition get_n_clashes (self : clashes) : nat :=
  length (_clashes_dict self).

(** [sorted(items, key=...)]: stable, ascending, comparing keys with [<].
    Every stable sort agrees with it on keys that [<] orders totally,
    which floats other than NaN are. *)
Fixpoint insert_by_key {A} (key : A -> float) (x : A) (l : list A)
  : list A :=
  match l with
  | [] => [x]
  | y :: l' =>
      if F64.ltb (key y) (key x) then y :: insert_by_key key x l'
      else x :: y :: l'
  end.

Definition sorted_by_key {A} (key : A -> float) (l : list A) : list A :=
  foldr (insert_by_key key) [] l.

Definition sort_options : list string :=
  ["vdw_distance"; "model_distance"; "overlap"; "symmetry"].

(** [sort_clashes]: the module never imports [Sorry], so the guard of an
    unknown option raises NameError; sorting by ['symmetry'] would order
    operator objects and [None], which have no order (TypeError as soon
    as two entries are compared). *)
Definition sort_clashes (self : clashes) (by_value : string)
  : result clashes :=
  if decide (by_value ∈ sort_options) then
    let d := _clashes_dict self in
    let sorted_with key :=
      Ok (Clashes (sorted_by_key (fun kv => key (snd kv)) d)
                  (clashes_model self)) in
    if decide (by_value = "symmetry") then
      match d with
      | _ :: _ :: _ => Raise TypeError
      | _ => Ok self
      end
    else if decide (by_value = "overlap") then sorted_with ci_overlap
    else if decide (by_value = "vdw_distance") then sorted_with ci_vdw_sum
    else sorted_with ci_model_distance
  else Raise NameError.

(** [clashes(clashes_dict=..., model=...)]: both parameters of
    [__init__] are required; [None] stands for an argument the call
    does not pass, which raises TypeError before the body runs. *)
Definition clashes_init (clashes_dict : option clashes_dict_t)
  (model : option model_t) : result clashes :=
  match clashes_dict, model with
  | Some d, Some m => sort_clashes (Clashes d m) "overlap"
  | _, _ => Raise TypeError
  end.

(** ** Class [hbonds] *)

(** [[h_a_distance, x_a_distance, angle in degrees, symop_str, symop,
      vdw_sum]] *)
Record hbond_info : Type := HbondInfo {
  hb_h_a_distance : float;
  hb_x_a_distance : float;
  hb_x_h_a_angle : float;
  hb_symop_str : string;
  hb_symop : option rt_mx;
  hb_vdw_sum : float
}.

(** The key [(iseq_x, iseq_h, iseq_a)]. *)
Abbreviation hbond_key := (nat * nat * nat)%type.
Abbreviation hbonds_dict_t := (list (hbond_key * hbond_info)).

Record hbonds : Type := Hbonds {
  _hbonds_dict : hbonds_dict_t;
  hbonds_model : model_t
}.

Definition hbonds_init (hbonds_dict : option hbonds_dict_t)
  (model : option model_t) : result hbonds :=
  match hbonds_dict, model with
  | Some d, Some m => Ok (Hbonds d m)
  | _, _ => Raise TypeError
  end.

Definition get_n_hbonds (self : hbonds) : nat :=
  length (_hbonds_dict self).

(** The names an instance of [hbonds] answers to: the methods of the
    class and the two attributes [__init__] sets. *)
Definition hbonds_attributes : list string :=
  ["__init__"; "show"; "get_n_hbonds"; "forms_hbond"; "sort_hbonds";
   "get_results"; "_hbonds_dict"; "model"].

(** [self.<name>() > 0] for an instance of [hbonds]: a name that is not
    an attribute raises AttributeError; of the attributes only
    [get_n_hbonds] can be called without arguments for an integer. *)
Definition hbonds_count_positive (self : hbonds) (name : string)
  : result bool :=
  if decide (name ∈ hbonds_attributes) then
    if decide (name = "get_n_hbonds") then Ok (0 <? get_n_hbonds self)
    else Raise TypeError
  else Raise AttributeError.

(** ** String helpers: [s.strip().upper()] *)

Module Str.

Fixpoint lstrip (s : string) : string :=
  match s with
  | String a s' => if Ascii.is_space a then lstrip s' else s
  | EmptyString => EmptyString
  end.

Definition strip (s : string) : string :=
  String.rev (lstrip (String.rev (lstrip s))).

Definition upper_char (a : Ascii.ascii) : Ascii.ascii :=
  let n := Ascii.nat_of_ascii a in
  if (97 <=? n) && (n <=? 122) then Ascii.ascii_of_nat (n - 32) else a.

Fixpoint upper (s : string) : string :=
  match s with
  | String a s' => String (upper_char a) (upper s')
  | EmptyString => EmptyString
  end.

End Str.

(** ** Class [manager] *)

(** The attributes [_process_nonbonded_proxies] creates before its loop
    and the methods it calls read and write: [self._clashes],
    [self._hbonds_dict] and [self._mult_clash_dict]. *)
Record run_state : Type := RunState {
  rs_clashes : clashes;
  rs_hbonds_dict : hbonds_dict_t;
  rs_mult_clash_dict : list (nat * list nat)
}.

Record manager : Type := Manager {
  model : model_t;
  _clashes : option clashes;
  _hbonds : option hbonds
}.

Definition manager_init (model : model_t) : manager :=
  Manager model None None.

(** [[i_seq, j_seq].sort()] as a tuple. *)
Definition sorted_pair (i j : nat) : clash_key :=
  if j <? i then (j, i) else (i, j).

(** [if k not in d: d[k] = list()] *)
Definition ensure_list (d : list (nat * list nat)) (k : nat)
  : list (nat * list nat) :=
  if Dict.mem d k then d else Dict.set d k [].

(** [d[k].append(x)] *)
Definition append_to (d : list (nat * list nat)) (k x : nat)
  : result (list (nat * list nat)) :=
  l ← Dict.getitem d k;
  Ok (Dict.set d k (l ++ [x])).

Definition _is_clash (mdl : model_t) (st : run_state) (i_seq j_seq : nat)
  (fsc0 : conn_table) (model_distance : float)
  : result (bool * run_state) :=
  is_1_5_interaction ←
    check_if_1_5_interaction i_seq j_seq (m_hd_sel mdl) fsc0;
  if negb is_1_5_interaction then
    let d := ensure_list (rs_mult_clash_dict st) i_seq in
    let d := ensure_list d j_seq in
    d ← append_to d i_seq j_seq;
    d ← append_to d j_seq i_seq;
    Ok (true, RunState (rs_clashes st) (rs_hbonds_dict st) d)
  else Ok (false, st).

(** [rg2.atoms().set_xyz(xyzs2)] *)
Definition set_xyz (atoms : list atom) (xyzs : list vec3)
  : result (list atom) :=
  if length atoms =? length xyzs then
    Ok (zip_with (fun a p => Atom (i_seq a) (name a) (element a) p
                                   (altloc a)) atoms xyzs)
  else Raise RuntimeError.

(** The loop over [rg2.atoms()] that re-finds [atom2] among the moved
    copies by name and altloc. *)
Fixpoint rematch (atom2 : atom) (candidates : list atom) : atom :=
  match candidates with
  | [] => atom2
  | a :: rest =>
      if decide (name a = name atom2 /\ altloc a = altloc atom2)
      then a else rematch atom2 rest
  end.

(** [_residue_groups_rt_mx_ij]; of its four results the caller uses the
    two atoms.  [sgtbx.rt_mx(str(symop))] re-reads the operator, which
    fails when there is none. *)
Definition _residue_groups_rt_mx_ij (atom1 atom2 : hier_atom)
  (unit_cell : option unit_cell) (symop_str : string)
  (symop : option rt_mx) : result (atom * atom) :=
  let xyzs2 := xyz <$> rg_atoms (parent_rg atom2) in
  match unit_cell with
  | Some uc =>
      if decide (symop_str = "") then Ok (the_atom atom1, the_atom atom2)
      else
        match symop with
        | Some rt_mx_ji =>
            let xyzs2 :=
              (fun p => orthogonalize uc
                          (rt_apply rt_mx_ji (fractionalize uc p)))
                <$> xyzs2 in
            rg2 ← set_xyz (rg_atoms (parent_rg atom2)) xyzs2;
            Ok (the_atom atom1, rematch (the_atom atom2) rg2)
        | None => Raise RuntimeError
        end
  | None => Ok (the_atom atom1, the_atom atom2)
  end.

Definition acceptor_elements : list string := ["O"; "N"; "S"; "F"; "CL"].

(** The geometric test of a hydrogen bond (Steiner's table, minimum
    angle 110). *)
Definition hbond_thresholds (h_a_distance x_a_distance angle_deg : float)
  : bool :=
  (F64.leb (F64.dec 12 1) h_a_distance
   && F64.leb h_a_distance (F64.dec 22 1))
  && (F64.leb (F64.dec 22 1) x_a_distance
      && F64.leb x_a_distance (F64.dec 32 1))
  && F64.leb (F64.of_Z 110) angle_deg.

(** The loop [for iseq_x in iseq_x_list] of [_is_hbond]. *)
Fixpoint find_donor (L : libm) (mdl : model_t) (st : run_state)
  (item : proxy) (atom_h atom_a : atom) (iseq_x_list : list nat)
  : result (bool * run_state) :=
  match iseq_x_list with
  | [] => Ok (false, st)
  | iseq_x :: rest =>
      atom_x ← getitem (m_atoms mdl) iseq_x;
      let atom_x := the_atom atom_x in
      let xyz_h := xyz atom_h in
      let xyz_a := xyz atom_a in
      let xyz_x := xyz atom_x in
      let h_a_distance := Col.length (Col.vsub xyz_h xyz_a) in
      if negb (approx_equal h_a_distance (p_model_distance item)
                            (F64.dec 1 1))
      then Raise AssertionError
      else
        let x_a_distance := Col.length (Col.vsub xyz_x xyz_a) in
        let x_h_a_angle :=
          angle L (Col.vsub xyz_h xyz_a) (Col.vsub xyz_h xyz_x) in
        if hbond_thresholds h_a_distance x_a_distance
                            (degrees L x_h_a_angle)
        then
          Ok (true,
              RunState (rs_clashes st)
                (Dict.set (rs_hbonds_dict st)
                   (i_seq atom_x, i_seq atom_h, i_seq atom_a)
                   (HbondInfo h_a_distance x_a_distance
                      (degrees L x_h_a_angle) (p_symop_str item)
                      (p_symop item) (p_vdw_sum item)))
                (rs_mult_clash_dict st))
        else find_donor L mdl st item atom_h atom_a rest
  end.

(** [_is_hbond]; [raise Sorry(...)] names a class the module never
    imports, hence NameError. *)
Definition _is_hbond (L : libm) (mdl : model_t) (st : run_state)
  (item : proxy) (unit_cell : option unit_cell) (fsc0 : conn_table)
  : result (bool * run_state) :=
  let i_seq_ := p_i_seq item in
  let j_seq_ := p_j_seq item in
  atom1 ← getitem (m_atoms mdl) i_seq_;
  atom2 ← getitem (m_atoms mdl) j_seq_;
  water_i ← getitem (m_water_sel mdl) i_seq_;
  water ← (if water_i : bool then Ok true
            else getitem (m_water_sel mdl) j_seq_);
  if water : bool then Ok (false, st)
  else if decide (id_str (parent_rg atom1) = id_str (parent_rg atom2))
  then Ok (false, st)
  else
    '(atom1, atom2) ← _residue_groups_rt_mx_ij atom1 atom2 unit_cell
                        (p_symop_str item) (p_symop item);
    hd1 ← getitem (m_hd_sel mdl) (i_seq atom1);
    '(atom_h, atom_a) ←
      (if hd1 : bool then Ok (atom1, atom2)
       else hd2 ← getitem (m_hd_sel mdl) (i_seq atom2);
            if hd2 : bool then Ok (atom2, atom1) else Raise NameError);
    let element_a := Str.upper (Str.strip (element atom_a)) in
    if decide (element_a ∈ acceptor_elements) then
      iseq_x_list ← table_getitem fsc0 (i_seq atom_h);
      find_donor L mdl st item atom_h atom_a iseq_x_list
    else Ok (false, st).

(** The pairs [(l[i], l[j])], [i < j], in the order the two nested
    [range] loops of [_process_clashes] visit them. *)
Fixpoint ordered_pairs {A} (l : list A) : list (A * A) :=
  match l with
  | [] => []
  | x :: l' => (pair x <$> l') ++ ordered_pairs l'
  end.

Definition inline_cutoff : float := F64.dec 707 3.

(** The body of the innermost loop of [_process_clashes] for the common
    atom [i_seq] and two of its partners: the keys it appends to
    [clashes_to_be_removed]. *)
Definition inline_verdict (cl : clashes) (sites_cart : list vec3)
  (fsc0 : conn_table) (i_seq_ : nat) (multiples : nat * nat)
  : result (list clash_key) :=
  let '(multiple_1, multiple_2) := multiples in
  let cos_angle := F64.zero in
  bonded ← table_getitem fsc0 multiple_2;
  if decide (multiple_1 ∈ bonded) then
    atom_1_xyz ← getitem sites_cart multiple_1;
    atom_2_xyz ← getitem sites_cart multiple_2;
    atom_i_xyz ← getitem sites_cart i_seq_;
    let tuple1 := sorted_pair i_seq_ multiple_1 in
    let tuple2 := sorted_pair i_seq_ multiple_2 in
    sym ← iseq_tuple_is_sym_clash cl tuple1;
    let cos_angle :=
      match sym with
      | None => cos_vec atom_1_xyz atom_2_xyz atom_i_xyz
      | Some _ => cos_angle
      end in
    if F64.ltb inline_cutoff (F64.abs cos_angle)
       && Col.neq atom_1_xyz atom_2_xyz
    then
      if iseq_tuple_is_clashing cl tuple1
         && iseq_tuple_is_clashing cl tuple2
      then
        d1 ← get_model_distance cl tuple1;
        d2 ← get_model_distance cl tuple2;
        if F64.ltb d1 d2 then Ok [tuple2] else Ok [tuple1]
      else Ok []
    else Ok []
  else Ok [].

(** The scan of [_process_clashes]: all keys marked for removal. *)
Definition clashes_to_be_removed (st : run_state)
  (sites_cart : list vec3) (fsc0 : conn_table) : result (list clash_key) :=
  collect (fun entry : nat * list nat =>
             let '(i_seq_, j_seq_list) := entry in
             collect (inline_verdict (rs_clashes st) sites_cart fsc0 i_seq_)
                     (ordered_pairs j_seq_list))
          (rs_mult_clash_dict st).

Definition remove_marked (cl : clashes) (marked : list clash_key)
  : clashes :=
  foldl (fun cl clash_tuple =>
           if iseq_tuple_is_clashing cl clash_tuple
           then remove_clash cl clash_tuple else cl)
        cl marked.

Definition _process_clashes (st : run_state) (sites_cart : list vec3)
  (fsc0 : conn_table) : result run_state :=
  marked ← clashes_to_be_removed st sites_cart fsc0;
  Ok (RunState (remove_marked (rs_clashes st) marked)
               (rs_hbonds_dict st) (rs_mult_clash_dict st)).

Definition clash_cutoff : float := F64.opp (F64.dec 40 2).

(** Lines 507-513 of the loop body: the hydrogen-bond test of one item. *)
Definition hbond_branch (L : libm) (mdl : model_t) (find_hbonds : bool)
  (unit_cell : option unit_cell) (fsc0 : conn_table) (item : proxy)
  (st : run_state) : result (bool * run_state) :=
  if find_hbonds then
    if F64.ltb (p_model_distance item) (F64.of_Z 3) then
      hd_i ← getitem (m_hd_sel mdl) (p_i_seq item);
      hd_j ← getitem (m_hd_sel mdl) (p_j_seq item);
      if length (filter (eq true) [hd_i; hd_j]) =? 1
      then _is_hbond L mdl st item unit_cell fsc0
      else Ok (false, st)
    else Ok (false, st)
  else Ok (false, st).

(** Lines 517-532 of the loop body: the clash test of one item. *)
Definition clash_branch (mdl : model_t) (find_clashes : bool)
  (fsc0 : conn_table) (item : proxy) (st : run_state)
  : result (bool * run_state) :=
  if find_clashes then
    let delta := F64.sub (p_model_distance item) (p_vdw_sum item) in
    if F64.ltb delta clash_cutoff then
      '(is_clash, st) ← _is_clash mdl st (p_i_seq item) (p_j_seq item)
                          fsc0 (p_model_distance item);
      if is_clash : bool then
        let clash_tuple := sorted_pair (p_i_seq item) (p_j_seq item) in
        let info :=
          ClashInfo (p_model_distance item) (p_vdw_sum item)
                    (F64.abs delta) (p_symop_str item) (p_symop item) in
        Ok (true,
            RunState (add_clash (rs_clashes st) clash_tuple info)
                     (rs_hbonds_dict st) (rs_mult_clash_dict st))
      else Ok (false, st)
    else Ok (false, st)
  else Ok (false, st).

Definition loop_body (L : libm) (mdl : model_t)
  (find_clashes find_hbonds : bool) (unit_cell : option unit_cell)
  (fsc0 : conn_table) (item : proxy) (st : run_state) : result run_state :=
  '(_, st) ← hbond_branch L mdl find_hbonds unit_cell fsc0 item st;
  '(_, st) ← clash_branch mdl find_clashes fsc0 item st;
  Ok st.

(** The first part of [_process_nonbonded_proxies] for a list of
    candidates: the registries are created empty and the loop fills
    them. *)
Definition classify_pairs (L : libm) (mdl : model_t)
  (find_clashes find_hbonds : bool) (nonbonded_list : list proxy)
  : result run_state :=
  cl ← clashes_init (Some []) (Some mdl);
  for_each (loop_body L mdl find_clashes find_hbonds (m_unit_cell mdl)
                      (m_fsc0 mdl))
           nonbonded_list (RunState cl [] []).

Definition _process_nonbonded_proxies (L : libm) (self : manager)
  (find_clashes find_hbonds : bool) : result manager :=
  let mdl := model self in
  let sites_cart := m_sites_cart mdl in
  match m_get_sorted mdl with
  | Some (nonbonded_list, _) =>
      let fsc0 := m_fsc0 mdl in
      st ← classify_pairs L mdl find_clashes find_hbonds nonbonded_list;
      st ← _process_clashes st sites_cart fsc0;
      cl ← sort_clashes (rs_clashes st) "overlap";
      hb ← hbonds_init (Some (rs_hbonds_dict st)) (Some mdl);
      Ok (Manager mdl (Some cl) (Some hb))
  | None =>
      cl ← clashes_init (Some []) None;
      hb ← hbonds_init (Some []) None;
      Ok (Manager mdl (Some cl) (Some hb))
  end.

Definition get_clashes (L : libm) (self : manager)
  : result (option clashes * manager) :=
  self ← match _clashes self with
          | None => _process_nonbonded_proxies L self true true
          | Some _ => Ok self
          end;
  Ok (_clashes self, self).

Definition get_hbonds (L : libm) (self : manager)
  : result (option hbonds * manager) :=
  self ← match _hbonds self with
          | None => _process_nonbonded_proxies L self true true
          | Some _ => Ok self
          end;
  Ok (_hbonds self, self).

(** [has_hbonds] asks its registry for [get_n_bonds]. *)
Definition has_hbonds (L : libm) (self : manager)
  : result (bool * manager) :=
  '(hb, self) ← get_hbonds L self;
  match hb with
  | Some hb => b ← hbonds_count_positive hb "get_n_bonds"; Ok (b, self)
  | None => Raise AttributeError
  end.

Definition has_clashes (L : libm) (self : manager)
  : result (bool * manager) :=
  '(cl, self) ← get_clashes L self;
  match cl with
  | Some cl => Ok (0 <? get_n_clashes cl, self)
  | None => Raise AttributeError
  end.

(** ** Bond paths in a connectivity table *)

(** [b] is listed among the atoms bonded to [a]. *)
Definition bonded (t : conn_table) (a b : nat) : Prop :=
  ∃ l, t !! a = Some l ∧ b ∈ l.

(** [walk t a n b]: [n] bonds lead from [a] to [b]. *)
Inductive walk (t : conn_table) (a : nat) : nat -> nat -> Prop :=
  | walk_O : walk t a 0 a
  | walk_S n y b : walk t a n y -> bonded t y b -> walk t a (S n) b.

(** The shortest path from [a] to [b] has exactly [n] bonds. *)
Definition bond_distance (t : conn_table) (a b n : nat) : Prop :=
  walk t a n b ∧ ∀ k, k < n → ¬ walk t a k b.

(** Every atom a list mentions has an entry of its own. *)
Definition table_closed (t : conn_table) : Prop :=
  ∀ a l b, t !! a = Some l → b ∈ l → is_Some (t !! b).

(** What the loop of the 1-5 test has established after [k] passes from
    the hydrogen [h]. *)
Record bfs_inv (t : conn_table) (h k : nat) (s : bfs_state) : Prop := {
  inv_used : ∀ x, x ∈ used_connections s ↔ ∃ m, m ≤ k ∧ walk t h m x;
  inv_dist : ∀ x, x ∈ used_connections s →
                  ∃ d, d ≤ k ∧ bond_distance t h x d;
  inv_new : ∀ x, x ∈ new_connections s ↔ bond_distance t h x k;
  inv_numbers : ∀ x n,
    atoms_numbers s !! x = Some n ↔
    (x = h ∧ n = 0) ∨ (2 ≤ n ≤ k + 1 ∧ bond_distance t h x (n - 1))
}.

(** The chain H-A1-A2-A3-A4-X: atom 0 is the hydrogen, atoms 1 to 4 the
    heavy atoms A1 to A4 and atom 5 the atom X bonded to A4 only. *)
Definition chain_table : conn_table :=
  list_to_map [(0, [1]); (1, [0; 2]); (2, [1; 3]); (3, [2; 4]);
               (4, [3; 5]); (5, [4])].

Definition chain_hd_sel : list bool :=
  [true; false; false; false; false; false].

(** ** Reading a finished run *)

(** The keys of the clash registry after a run, in registry order. *)
Definition clash_keys (r : result manager) : option (list clash_key) :=
  match r with
  | Ok self => (fun cl => Dict.keys (_clashes_dict cl)) <$> _clashes self
  | Raise _ => None
  end.


(** ** Small models *)

Definition point (x y z : float) : vec3 := Vec3 x y z.

(** An atom that is alone in its residue group. *)
Definition lone_atom (i : nat) (nm el : string) (p : vec3) (rg : string)
  : hier_atom :=
  let a := Atom i nm el p "" in HierAtom a (ResidueGroup rg [a]).

(** [math.degrees]: the argument times 180/pi. *)
Definition degrees_of_radians (x : float) : float :=
  F64.mul x (F64.div (F64.of_Z 180) (F64.dec 3141592653589793 15)).

(** A donor N-H (atoms 0 and 1) whose hydrogen sits at 2.0 A from two
    oxygens of two other residues (atoms 2 and 3), on either side of the
    N-H axis: N at (-1,0,0), H at the origin, the oxygens at
    (1.6, 1.2, 0) and (1.6, -1.2, 0).  Both N-H...O angles have cosine
    -0.8, which is 2.498091544796509 rad (143.13 degrees); the angle
    function of this model returns that value. *)
Definition bifurcated_libm : libm :=
  Libm (fun _ _ => F64.dec 2498091544796509 15) degrees_of_radians.

Definition bifurcated_sites : list vec3 :=
  [point (F64.of_Z (-1)) F64.zero F64.zero;
   point F64.zero F64.zero F64.zero;
   point (F64.dec 16 1) (F64.dec 12 1) F64.zero;
   point (F64.dec 16 1) (F64.opp (F64.dec 12 1)) F64.zero].

Definition bifurcated_model : model_t :=
  let n := Atom 0 " N  " " N" (point (F64.of_Z (-1)) F64.zero F64.zero) "" in
  let h := Atom 1 " H  " " H" (point F64.zero F64.zero F64.zero) "" in
  let donor := ResidueGroup "A   1 " [n; h] in
  Model
    [HierAtom n donor; HierAtom h donor;
     lone_atom 2 " O  " " O"
       (point (F64.dec 16 1) (F64.dec 12 1) F64.zero) "A   5 ";
     lone_atom 3 " O  " " O"
       (point (F64.dec 16 1) (F64.opp (F64.dec 12 1)) F64.zero) "A   9 "]
    bifurcated_sites
    [false; true; false; false]
    [false; false; false; false]
    None
    (Some ([Proxy "" 1 2 (F64.of_Z 2) (F64.dec 23 1) "" None;
            Proxy "" 1 3 (F64.of_Z 2) (F64.dec 23 1) "" None], 0))
    (list_to_map [(0, [1]); (1, [0]); (2, []); (3, [])]).

(** Four heavy atoms on the x axis: atom 0 at the origin and the bonded
    chain 3-1-2 at x = 1.5, 2.0 and 2.5 pointing at it.  Atom 0 overlaps
    with all three. *)
Definition axis_sites : list vec3 :=
  [point F64.zero F64.zero F64.zero;
   point (F64.of_Z 2) F64.zero F64.zero;
   point (F64.dec 25 1) F64.zero F64.zero;
   point (F64.dec 15 1) F64.zero F64.zero].

Definition axis_atoms : list hier_atom :=
  [lone_atom 0 " O  " " O" (point F64.zero F64.zero F64.zero) "A   1 ";
   lone_atom 1 " C1 " " C" (point (F64.of_Z 2) F64.zero F64.zero) "A   2 ";
   lone_atom 2 " C2 " " C" (point (F64.dec 25 1) F64.zero F64.zero) "A   2 ";
   lone_atom 3 " C3 " " C" (point (F64.dec 15 1) F64.zero F64.zero) "A   2 "].

Definition chain_of_three_model : model_t :=
  Model axis_atoms axis_sites
    [false; false; false; false] [false; false; false; false] None
    (Some ([Proxy "" 0 3 (F64.dec 15 1) (F64.dec 34 1) "" None;
            Proxy "" 0 1 (F64.of_Z 2) (F64.dec 34 1) "" None;
            Proxy "" 0 2 (F64.dec 25 1) (F64.dec 34 1) "" None], 0))
    (list_to_map [(0, []); (1, [2; 3]); (2, [1]); (3, [1])]).

(** A unit cell whose axes are the Cartesian axes with unit lengths, and
    the operator that shifts by one cell along z. *)
Definition unit_cube : unit_cell := UnitCell (fun p => p) (fun p => p).

Definition shift_z : rt_mx :=
  RtMx (fun p => Vec3 (vx p) (vy p) (F64.add (vz p) F64.one)).

(** Atom 0 overlaps with atom 1 of its own asymmetric unit and with a
    symmetry copy of atom 2, which is bonded to atom 1; the coordinates
    of the model place 0, 1 and 2 on the x axis. *)
Definition symmetry_partner_model : model_t :=
  Model (take 3 axis_atoms) (take 3 axis_sites)
    [false; false; false] [false; false; false] (Some unit_cube)
    (Some ([Proxy "" 0 1 (F64.of_Z 2) (F64.dec 34 1) "" None;
            Proxy "" 0 2 (F64.dec 25 1) (F64.dec 34 1)
                  " sym=x,y,z+1" (Some shift_z)], 0))
    (list_to_map [(0, []); (1, [2]); (2, [1])]).

(** Atom 3 overlaps with its own symmetry copy. *)
Definition self_contact_model : model_t :=
  Model axis_atoms axis_sites
    [false; false; false; false] [false; false; false; false]
    (Some unit_cube)
    (Some ([Proxy "" 3 3 (F64.of_Z 1) (F64.dec 34 1)
                  " sym=x,y,z+1" (Some shift_z)], 0))
    (list_to_map [(0, []); (1, [2; 3]); (2, [1]); (3, [1])]).

(** A libm for models without hydrogens, where no angle is measured. *)
Definition no_angles : libm := Libm (fun _ _ => F64.zero) degrees_of_radians.

(** ** Statements about registries *)

Definition hbonds_within_thresholds (d : hbonds_dict_t) : Prop :=
  ∀ key r, (key, r) ∈ d →
    hbond_thresholds (hb_h_a_distance r) (hb_x_a_distance r)
                     (hb_x_h_a_angle r) = true.

(** The hydrogen of a key [(iseq_x, iseq_h, iseq_a)]. *)
Definition hydrogen_of (key : hbond_key) : nat := key.1.2.


Definition keys_ordered (keys : list clash_key) : Prop :=
  ∀ k, k ∈ keys → k.1 ≤ k.2.

Definition keys_strictly_ordered (keys : list clash_key) : Prop :=
  ∀ k, k ∈ keys → k.1 < k.2.

(** Every key is the sorted pair of the two atoms of some candidate. *)
Definition keys_from (items : list proxy) (keys : list clash_key) : Prop :=
  ∀ k, k ∈ keys →
    ∃ item, item ∈ items ∧ k = sorted_pair (p_i_seq item) (p_j_seq item).

(** The state of [chain_of_three_model] after the loop over its three
    candidates, before [_process_clashes]. *)
Definition chain_of_three_classified : run_state :=
  match m_get_sorted chain_of_three_model with
  | Some (nonbonded_list, _) =>
      match classify_pairs no_angles chain_of_three_model true true
              nonbonded_list with
      | Ok st => st
      | Raise _ => RunState (Clashes [] chain_of_three_model) [] []
      end
  | None => RunState (Clashes [] chain_of_three_model) [] []
  end.

(** The same for [symmetry_partner_model]. *)
Definition symmetry_partner_classified : run_state :=
  match m_get_sorted symmetry_partner_model with
  | Some (nonbonded_list, _) =>
      match classify_pairs no_angles symmetry_partner_model true true
              nonbonded_list with
      | Ok st => st
      | Raise _ => RunState (Clashes [] symmetry_partner_model) [] []
      end
  | None => RunState (Clashes [] symmetry_partner_model) [] []
  end.

(** [get_clashes] and [get_hbonds] on a fresh manager run the pipeline
    with both searches on. *)
Definition first_run (L : libm) (mdl : model_t) : result manager :=
  _process_nonbonded_proxies L (manager_init mdl) true true.

(** The state of [chain_of_three_model] after [_process_clashes]. *)
Definition chain_of_three_resolved : run_state :=
  match _process_clashes chain_of_three_classified axis_sites
          (m_fsc0 chain_of_three_model) with
  | Ok st => st
  | Raise _ => chain_of_three_classified
  end.

(** The manager of [bifurcated_model] after its first run, its
    hydrogen-bond registry, and the first record of that registry. *)
Definition bifurcated_finished : manager :=
  match first_run bifurcated_libm bifurcated_model with
  | Ok self => self
  | Raise _ => manager_init bifurcated_model
  end.

Definition bifurcated_hbonds : hbonds :=
  match _hbonds bifurcated_finished with
  | Some hb => hb
  | None => Hbonds [] bifurcated_model
  end.

Definition bifurcated_first_record : hbond_info :=
  match _hbonds_dict bifurcated_hbonds with
  | (_, r) :: _ => r
  | [] => HbondInfo F64.zero F64.zero F64.zero "" None F64.zero
  end.

(** The manager of [chain_of_three_model] after its first run and its
    clash registry. *)
Definition chain_of_three_finished : manager :=
  match first_run no_angles chain_of_three_model with
  | Ok self => self
  | Raise _ => manager_init chain_of_three_model
  end.

Definition chain_of_three_clashes : clashes :=
  match _clashes chain_of_three_finished with
  | Some cl => cl
  | None => Clashes [] chain_of_three_model
  end.



(** ** The rest of class [clashes] *)

(** [iseq_is_clashing]: the registry is unzipped into the first and the
    second components of its keys, and the atom is looked for in both. *)
Definition iseq_is_clashing (self : clashes) (iseq : nat) : bool :=
  match _clashes_dict self with
  | [] => false
  | _ :: _ =>
      let i_seqs := (Dict.keys (_clashes_dict self)).*1 in
      let j_seqs := (Dict.keys (_clashes_dict self)).*2 in
      bool_decide (iseq ∈ i_seqs) || bool_decide (iseq ∈ j_seqs)
  end.

(** What the scores read from the model: [model.size()] and
    [model.selection(string = 'protein')]. *)
Record model_counts : Type := ModelCounts {
  mc_size : nat;
  mc_protein_sel : list bool
}.

Module Score.

(** The two ways the scores can fail. *)
Inductive error : Set :=
  | ZeroDivisionError
  | IndexError.

Inductive outcome (A : Type) : Type :=
  | Done (a : A)
  | Failed (e : error).
Arguments Done {A} a.
Arguments Failed {A} e.

(** [a / b] on two integers under [from __future__ import division]:
    the quotient as a float, ZeroDivisionError for [b = 0].  Both
    integers are converted exactly as long as they are below 2^53. *)
Definition truediv (a b : nat) : outcome float :=
  if b =? 0 then Failed ZeroDivisionError
  else Done (F64.div (F64.of_Z (Z.of_nat a)) (F64.of_Z (Z.of_nat b))).

(** [sel[i]] on the selection. *)
Definition sel_getitem (sel : list bool) (i : nat) : outcome bool :=
  match sel !! i with
  | Some b => Done b
  | None => Failed IndexError
  end.

End Score.

(** [_obtain_symmetry_clashes]: the records that carry an operator, their
    number and their score; the score stays the integer 0 (the float
    zero here) when there is none. *)
Definition _obtain_symmetry_clashes (self : clashes) (mc : model_counts)
  : Score.outcome (clashes_dict_t * nat * float) :=
  let symmetry_clashes_dict :=
    filter (fun kv => is_Some (ci_symop kv.2)) (_clashes_dict self) in
  match symmetry_clashes_dict with
  | [] => Score.Done ([], 0, F64.zero)
  | _ :: _ =>
      let n_clashes_sym := length symmetry_clashes_dict in
      match Score.truediv (n_clashes_sym * 1000) (mc_size mc) with
      | Score.Done clashscore_sym =>
          Score.Done (symmetry_clashes_dict, n_clashes_sym, clashscore_sym)
      | Score.Failed e => Score.Failed e
      end
  end.

(** The loop of [_obtain_macro_mol_clashes]: a record is kept when both
    atoms are selected (the second flag is read only when the first one
    holds) and the record carries no operator. *)
Fixpoint macro_mol_filter (sel : list bool) (d : clashes_dict_t)
  : Score.outcome clashes_dict_t :=
  match d with
  | [] => Score.Done []
  | (iseq_tuple, record) :: d' =>
      match Score.sel_getitem sel iseq_tuple.1 with
      | Score.Failed e => Score.Failed e
      | Score.Done b0 =>
          match (if b0 then Score.sel_getitem sel iseq_tuple.2
                 else Score.Done false) with
          | Score.Failed e => Score.Failed e
          | Score.Done b1 =>
              match macro_mol_filter sel d' with
              | Score.Failed e => Score.Failed e
              | Score.Done rest =>
                  if b1 && bool_decide (ci_symop record = None)
                  then Score.Done ((iseq_tuple, record) :: rest)
                  else Score.Done rest
              end
          end
      end
  end.

(** [_obtain_macro_mol_clashes]: the score divides by the number of
    selected atoms, [model.select(macro_mol_sel).size()]. *)
Definition _obtain_macro_mol_clashes (self : clashes) (mc : model_counts)
  : Score.outcome (clashes_dict_t * nat * float) :=
  match macro_mol_filter (mc_protein_sel mc) (_clashes_dict self) with
  | Score.Failed e => Score.Failed e
  | Score.Done [] => Score.Done ([], 0, F64.zero)
  | Score.Done macro_mol_clashes_dict =>
      let n_clashes_macro_mol := length macro_mol_clashes_dict in
      match Score.truediv (n_clashes_macro_mol * 1000)
              (length (filter (eq true) (mc_protein_sel mc))) with
      | Score.Done clashscore_macro_mol =>
          Score.Done (macro_mol_clashes_dict, n_clashes_macro_mol,
                      clashscore_macro_mol)
      | Score.Failed e => Score.Failed e
      end
  end.

(** The [group_args] that [clashes.get_results] returns. *)
Record clash_results : Type := ClashResults {
  n_clashes : nat;
  clashscore : float;
  n_clashes_sym : nat;
  clashscore_sym : float;
  n_clashes_macro_mol : nat;
  clashscore_macro_mol : float
}.

Definition get_results (self : clashes) (mc : model_counts)
  : Score.outcome clash_results :=
  let n := get_n_clashes self in
  match Score.truediv (n * 1000) (mc_size mc) with
  | Score.Failed e => Score.Failed e
  | Score.Done score =>
      match _obtain_symmetry_clashes self mc with
      | Score.Failed e => Score.Failed e
      | Score.Done (_, n_sym, score_sym) =>
          match _obtain_macro_mol_clashes self mc with
          | Score.Failed e => Score.Failed e
          | Score.Done (_, n_macro, score_macro) =>
              Score.Done (ClashResults n score n_sym score_sym
                                       n_macro score_macro)
          end
      end
  end.

(** ** Statements about the loop and the pass *)

(** [x] is finite: a zero or a finite number, not an infinity or NaN. *)
Definition is_finite (x : float) : bool :=
  match x with
  | S754_zero _ | S754_finite _ _ _ => true
  | _ => false
  end.

Definition finite_vec (a : vec3) : Prop :=
  is_finite (vx a) = true ∧ is_finite (vy a) = true
  ∧ is_finite (vz a) = true.

(** No record is followed by one whose [key] is strictly smaller. *)
Fixpoint ascending {A} (key : A -> float) (l : list A) : Prop :=
  match l with
  | [] => True
  | x :: l' =>
      match l' with
      | [] => True
      | y :: _ => F64.ltb (key y) (key x) = false
      end ∧ ascending key l'
  end.

(** The record was made from the candidate [item], which is below the
    clash cutoff and no 1-5 interaction. *)
Definition clash_record_of (mdl : model_t) (item : proxy)
  (entry : clash_key * clash_info) : Prop :=
  entry.1 = sorted_pair (p_i_seq item) (p_j_seq item)
  ∧ entry.2 = ClashInfo (p_model_distance item) (p_vdw_sum item)
                (F64.abs (F64.sub (p_model_distance item) (p_vdw_sum item)))
                (p_symop_str item) (p_symop item)
  ∧ F64.ltb (F64.sub (p_model_distance item) (p_vdw_sum item)) clash_cutoff
    = true
  ∧ check_if_1_5_interaction (p_i_seq item) (p_j_seq item) (m_hd_sel mdl)
      (m_fsc0 mdl) = Ok false.

(** Every partner listed for an atom has its clash in the registry and
    lists the atom in turn. *)
Definition index_consistent (mult : list (nat * list nat))
  (d : clashes_dict_t) : Prop :=
  NoDup (Dict.keys mult)
  ∧ ∀ c partners p, (c, partners) ∈ mult → p ∈ partners →
      sorted_pair c p ∈ Dict.keys d
      ∧ ∃ partners', (p, partners') ∈ mult ∧ c ∈ partners'.

(** No atom is listed as bonded to itself. *)
Definition table_irreflexive (t : conn_table) : Prop :=
  ∀ a l, t !! a = Some l → a ∉ l.

(** The index of partners after [_is_clash] has recorded the pair
    [(i, j)]. *)
Definition index_after_clash (d : list (nat * list nat)) (i j : nat)
  : list (nat * list nat) :=
  let d := ensure_list (ensure_list d i) j in
  let d := Dict.set d i (default [] (Dict.get d i) ++ [j]) in
  Dict.set d j (default [] (Dict.get d j) ++ [i]).

(** The record was made from the candidate [item]: a pair closer than
    3 A of which exactly one atom is a hydrogen, neither of them water,
    in different residue groups; the key names a hydrogen and a donor
    that the table lists as bonded to it; the measured H...A distance
    agrees with the model distance to 0.1 A, and the operator and the
    vdW sum are the candidate's. *)
Definition hbond_record_of (mdl : model_t) (item : proxy)
  (entry : hbond_key * hbond_info) : Prop :=
  F64.ltb (p_model_distance item) (F64.of_Z 3) = true
  ∧ (∃ hd_i hd_j,
       m_hd_sel mdl !! p_i_seq item = Some hd_i
       ∧ m_hd_sel mdl !! p_j_seq item = Some hd_j ∧ hd_i ≠ hd_j)
  ∧ m_water_sel mdl !! p_i_seq item = Some false
  ∧ m_water_sel mdl !! p_j_seq item = Some false
  ∧ (∃ a1 a2,
       m_atoms mdl !! p_i_seq item = Some a1
       ∧ m_atoms mdl !! p_j_seq item = Some a2
       ∧ id_str (parent_rg a1) ≠ id_str (parent_rg a2))
  ∧ m_hd_sel mdl !! hydrogen_of entry.1 = Some true
  ∧ (∃ xs iseq_x hx,
       m_fsc0 mdl !! hydrogen_of entry.1 = Some xs
       ∧ iseq_x ∈ xs
       ∧ m_atoms mdl !! iseq_x = Some hx
       ∧ entry.1.1.1 = i_seq (the_atom hx))
  ∧ approx_equal (hb_h_a_distance entry.2) (p_model_distance item)
      (F64.dec 1 1) = true
  ∧ hb_symop_str entry.2 = p_symop_str item
  ∧ hb_symop entry.2 = p_symop item
  ∧ hb_vdw_sum entry.2 = p_vdw_sum item.

(** The coordinates and the connectivity table cover both atoms of
    every candidate. *)
Definition covers_candidates (sites_cart : list vec3) (fsc0 : conn_table)
  (items : list proxy) : Prop :=
  ∀ item, item ∈ items →
    (p_i_seq item < length sites_cart ∧ is_Some (fsc0 !! p_i_seq item))
    ∧ (p_j_seq item < length sites_cart ∧ is_Some (fsc0 !! p_j_seq item)).

(** ** Statements about the symmetry copy *)

(** The atom [a] at the image of its position under the operator [op]
    in the cell [uc]. *)
Definition moved (uc : unit_cell) (op : rt_mx) (a : atom) : atom :=
  Atom (i_seq a) (name a) (element a)
       (orthogonalize uc (rt_apply op (fractionalize uc (xyz a))))
       (altloc a).

(** The atoms of a residue group that carry the name and the altloc of
    [a]. *)
Definition namesakes (a : atom) (rg : residue_group) : list atom :=
  filter (fun b => name b = name a ∧ altloc b = altloc a) (rg_atoms rg).

(** ** Further runs of the scenarios *)

(** The atom [i] of the axis. *)
Definition axis_atom (i : nat) : hier_atom :=
  default (lone_atom 0 "" "" (point F64.zero F64.zero F64.zero) "")
          (axis_atoms !! i).

(** [chain_of_three_model] has four atoms, all of them protein. *)
Definition chain_of_three_counts : model_counts :=
  ModelCounts 4 [true; true; true; true].

Definition chain_of_three_results : clash_results :=
  match get_results chain_of_three_clashes chain_of_three_counts with
  | Score.Done r => r
  | Score.Failed _ => ClashResults 0 F64.zero 0 F64.zero 0 F64.zero
  end.

(** The manager of [chain_of_three_model] after a run with both searches
    switched off. *)
Definition chain_of_three_unsearched : manager :=
  match _process_nonbonded_proxies no_angles
          (manager_init chain_of_three_model) false false with
  | Ok self => self
  | Raise _ => manager_init chain_of_three_model
  end.

(** ** Statements about the clash test *)




(** [x] is NaN, the one float that [<] does not order. *)
Definition is_nan (x : float) : bool :=
  match x with
  | S754_nan => true
  | _ => false
  end.

(** The three records that the loop leaves for [chain_of_three_model],
    sorted by overlap. *)
Definition chain_of_three_by_overlap : clashes :=
  match sort_clashes (rs_clashes chain_of_three_classified) "overlap" with
  | Ok cl => cl
  | Raise _ => rs_clashes chain_of_three_classified
  end.

(** * Properties *)

(** ** Sign symmetry of binary64 arithmetic *)

Section sign_symmetry.
Import F64.















End sign_symmetry.

(** ** Collinearity score *)








(** ** The order of floats *)

Lemma compare_swap x y :
  SFcompare y x = CompOpp <$> SFcompare x y.
Proof.
  destruct x as [[]|[]| |[] mx ex], y as [[]|[]| |[] my ey];
    try reflexivity; cbn [SFcompare fmap option_fmap option_map];
    rewrite (Z.compare_antisym ex ey);
    destruct (ex ?= ey)%Z; cbn [CompOpp]; try reflexivity;
    change (Pos.compare_cont Eq my mx) with (Pos.compare my mx);
    change (Pos.compare_cont Eq mx my) with (Pos.compare mx my);
    rewrite (Pos.compare_antisym mx my);
    by destruct (mx ?= my)%positive.
Qed.

Lemma ltb_asym x y : F64.ltb x y = true → F64.ltb y x = false.
Proof.
  unfold F64.ltb, SFltb. rewrite (compare_swap x y).
  by destruct (SFcompare x y) as [[]|].
Qed.

Lemma ltb_irrefl x : F64.ltb x x = false.
Proof.
  destruct (F64.ltb x x) eqn:E; [|done]. by rewrite (ltb_asym _ _ E) in E.
Qed.



(** ** Results *)

Lemma bind_Ok {A B} (a : A) (k : A → result B) : Ok a ≫= k = k a.
Proof. reflexivity. Qed.

Lemma getitem_Some {A} (l : list A) i a :
  l !! i = Some a → getitem l i = Ok a.
Proof. unfold getitem. by intros ->. Qed.

Lemma getitem_Ok_inv {A} (l : list A) i a :
  getitem l i = Ok a → l !! i = Some a.
Proof. unfold getitem. destruct (l !! i); by intros [= ->]. Qed.

Lemma table_getitem_Ok_inv (t : conn_table) k l :
  table_getitem t k = Ok l → t !! k = Some l.
Proof. unfold table_getitem. destruct (t !! k); by intros [= ->]. Qed.

Lemma for_each_cons {A S} (body : A → S → result S) a l s :
  for_each body (a :: l) s = body a s ≫= for_each body l.
Proof. reflexivity. Qed.

(** ** The 1-5 test *)

Lemma walk_dom t h n x :
  table_closed t → is_Some (t !! h) → walk t h n x → is_Some (t !! x).
Proof.
  intros Hc Hh Hw. induction Hw as [|n y b _ _ (l & Hl & Hb)]; [done|].
  by eapply Hc.
Qed.

Lemma bond_distance_unique t a b n m :
  bond_distance t a b n → bond_distance t a b m → n = m.
Proof.
  intros [Hn Hn'] [Hm Hm'].
  destruct (Nat.lt_trichotomy n m) as [?|[?|?]]; [|done|].
  - by destruct (Hm' n).
  - by destruct (Hn' m).
Qed.

Lemma bond_distance_O t a b : bond_distance t a b 0 ↔ b = a.
Proof.
  split.
  - intros [Hw _]. by inversion Hw.
  - intros ->. split; [constructor | lia].
Qed.

Lemma bond_distance_self t a n : bond_distance t a a n → n = 0.
Proof.
  intros [_ Hmin]. destruct n as [|n]; [done|].
  destruct (Hmin 0); [lia|constructor].
Qed.

Lemma gather_from t keys (acc : gset nat) :
  (∀ y, y ∈ keys → is_Some (t !! y)) →
  ∃ S : gset nat,
    for_each (fun key (connections : gset nat) =>
                l ← table_getitem t key;
                Ok (connections ∪ list_to_set l)) keys acc = Ok S
    ∧ ∀ x, x ∈ S ↔ x ∈ acc ∨ ∃ y, y ∈ keys ∧ bonded t y x.
Proof.
  revert acc. induction keys as [|key keys IH]; intros acc Hdom.
  - exists acc. split; [done|]. intros x. split; [by left|].
    intros [?|(y & Hy & _)]; [done|]. by apply elem_of_nil in Hy.
  - destruct (Hdom key) as [l Hl]; [by left|].
    destruct (IH (acc ∪ list_to_set l)) as (S & HS & Hiff).
    { intros y Hy. apply Hdom. by right. }
    exists S. split.
    { simpl. unfold table_getitem. rewrite Hl. exact HS. }
    intros x. rewrite Hiff, elem_of_union, elem_of_list_to_set.
    split.
    + intros [[?|Hx]|(y & Hy & Hb)]; [by left| |].
      * right. exists key. split; [by left|]. by exists l.
      * right. exists y. split; [by right|done].
    + intros [?|(y & Hy & Hb)]; [by left; left|].
      apply elem_of_cons in Hy as [->|Hy].
      * destruct Hb as (l' & Hl' & Hb). left; right. congruence.
      * right. by exists y.
Qed.

Lemma gather_spec t keys :
  (∀ y, y ∈ keys → is_Some (t !! y)) →
  ∃ S : gset nat,
    gather t keys = Ok S ∧ ∀ x, x ∈ S ↔ ∃ y, y ∈ keys ∧ bonded t y x.
Proof.
  intros Hdom. destruct (gather_from t keys ∅ Hdom) as (S & HS & Hiff).
  exists S. split; [done|]. intros x. rewrite Hiff.
  split; [intros [H%not_elem_of_empty|H]; done | by right].
Qed.

Lemma label_atoms_lookup i l (m : gmap nat nat) x :
  label_atoms i l m !! x = if decide (x ∈ l) then Some i else m !! x.
Proof.
  unfold label_atoms. revert m. induction l as [|a l IH]; intros m.
  - destruct (decide (x ∈ [])) as [H|_]; [by apply elem_of_nil in H|done].
  - cbn [foldl]. rewrite IH.
    destruct (decide (x ∈ l)) as [Hl|Hl], (decide (x ∈ a :: l)) as [Hal|Hal];
      try done.
    + destruct Hal. by right.
    + apply elem_of_cons in Hal as [->|?]; [|done]. apply lookup_insert_eq.
    + apply lookup_insert_ne. intros ->. apply Hal. by left.
Qed.

Lemma bfs_inv_init t h : bfs_inv t h 0 (bfs_init h).
Proof.
  split; simpl.
  - intros x. rewrite elem_of_singleton. split.
    + intros ->. exists 0. split; [done|constructor].
    + intros (m & Hm & Hw). assert (m = 0) as -> by lia. by inversion Hw.
  - intros x ->%elem_of_singleton. exists 0.
    split; [done|]. by apply bond_distance_O.
  - intros x. by rewrite elem_of_singleton, bond_distance_O.
  - intros x n. rewrite lookup_singleton. case_decide; simplify_eq.
    + split; [intros [= <-]; by left|]. intros [[_ ->]|[? _]]; [done|lia].
    + split; [done|]. intros [[-> _]|[? _]]; [done|lia].
Qed.

Lemma bfs_step_inv t h k s :
  table_closed t → is_Some (t !! h) → bfs_inv t h k s →
  ∃ s', bfs_step t (k + 2) s = Ok s' ∧ bfs_inv t h (S k) s'.
Proof.
  intros Hc Hh [Hused Hdist Hnew Hnum].
  destruct (gather_spec t (elements (new_connections s)))
    as (C & HC & HCiff).
  { intros y Hy%elem_of_elements%Hnew. destruct Hy as [Hw _].
    by eapply walk_dom. }
  assert (Hnew' : ∀ x, x ∈ C ∖ used_connections s
                       ↔ bond_distance t h x (S k)).
  { intros x. rewrite elem_of_difference, HCiff, Hused. split.
    - intros [(y & Hy%elem_of_elements%Hnew & Hb) Hnot].
      destruct Hy as [Hw _]. split; [by econstructor|].
      intros m Hm Hwm. apply Hnot. exists m. split; [lia|done].
    - intros [Hw Hmin]. split.
      + inversion Hw as [|n y b Hwy Hb]; subst.
        exists y. split; [|done]. apply elem_of_elements, Hnew.
        split; [done|]. intros m Hm Hwm.
        apply (Hmin (S m)); [lia|]. by econstructor.
      + intros (m & Hm & Hwm). apply (Hmin m); [lia|done]. }
  eexists. split.
  { unfold bfs_step. rewrite HC. reflexivity. }
  split; simpl.
  - intros x. rewrite elem_of_union, Hused, HCiff. split.
    + intros [(m & Hm & Hw)|(y & Hy%elem_of_elements%Hnew & Hb)].
      * exists m. split; [lia|done].
      * destruct Hy as [Hw _]. exists (S k). split; [done|].
        by econstructor.
    + intros (m & Hm & Hw). destruct (decide (m ≤ k)) as [?|?].
      * left. by exists m.
      * assert (m = S k) as -> by lia.
        inversion Hw as [|k' y b' Hwy Hb]; subst.
        destruct (Hdist y) as (d & Hd & Hyd).
        { apply Hused. by exists k. }
        destruct (decide (d = k)) as [->|?].
        -- right. exists y. split; [|done].
           by apply elem_of_elements, Hnew.
        -- left. exists (S d). split; [lia|].
           destruct Hyd as [Hwd _]. by econstructor.
  - intros x Hx. destruct (decide (x ∈ used_connections s)) as [Hu|Hu].
    + destruct (Hdist x Hu) as (d & Hd & Hxd). exists d. split; [lia|done].
    + exists (S k). split; [done|]. apply Hnew', elem_of_difference.
      by apply elem_of_union in Hx as [?|?].
  - exact Hnew'.
  - intros x n. rewrite label_atoms_lookup.
    destruct (decide (x ∈ elements (C ∖ used_connections s)))
      as [Hin|Hin]; rewrite elem_of_elements, Hnew' in Hin.
    + split.
      * intros [= <-]. right. split; [lia|].
        by replace (k + 2 - 1) with (S k) by lia.
      * intros [[-> ->]|[Hn Hd]].
        -- apply bond_distance_self in Hin. lia.
        -- pose proof (bond_distance_unique _ _ _ _ _ Hin Hd).
           f_equal. lia.
    + rewrite Hnum. split.
      * intros [?|[Hn Hd]]; [by left|]. right. split; [lia|done].
      * intros [?|[Hn Hd]]; [by left|].
        destruct (decide (n = k + 2)) as [->|?].
        -- destruct Hin. by replace (S k) with (k + 2 - 1) by lia.
        -- right. split; [lia|done].
Qed.

Lemma bfs_loop_inv t h :
  table_closed t → is_Some (t !! h) →
  ∃ s, for_each (bfs_step t) (seq 2 4) (bfs_init h) = Ok s
       ∧ bfs_inv t h 4 s.
Proof.
  intros Hc Hh.
  destruct (bfs_step_inv t h 0 _ Hc Hh (bfs_inv_init t h))
    as (s1 & E1 & I1).
  destruct (bfs_step_inv t h 1 _ Hc Hh I1) as (s2 & E2 & I2).
  destruct (bfs_step_inv t h 2 _ Hc Hh I2) as (s3 & E3 & I3).
  destruct (bfs_step_inv t h 3 _ Hc Hh I3) as (s4 & E4 & I4).
  exists s4. split; [|done].
  change (seq 2 4) with [0 + 2; 1 + 2; 2 + 2; 3 + 2].
  rewrite for_each_cons, E1, bind_Ok, for_each_cons, E2, bind_Ok.
  by rewrite for_each_cons, E3, bind_Ok, for_each_cons, E4, bind_Ok.
Qed.

Lemma labelled_5_iff t h x s :
  bfs_inv t h 4 s →
  match atoms_numbers s !! x with Some n => n =? 5 | None => false end
  = true ↔ bond_distance t h x 4.
Proof.
  intros I. split.
  - destruct (atoms_numbers s !! x) as [n|] eqn:E; [|done].
    intros ->%Nat.eqb_eq. apply (inv_numbers _ _ _ _ I) in E.
    destruct E as [[_ ?]|[_ ?]]; done.
  - intros Hd.
    assert (atoms_numbers s !! x = Some 5) as ->; [|done].
    apply (inv_numbers _ _ _ _ I). right. split; [lia|done].
Qed.

(** C3 (as amended): on the chain H-A1-A2-A3-A4-X the test holds for
    (H, A4) and fails for (H, X) and for (H, A3); in general, on a table
    whose lists only mention atoms with an entry, the test returns
    normally and holds exactly when one atom is a hydrogen, the other is
    not, and the shortest bond path from the hydrogen to the other atom
    has four bonds, which is the atom the loop labels 5 (the neighbours
    of the hydrogen being labelled 2). *)
Theorem check_if_1_5_is_four_bonds :
  (check_if_1_5_interaction 0 4 chain_hd_sel chain_table = Ok true
   ∧ check_if_1_5_interaction 0 5 chain_hd_sel chain_table = Ok false
   ∧ check_if_1_5_interaction 0 3 chain_hd_sel chain_table = Ok false)
  ∧ ∀ (i j : nat) (hd_sel : list bool) (t : conn_table) (hi hj : bool),
      hd_sel !! i = Some hi → hd_sel !! j = Some hj →
      table_closed t → is_Some (t !! i) → is_Some (t !! j) →
      ∃ b, check_if_1_5_interaction i j hd_sel t = Ok b
           ∧ (b = true ↔
              hi ≠ hj
              ∧ bond_distance t (if hi then i else j)
                                (if hi then j else i) 4).
Proof.
  split; [by vm_compute|].
  intros i j hd_sel t hi hj Hi Hj Hc Hti Htj.
  unfold check_if_1_5_interaction.
  rewrite (getitem_Some _ _ _ Hi), (getitem_Some _ _ _ Hj), !bind_Ok.
  destruct hi, hj; cbn [py_xor orb andb negb].
  - exists false. split; [done|]. split; [done|]. by intros [? _].
  - destruct (bfs_loop_inv t i Hc Hti) as (s & -> & I). rewrite bind_Ok.
    eexists. split; [done|]. rewrite (labelled_5_iff _ _ _ _ I).
    split; [by split|by intros [_ ?]].
  - destruct (bfs_loop_inv t j Hc Htj) as (s & -> & I). rewrite bind_Ok.
    eexists. split; [done|]. rewrite (labelled_5_iff _ _ _ _ I).
    split; [by split|by intros [_ ?]].
  - exists false. split; [done|]. split; [done|]. by intros [? _].
Qed.

(** ** Dictionaries *)

Section dict_facts.
Context {K V : Type} `{EqDecision K}.
Implicit Types (d : list (K * V)) (k : K) (v : V).

Lemma get_set d k v k' :
  Dict.get (Dict.set d k v) k'
  = if decide (k' = k) then Some v else Dict.get d k'.
Proof.
  induction d as [|[k0 v0] d IH]; simpl.
  - by destruct (decide (k' = k)).
  - destruct (decide (k = k0)) as [->|Hne]; simpl.
    + by destruct (decide (k' = k0)).
    + destruct (decide (k' = k0)) as [->|?].
      * by rewrite decide_False by done.
      * exact IH.
Qed.

Lemma get_set_eq d k v : Dict.get (Dict.set d k v) k = Some v.
Proof. rewrite get_set. by rewrite decide_True. Qed.

Lemma mem_get d k : Dict.mem d k = true ↔ is_Some (Dict.get d k).
Proof.
  unfold Dict.mem. by destruct (Dict.get d k).
Qed.

Lemma get_keys d k : is_Some (Dict.get d k) ↔ k ∈ Dict.keys d.
Proof.
  unfold Dict.keys. induction d as [|[k0 v0] d IH]; simpl.
  - split; [by intros [? ?]|by intros ?%elem_of_nil].
  - rewrite elem_of_cons. destruct (decide (k = k0)) as [->|?].
    + split; [by left|by eexists].
    + rewrite IH. naive_solver.
Qed.

Lemma keys_set d k v :
  Dict.keys (Dict.set d k v)
  = if Dict.mem d k then Dict.keys d else Dict.keys d ++ [k].
Proof.
  unfold Dict.keys, Dict.mem.
  induction d as [|[k0 v0] d IH]; [done|].
  cbn [Dict.set Dict.get].
  destruct (decide (k = k0)) as [->|?]; [done|].
  rewrite !fmap_cons, IH. by destruct (Dict.get d k).
Qed.

Lemma elem_of_keys_set d k v k' :
  k' ∈ Dict.keys (Dict.set d k v) ↔ k' = k ∨ k' ∈ Dict.keys d.
Proof.
  rewrite <- !get_keys, get_set.
  destruct (decide (k' = k)); [|naive_solver].
  split; [by left|by eexists].
Qed.

Lemma NoDup_keys_set d k v :
  NoDup (Dict.keys d) → NoDup (Dict.keys (Dict.set d k v)).
Proof.
  intros Hd. rewrite keys_set.
  destruct (Dict.mem d k) eqn:E; [done|].
  apply NoDup_app. split; [done|]. split; [|apply NoDup_singleton].
  intros x Hx ->%list_elem_of_singleton.
  apply get_keys, mem_get in Hx. congruence.
Qed.

Lemma elem_of_set d k v k' v' :
  (k', v') ∈ Dict.set d k v → (k' = k ∧ v' = v) ∨ (k', v') ∈ d.
Proof.
  induction d as [|[k0 v0] d IH]; simpl.
  - intros ?%list_elem_of_singleton. left. by simplify_eq.
  - destruct (decide (k = k0)) as [->|?].
    + intros [?|?]%elem_of_cons; [left; by simplify_eq|].
      right. by right.
    + intros [?|?]%elem_of_cons; [right; simplify_eq; by left|].
      destruct IH as [?|?]; [done|by left|]. right. by right.
Qed.

Lemma keys_del_sub d k k' :
  k' ∈ Dict.keys (Dict.del d k) → k' ∈ Dict.keys d.
Proof.
  unfold Dict.keys. induction d as [|[k0 v0] d IH]; simpl; [done|].
  destruct (decide (k = k0)) as [->|?]; simpl.
  - by right.
  - intros [->|?]%elem_of_cons; [by left|]. right. by apply IH.
Qed.

Lemma NoDup_keys_del d k :
  NoDup (Dict.keys d) → NoDup (Dict.keys (Dict.del d k)).
Proof.
  unfold Dict.keys. induction d as [|[k0 v0] d IH]; simpl; [done|].
  intros [Hk0 Hd]%NoDup_cons. destruct (decide (k = k0)); [done|].
  simpl. apply NoDup_cons. split; [|by apply IH].
  intros Hin. apply Hk0. by apply keys_del_sub in Hin.
Qed.

Lemma elem_of_keys_del d k k' :
  NoDup (Dict.keys d) →
  k' ∈ Dict.keys (Dict.del d k) ↔ k' ≠ k ∧ k' ∈ Dict.keys d.
Proof.
  unfold Dict.keys. induction d as [|[k0 v0] d IH]; simpl.
  - intros _. split; [by intros ?%elem_of_nil|by intros [_ ?%elem_of_nil]].
  - intros [Hk0 Hd]%NoDup_cons.
    destruct (decide (k = k0)) as [->|Hne]; simpl.
    + rewrite elem_of_cons. split.
      * intros Hin. split; [by intros ->|by right].
      * by intros [? [?|?]].
    + rewrite !elem_of_cons, (IH Hd). naive_solver.
Qed.

End dict_facts.

(** ** The clash test of one candidate pair *)

Lemma get_ensure_list d k k' :
  is_Some (Dict.get (ensure_list d k) k')
  ↔ k' = k ∨ is_Some (Dict.get d k').
Proof.
  unfold ensure_list. destruct (Dict.mem d k) eqn:E.
  - apply mem_get in E. split; [by right|]. by intros [->|?].
  - rewrite get_set. destruct (decide (k' = k)); [|naive_solver].
    split; [by left|by eexists].
Qed.

Lemma append_to_ok d k x :
  is_Some (Dict.get d k) →
  ∃ l, Dict.get d k = Some l ∧ append_to d k x = Ok (Dict.set d k (l ++ [x])).
Proof.
  intros [l Hl]. exists l. split; [done|].
  unfold append_to, Dict.getitem. by rewrite Hl.
Qed.

(** [_is_clash] returns the negation of the 1-5 test and touches the
    multi-clash index only. *)
Lemma _is_clash_spec mdl st i j fsc0 md b :
  check_if_1_5_interaction i j (m_hd_sel mdl) fsc0 = Ok b →
  ∃ st', _is_clash mdl st i j fsc0 md = Ok (negb b, st')
         ∧ rs_clashes st' = rs_clashes st
         ∧ rs_hbonds_dict st' = rs_hbonds_dict st
         ∧ (b = true → st' = st).
Proof.
  intros Hb. unfold _is_clash. rewrite Hb, bind_Ok.
  destruct b; simpl; [by eexists|].
  set (d2 := ensure_list (ensure_list _ i) j).
  destruct (append_to_ok d2 i j) as (l & Hl & ->).
  { apply get_ensure_list. right. apply get_ensure_list. by left. }
  rewrite bind_Ok.
  destruct (append_to_ok (Dict.set d2 i (l ++ [j])) j i) as (l' & Hl' & ->).
  { rewrite get_set. destruct (decide (j = i)); [by eexists|].
    apply get_ensure_list. by left. }
  rewrite bind_Ok. by eexists.
Qed.

Lemma _is_clash_raise mdl st i j fsc0 md e :
  check_if_1_5_interaction i j (m_hd_sel mdl) fsc0 = Raise e →
  _is_clash mdl st i j fsc0 md = Raise e.
Proof. intros Hb. unfold _is_clash. by rewrite Hb. Qed.

(** The four ways the clash branch can end. *)
Lemma clash_branch_cases mdl fsc0 item st :
  let delta := F64.sub (p_model_distance item) (p_vdw_sum item) in
  let chk := check_if_1_5_interaction (p_i_seq item) (p_j_seq item)
               (m_hd_sel mdl) fsc0 in
  (F64.ltb delta clash_cutoff = false
   ∧ clash_branch mdl true fsc0 item st = Ok (false, st))
  ∨ (F64.ltb delta clash_cutoff = true ∧ chk = Ok true
     ∧ clash_branch mdl true fsc0 item st = Ok (false, st))
  ∨ (F64.ltb delta clash_cutoff = true ∧ chk = Ok false
     ∧ ∃ mult,
         clash_branch mdl true fsc0 item st
         = Ok (true,
               RunState
                 (add_clash (rs_clashes st)
                    (sorted_pair (p_i_seq item) (p_j_seq item))
                    (ClashInfo (p_model_distance item) (p_vdw_sum item)
                       (F64.abs delta) (p_symop_str item) (p_symop item)))
                 (rs_hbonds_dict st) mult))
  ∨ (F64.ltb delta clash_cutoff = true
     ∧ ∃ e, chk = Raise e
            ∧ clash_branch mdl true fsc0 item st = Raise e).
Proof.
  intros delta chk. unfold clash_branch. fold delta.
  destruct (F64.ltb delta clash_cutoff); [|by left].
  right. destruct chk as [b|e] eqn:Hchk.
  - destruct (_is_clash_spec mdl st _ _ fsc0 (p_model_distance item) b Hchk)
      as (st1 & -> & Hcl & Hhb & Hsame).
    rewrite bind_Ok. destruct b; cbn [negb].
    + left. by rewrite Hsame.
    + right; left. split; [done|]. split; [done|].
      exists (rs_mult_clash_dict st1). by rewrite Hcl, Hhb.
  - right; right. split; [done|]. exists e. split; [done|].
    by rewrite (_is_clash_raise mdl st _ _ fsc0 _ e Hchk).
Qed.



(** ** Inversion of results *)

Lemma bind_Ok_inv {A B} (m : result A) (k : A → result B) b :
  m ≫= k = Ok b → ∃ a, m = Ok a ∧ k a = Ok b.
Proof. destruct m as [a|e]; [by exists a|done]. Qed.

Tactic Notation "bind_inv" hyp(H) "as" simple_intropattern(p) :=
  let E := fresh "E" in
  apply bind_Ok_inv in H as (p & E & H); cbv beta in H.

Lemma for_each_inv {A S} (P : S → Prop) (body : A → S → result S) l s s' :
  (∀ a s s', a ∈ l → P s → body a s = Ok s' → P s') →
  P s → for_each body l s = Ok s' → P s'.
Proof.
  revert s. induction l as [|a l IH]; intros s Hbody Hs Hrun.
  - by injection Hrun as <-.
  - rewrite for_each_cons in Hrun. bind_inv Hrun as s1.
    apply (IH s1); [|by eapply Hbody; [left|..]|done].
    intros a1 s2 s2' Hin. apply Hbody. by right.
Qed.

Lemma collect_elem {A B} (body : A → result (list B)) l r a :
  collect body l = Ok r → a ∈ l →
  ∃ bs, body a = Ok bs ∧ ∀ b, b ∈ bs → b ∈ r.
Proof.
  revert r. induction l as [|a0 l IH]; intros r Hr Hin.
  - by apply elem_of_nil in Hin.
  - simpl in Hr. bind_inv Hr as bs0. bind_inv Hr as r0. injection Hr as <-.
    apply elem_of_cons in Hin as [->|Hin].
    + exists bs0. split; [done|]. intros b Hb. apply elem_of_app. by left.
    + destruct (IH r0 E0 Hin) as (bs & Hbs & Hsub).
      exists bs. split; [done|]. intros b Hb. apply elem_of_app.
      right. by apply Hsub.
Qed.

Lemma collect_origin {A B} (body : A → result (list B)) l r b :
  collect body l = Ok r → b ∈ r →
  ∃ a bs, a ∈ l ∧ body a = Ok bs ∧ b ∈ bs.
Proof.
  revert r. induction l as [|a0 l IH]; intros r Hr Hin.
  - injection Hr as <-. by apply elem_of_nil in Hin.
  - simpl in Hr. bind_inv Hr as bs0. bind_inv Hr as r0. injection Hr as <-.
    apply elem_of_app in Hin as [Hin|Hin].
    + exists a0, bs0. split; [by left|done].
    + destruct (IH r0 E0 Hin) as (a' & bs & Ha' & Hbs & Hb).
      exists a', bs. split; [by right|done].
Qed.

(** ** The hydrogen-bond test of one candidate pair *)

(** What [find_donor] measures and records for the candidate [atom_x]. *)
Lemma find_donor_cons L mdl st item atom_h atom_a iseq_x rest hx :
  m_atoms mdl !! iseq_x = Some hx →
  let atom_x := the_atom hx in
  let h_a := Col.length (Col.vsub (xyz atom_h) (xyz atom_a)) in
  let x_a := Col.length (Col.vsub (xyz atom_x) (xyz atom_a)) in
  let ang := degrees L (angle L (Col.vsub (xyz atom_h) (xyz atom_a))
                              (Col.vsub (xyz atom_h) (xyz atom_x))) in
  find_donor L mdl st item atom_h atom_a (iseq_x :: rest)
  = if negb (approx_equal h_a (p_model_distance item) (F64.dec 1 1))
    then Raise AssertionError
    else if hbond_thresholds h_a x_a ang
    then Ok (true,
             RunState (rs_clashes st)
               (Dict.set (rs_hbonds_dict st)
                  (i_seq atom_x, i_seq atom_h, i_seq atom_a)
                  (HbondInfo h_a x_a ang (p_symop_str item) (p_symop item)
                     (p_vdw_sum item)))
               (rs_mult_clash_dict st))
    else find_donor L mdl st item atom_h atom_a rest.
Proof.
  intros Hx. cbn [find_donor]. by rewrite (getitem_Some _ _ _ Hx), bind_Ok.
Qed.

(** The search stops at the first candidate that passes; candidates
    before it failed the thresholds, and exactly its record is stored. *)
Lemma find_donor_first L mdl st item atom_h atom_a xs b st' :
  find_donor L mdl st item atom_h atom_a xs = Ok (b, st') →
  (b = false ∧ st' = st)
  ∨ (b = true
     ∧ ∃ pre iseq_x post hx,
         xs = pre ++ iseq_x :: post
         ∧ m_atoms mdl !! iseq_x = Some hx
         ∧ (∀ x' hx', x' ∈ pre → m_atoms mdl !! x' = Some hx' →
              hbond_thresholds
                (Col.length (Col.vsub (xyz atom_h) (xyz atom_a)))
                (Col.length (Col.vsub (xyz (the_atom hx')) (xyz atom_a)))
                (degrees L (angle L (Col.vsub (xyz atom_h) (xyz atom_a))
                              (Col.vsub (xyz atom_h) (xyz (the_atom hx')))))
              = false)
         ∧ ∃ r,
             hbond_thresholds (hb_h_a_distance r) (hb_x_a_distance r)
                              (hb_x_h_a_angle r) = true
             ∧ hb_h_a_distance r
               = Col.length (Col.vsub (xyz atom_h) (xyz atom_a))
             ∧ hb_x_a_distance r
               = Col.length (Col.vsub (xyz (the_atom hx)) (xyz atom_a))
             ∧ st' = RunState (rs_clashes st)
                       (Dict.set (rs_hbonds_dict st)
                          (i_seq (the_atom hx), i_seq atom_h, i_seq atom_a)
                          r)
                       (rs_mult_clash_dict st)).
Proof.
  induction xs as [|iseq_x rest IH].
  - intros [= <- <-]. by left.
  - destruct (m_atoms mdl !! iseq_x) as [hx|] eqn:Hx.
    2:{ cbn [find_donor]. unfold getitem. by rewrite Hx. }
    rewrite (find_donor_cons _ _ _ _ _ _ _ _ hx Hx). cbv zeta.
    destruct (negb _); [done|].
    destruct (hbond_thresholds _ _ _) eqn:Hthr.
    + intros [= <- <-]. right. split; [done|].
      exists [], iseq_x, rest, hx. split; [done|]. split; [done|].
      split; [by intros ? ? ?%elem_of_nil|].
      eexists (HbondInfo _ _ _ _ _ _). by cbn.
    + intros Hrest. destruct (IH Hrest) as [?|(-> & Hfound)]; [by left|].
      destruct Hfound as (pre & x & post & hx0 & -> & Hx0 & Hpre & Hr).
      right. split; [done|].
      exists (iseq_x :: pre), x, post, hx0. split; [done|].
      split; [done|]. split; [|done].
      intros x' hx' [->|Hin]%elem_of_cons Hx'.
      * by simplify_eq.
      * by eapply Hpre.
Qed.

(** [_is_hbond] either changes nothing or is what [find_donor] did for
    some hydrogen and acceptor. *)
Lemma _is_hbond_inv L mdl st item uc fsc0 b st' :
  _is_hbond L mdl st item uc fsc0 = Ok (b, st') →
  (b = false ∧ st' = st)
  ∨ ∃ atom_h atom_a xs,
      m_hd_sel mdl !! i_seq atom_h = Some true
      ∧ fsc0 !! i_seq atom_h = Some xs
      ∧ find_donor L mdl st item atom_h atom_a xs = Ok (b, st').
Proof.
  unfold _is_hbond. intros H.
  bind_inv H as hatom1. bind_inv H as hatom2.
  bind_inv H as water_i. bind_inv H as water.
  destruct water; [injection H as <- <-; by left|].
  destruct (decide _); [injection H as <- <-; by left|].
  bind_inv H as [atom1 atom2].
  bind_inv H as hd1. bind_inv H as [atom_h atom_a].
  destruct (decide _); [|injection H as <- <-; by left].
  bind_inv H as xs. right. exists atom_h, atom_a, xs.
  split; [|split; [|done]].
  - destruct hd1.
    + injection E5 as <- <-. by apply getitem_Ok_inv.
    + bind_inv E5 as hd2. destruct hd2; [|done]. injection E5 as <- <-.
      by apply getitem_Ok_inv.
  - by apply table_getitem_Ok_inv.
Qed.

Lemma hbond_branch_inv L mdl fh uc fsc0 item st b st' :
  hbond_branch L mdl fh uc fsc0 item st = Ok (b, st') →
  (b = false ∧ st' = st)
  ∨ ∃ atom_h atom_a xs,
      m_hd_sel mdl !! i_seq atom_h = Some true
      ∧ fsc0 !! i_seq atom_h = Some xs
      ∧ find_donor L mdl st item atom_h atom_a xs = Ok (b, st').
Proof.
  unfold hbond_branch. intros H.
  destruct fh; [|injection H as <- <-; by left].
  destruct (F64.ltb _ _); [|injection H as <- <-; by left].
  bind_inv H as hd_i. bind_inv H as hd_j.
  destruct (_ =? 1); [|injection H as <- <-; by left].
  by apply _is_hbond_inv in H.
Qed.

(** ** The loop over the candidate pairs *)

Lemma clash_branch_inv mdl fc fsc0 item st b st' :
  clash_branch mdl fc fsc0 item st = Ok (b, st') →
  rs_hbonds_dict st' = rs_hbonds_dict st
  ∧ (rs_clashes st' = rs_clashes st
     ∨ ∃ info, rs_clashes st'
               = add_clash (rs_clashes st)
                   (sorted_pair (p_i_seq item) (p_j_seq item)) info).
Proof.
  destruct fc; [|intros [= <- <-]; split; [done|by left]].
  destruct (clash_branch_cases mdl fsc0 item st)
    as [[_ ->]|[(_ & _ & ->)|[(_ & _ & mult & ->)|(_ & e & _ & ->)]]];
    intros [= <- <-]; (split; [done|]); [by left|by left|].
  right. by eexists.
Qed.

Lemma loop_body_inv L mdl fc fh uc fsc0 item st st' :
  loop_body L mdl fc fh uc fsc0 item st = Ok st' →
  ∃ b1 st1 b2,
    hbond_branch L mdl fh uc fsc0 item st = Ok (b1, st1)
    ∧ clash_branch mdl fc fsc0 item st1 = Ok (b2, st').
Proof.
  unfold loop_body. intros H.
  bind_inv H as [b1 st1]. bind_inv H as [b2 st2]. injection H as <-.
  by exists b1, st1, b2.
Qed.

Lemma hbond_branch_effect L mdl fh uc fsc0 item st b st' :
  hbond_branch L mdl fh uc fsc0 item st = Ok (b, st') →
  rs_clashes st' = rs_clashes st
  ∧ (rs_hbonds_dict st' = rs_hbonds_dict st
     ∨ ∃ key r,
         hbond_thresholds (hb_h_a_distance r) (hb_x_a_distance r)
                          (hb_x_h_a_angle r) = true
         ∧ rs_hbonds_dict st' = Dict.set (rs_hbonds_dict st) key r).
Proof.
  intros [[_ ->]|(atom_h & atom_a & xs & _ & _ & H)]%hbond_branch_inv.
  { split; [done|by left]. }
  apply find_donor_first in H
    as [[_ ->]|(_ & pre & x & post & hx & _ & _ & _ & r & Hr & _ & _ & ->)].
  { split; [done|by left]. }
  split; [done|]. right. by eexists _, r.
Qed.

Lemma sorted_pair_le i j : (sorted_pair i j).1 ≤ (sorted_pair i j).2.
Proof.
  unfold sorted_pair. destruct (j <? i) eqn:E; simpl.
  - apply Nat.ltb_lt in E. lia.
  - apply Nat.ltb_ge in E. lia.
Qed.

Lemma sorted_pair_comm i j : sorted_pair i j = sorted_pair j i.
Proof.
  unfold sorted_pair.
  destruct (j <? i) eqn:E1, (i <? j) eqn:E2; try done.
  - apply Nat.ltb_lt in E1, E2. lia.
  - apply Nat.ltb_ge in E1, E2. f_equal; lia.
Qed.

Lemma clashes_init_empty mdl :
  clashes_init (Some []) (Some mdl) = Ok (Clashes [] mdl).
Proof. reflexivity. Qed.

(** After the loop: unique keys, each the sorted pair of a candidate,
    and hydrogen-bond records within the thresholds. *)
Lemma classify_pairs_inv L mdl fc fh l st :
  classify_pairs L mdl fc fh l = Ok st →
  NoDup (Dict.keys (_clashes_dict (rs_clashes st)))
  ∧ keys_from l (Dict.keys (_clashes_dict (rs_clashes st)))
  ∧ hbonds_within_thresholds (rs_hbonds_dict st).
Proof.
  unfold classify_pairs. rewrite clashes_init_empty, bind_Ok.
  apply (for_each_inv
           (λ s, NoDup (Dict.keys (_clashes_dict (rs_clashes s)))
                 ∧ keys_from l (Dict.keys (_clashes_dict (rs_clashes s)))
                 ∧ hbonds_within_thresholds (rs_hbonds_dict s))).
  - intros item s s' Hin (Hnd & Hfrom & Hhb) Hbody.
    apply loop_body_inv in Hbody as (b1 & s1 & b2 & Hh & Hc).
    apply hbond_branch_effect in Hh as [Hcl1 Hhb1].
    apply clash_branch_inv in Hc as [Hhb2 Hcl2].
    rewrite Hhb2. rewrite Hcl1 in Hcl2. split; [|split].
    + destruct Hcl2 as [->|[info ->]]; [done|].
      by apply NoDup_keys_set.
    + destruct Hcl2 as [->|[info ->]]; [done|].
      intros k [->|Hk]%elem_of_keys_set; [by exists item|by apply Hfrom].
    + destruct Hhb1 as [->|(key & r & Hr & ->)]; [done|].
      intros key' r' [[-> ->]|Hin']%elem_of_set; [done|by eapply Hhb].
  - split; [apply NoDup_nil_2|]. split.
    + by intros k ?%elem_of_nil.
    + by intros key r ?%elem_of_nil.
Qed.

(** ** Removing marked clashes, sorting *)

Lemma remove_marked_keys cl marked k :
  NoDup (Dict.keys (_clashes_dict cl)) →
  NoDup (Dict.keys (_clashes_dict (remove_marked cl marked)))
  ∧ (k ∈ Dict.keys (_clashes_dict (remove_marked cl marked))
     ↔ k ∈ Dict.keys (_clashes_dict cl) ∧ k ∉ marked).
Proof.
  unfold remove_marked. revert cl.
  induction marked as [|m marked IH]; intros cl Hnd.
  - split; [done|]. split; [intros ?; split; [done|by intros ?%elem_of_nil]
                           |by intros [? _]].
  - cbn [foldl].
    set (cl1 := if iseq_tuple_is_clashing cl m then remove_clash cl m else cl).
    assert (Hnd1 : NoDup (Dict.keys (_clashes_dict cl1))
                   ∧ (k ∈ Dict.keys (_clashes_dict cl1)
                      ↔ k ≠ m ∧ k ∈ Dict.keys (_clashes_dict cl))).
    { subst cl1. unfold iseq_tuple_is_clashing, remove_clash.
      destruct (Dict.mem (_clashes_dict cl) m) eqn:E; simpl.
      - split; [by apply NoDup_keys_del|by apply elem_of_keys_del].
      - split; [done|]. split; [|by intros [_ ?]].
        intros Hk. split; [|done]. intros ->.
        apply get_keys, mem_get in Hk. congruence. }
    destruct Hnd1 as [Hnd1 Hk1].
    destruct (IH cl1 Hnd1) as [Hnd2 Hk2]. split; [done|].
    rewrite Hk2, Hk1, elem_of_cons. tauto.
Qed.

Lemma insert_by_key_perm {A} (key : A → float) x l :
  insert_by_key key x l ≡ₚ x :: l.
Proof.
  induction l as [|y l IH]; simpl; [done|].
  destruct (F64.ltb _ _); [|done].
  by rewrite IH, Permutation_swap.
Qed.

Lemma sorted_by_key_perm {A} (key : A → float) l :
  sorted_by_key key l ≡ₚ l.
Proof.
  unfold sorted_by_key. induction l as [|x l IH]; simpl; [done|].
  by rewrite insert_by_key_perm, IH.
Qed.

Lemma sort_overlap_perm cl cl' :
  sort_clashes cl "overlap" = Ok cl' →
  _clashes_dict cl' ≡ₚ _clashes_dict cl.
Proof.
  intros [= <-]. apply sorted_by_key_perm.
Qed.

(** What a run that returns has gone through. *)
Lemma run_inv L self fc fh self' :
  _process_nonbonded_proxies L self fc fh = Ok self' →
  ∃ nonbonded_list n st marked cl,
    m_get_sorted (model self) = Some (nonbonded_list, n)
    ∧ classify_pairs L (model self) fc fh nonbonded_list = Ok st
    ∧ clashes_to_be_removed st (m_sites_cart (model self))
        (m_fsc0 (model self)) = Ok marked
    ∧ sort_clashes (remove_marked (rs_clashes st) marked) "overlap" = Ok cl
    ∧ self' = Manager (model self) (Some cl)
                (Some (Hbonds (rs_hbonds_dict st) (model self))).
Proof.
  unfold _process_nonbonded_proxies. intros H.
  destruct (m_get_sorted (model self)) as [[l n]|]; [|done].
  bind_inv H as st. unfold _process_clashes in H.
  bind_inv H as st2. bind_inv E0 as marked. injection E0 as <-.
  bind_inv H as cl. cbn in H. injection H as <-.
  by exists l, n, st, marked, cl.
Qed.

(** ** Hydrogen-bond records *)

(** C6: every record in the hydrogen-bond registry of a finished run has
    its H...A distance in [1.2, 2.2], its X...A distance in [2.2, 3.2]
    and its X-H...A angle at least 110 degrees; a candidate X that
    violates one of the thresholds stores nothing (the search goes on as
    if it were absent, unless the distance assertion stops the run); the
    triple 2.0 / 2.8 / 150 passes, the same with angle 100 or with
    H...A = 2.3 does not. *)
Theorem hbond_records_within_thresholds :
  (∀ (L : libm) (self : manager) (fc fh : bool) (self' : manager)
     (hb : hbonds) (key : hbond_key) (r : hbond_info),
     _process_nonbonded_proxies L self fc fh = Ok self' →
     _hbonds self' = Some hb → (key, r) ∈ _hbonds_dict hb →
     F64.leb (F64.dec 12 1) (hb_h_a_distance r) = true
     ∧ F64.leb (hb_h_a_distance r) (F64.dec 22 1) = true
     ∧ F64.leb (F64.dec 22 1) (hb_x_a_distance r) = true
     ∧ F64.leb (hb_x_a_distance r) (F64.dec 32 1) = true
     ∧ F64.leb (F64.of_Z 110) (hb_x_h_a_angle r) = true)
  ∧ (∀ (L : libm) (mdl : model_t) (st : run_state) (item : proxy)
       (atom_h atom_a : atom) (iseq_x : nat) (rest : list nat)
       (hx : hier_atom),
       m_atoms mdl !! iseq_x = Some hx →
       hbond_thresholds
         (Col.length (Col.vsub (xyz atom_h) (xyz atom_a)))
         (Col.length (Col.vsub (xyz (the_atom hx)) (xyz atom_a)))
         (degrees L (angle L (Col.vsub (xyz atom_h) (xyz atom_a))
                       (Col.vsub (xyz atom_h) (xyz (the_atom hx)))))
       = false →
       find_donor L mdl st item atom_h atom_a (iseq_x :: rest)
       = Raise AssertionError
       ∨ find_donor L mdl st item atom_h atom_a (iseq_x :: rest)
         = find_donor L mdl st item atom_h atom_a rest)
  ∧ hbond_thresholds (F64.of_Z 2) (F64.dec 28 1) (F64.of_Z 150) = true
  ∧ hbond_thresholds (F64.of_Z 2) (F64.dec 28 1) (F64.of_Z 100) = false
  ∧ hbond_thresholds (F64.dec 23 1) (F64.dec 28 1) (F64.of_Z 150) = false.
Proof.
  split; [|split; [|by vm_compute]].
  - intros L self fc fh self' hb key r Hrun Hhb Hin.
    apply run_inv in Hrun as (l & n & st & marked & cl & _ & Hst & _ & _ & ->).
    injection Hhb as <-. cbn in Hin.
    apply classify_pairs_inv in Hst as (_ & _ & Hok).
    specialize (Hok key r Hin). unfold hbond_thresholds in Hok.
    rewrite !andb_true_iff in Hok. tauto.
  - intros L mdl st item atom_h atom_a iseq_x rest hx Hx Hthr.
    rewrite (find_donor_cons _ _ _ _ _ _ _ _ hx Hx). cbv zeta.
    rewrite Hthr. destruct (negb _); [by left|by right].
Qed.


(** ** Keys of the clash registry *)

(** C8 (as amended): the key of a clash is the sorted pair of its two
    atoms, the same whichever atom is found first, so (5, 2) and (2, 5)
    both give (2, 5); in the registry of a finished run every key occurs
    once, is the sorted pair of a candidate, and has its first component
    less than or equal to its second: strictly less for two different
    atoms, equal when an atom overlaps with its own symmetry copy. *)
Theorem clash_keys_canonical :
  (sorted_pair 5 2 = (2, 5) ∧ sorted_pair 2 5 = (2, 5))
  ∧ (∀ i j : nat,
       sorted_pair i j = sorted_pair j i
       ∧ (sorted_pair i j).1 ≤ (sorted_pair i j).2
       ∧ (i ≠ j → (sorted_pair i j).1 < (sorted_pair i j).2))
  ∧ ∀ (L : libm) (self : manager) (fc fh : bool) (self' : manager)
      (cl : clashes) (nonbonded_list : list proxy) (n : nat),
      _process_nonbonded_proxies L self fc fh = Ok self' →
      _clashes self' = Some cl →
      m_get_sorted (model self) = Some (nonbonded_list, n) →
      NoDup (Dict.keys (_clashes_dict cl))
      ∧ keys_ordered (Dict.keys (_clashes_dict cl))
      ∧ keys_from nonbonded_list (Dict.keys (_clashes_dict cl)).
Proof.
  split; [done|]. split.
  { intros i j. split; [apply sorted_pair_comm|].
    split; [apply sorted_pair_le|].
    unfold sorted_pair. destruct (j <? i) eqn:E; simpl.
    - apply Nat.ltb_lt in E. lia.
    - apply Nat.ltb_ge in E. lia. }
  intros L self fc fh self' cl l n Hrun Hcl Hl.
  apply run_inv in Hrun
    as (l' & n' & st & marked & cl' & Hl' & Hst & _ & Hsort & ->).
  injection Hcl as ->. rewrite Hl in Hl'. injection Hl' as <- <-.
  apply classify_pairs_inv in Hst as (Hnd & Hfrom & _).
  apply sort_overlap_perm in Hsort.
  assert (Hkeys : Dict.keys (_clashes_dict cl)
                  ≡ₚ Dict.keys (_clashes_dict (remove_marked (rs_clashes st)
                                                 marked))).
  { unfold Dict.keys. by rewrite Hsort. }
  assert (Hsub : ∀ k, k ∈ Dict.keys (_clashes_dict cl) →
                      k ∈ Dict.keys (_clashes_dict (rs_clashes st))).
  { intros k Hk. rewrite Hkeys in Hk.
    by apply (remove_marked_keys _ marked k Hnd) in Hk as [? _]. }
  split; [|split].
  - rewrite Hkeys. by apply (remove_marked_keys _ marked (0, 0)).
  - intros k Hk. destruct (Hfrom k (Hsub k Hk)) as (item & _ & ->).
    apply sorted_pair_le.
  - intros k Hk. by apply Hfrom, Hsub.
Qed.

(** ** Clashes that share an atom *)

Lemma table_getitem_Some (t : conn_table) k l :
  t !! k = Some l → table_getitem t k = Ok l.
Proof. unfold table_getitem. by intros ->. Qed.

Lemma dict_getitem_Some {K V} `{EqDecision K} (d : list (K * V)) k v :
  Dict.get d k = Some v → Dict.getitem d k = Ok v.
Proof. unfold Dict.getitem. by intros ->. Qed.

Lemma mem_Some {K V} `{EqDecision K} (d : list (K * V)) k v :
  Dict.get d k = Some v → Dict.mem d k = true.
Proof. unfold Dict.mem. by intros ->. Qed.

(** What the innermost loop body appends for two bonded partners that
    are in line with the common atom. *)
Lemma inline_verdict_marks cl sites_cart fsc0 c p1 p2 bonded x1 x2 xc r1 r2 :
  fsc0 !! p2 = Some bonded → p1 ∈ bonded →
  sites_cart !! p1 = Some x1 → sites_cart !! p2 = Some x2 →
  sites_cart !! c = Some xc →
  Dict.get (_clashes_dict cl) (sorted_pair c p1) = Some r1 →
  Dict.get (_clashes_dict cl) (sorted_pair c p2) = Some r2 →
  ci_symop r1 = None →
  F64.ltb inline_cutoff (F64.abs (cos_vec x1 x2 xc)) = true →
  Col.neq x1 x2 = true →
  inline_verdict cl sites_cart fsc0 c (p1, p2)
  = Ok [if F64.ltb (ci_model_distance r1) (ci_model_distance r2)
        then sorted_pair c p2 else sorted_pair c p1].
Proof.
  intros Hb Hin H1 H2 Hc Hr1 Hr2 Hsym Hcos Hneq. unfold inline_verdict.
  rewrite (table_getitem_Some _ _ _ Hb), bind_Ok.
  rewrite decide_True by done.
  rewrite (getitem_Some _ _ _ H1), bind_Ok, (getitem_Some _ _ _ H2), bind_Ok,
    (getitem_Some _ _ _ Hc), bind_Ok.
  unfold iseq_tuple_is_sym_clash, iseq_tuple_is_clashing, get_model_distance.
  rewrite (dict_getitem_Some _ _ _ Hr1), !bind_Ok, Hsym, Hcos, Hneq.
  rewrite (mem_Some _ _ _ Hr1), (mem_Some _ _ _ Hr2).
  cbn [andb]. rewrite (dict_getitem_Some _ _ _ Hr2), !bind_Ok.
  by destruct (F64.ltb (ci_model_distance r1) (ci_model_distance r2)).
Qed.

Lemma clashes_to_be_removed_elem st sites_cart fsc0 marked c partners pair ks :
  clashes_to_be_removed st sites_cart fsc0 = Ok marked →
  (c, partners) ∈ rs_mult_clash_dict st → pair ∈ ordered_pairs partners →
  inline_verdict (rs_clashes st) sites_cart fsc0 c pair = Ok ks →
  ∀ k, k ∈ ks → k ∈ marked.
Proof.
  intros Hm Hc Hp Hv k Hk. unfold clashes_to_be_removed in Hm.
  destruct (collect_elem _ _ _ _ Hm Hc) as (bs & Hbs & Hsub).
  cbv beta iota in Hbs.
  destruct (collect_elem _ _ _ _ Hbs Hp) as (ks' & Hks' & Hsub').
  rewrite Hv in Hks'. injection Hks' as <-. by apply Hsub, Hsub'.
Qed.

(** A key is marked exactly when some pair of partners of some common
    atom marks it. *)
Lemma marked_iff st sites_cart fsc0 marked k :
  clashes_to_be_removed st sites_cart fsc0 = Ok marked →
  k ∈ marked
  ↔ ∃ c partners pair ks,
      (c, partners) ∈ rs_mult_clash_dict st
      ∧ pair ∈ ordered_pairs partners
      ∧ inline_verdict (rs_clashes st) sites_cart fsc0 c pair = Ok ks
      ∧ k ∈ ks.
Proof.
  intros Hm. split.
  - intros Hk. unfold clashes_to_be_removed in Hm.
    destruct (collect_origin _ _ _ _ Hm Hk)
      as ([c partners] & bs & Hc & Hbs & Hb).
    destruct (collect_origin _ _ _ _ Hbs Hb) as (pair & ks & Hp & Hks & Hin).
    by exists c, partners, pair, ks.
  - intros (c & partners & pair & ks & Hc & Hp & Hv & Hin).
    by eapply clashes_to_be_removed_elem.
Qed.

(** C2 (as amended): when the scan of [_process_clashes] meets a common
    atom [c] with two partners [p1], [p2] that are bonded to each other,
    in line with [c] (the score of [cos_vec] above 0.707), at different
    positions, and with both clashes in the registry, neither carrying a
    symmetry operator, it marks exactly one of the two keys: the one
    with the larger model distance (the key of [p1] when neither
    distance is smaller).  The marked key is not in the registry after
    the pass.  The other key stays in the registry exactly when no pair
    of partners of any common atom marks it. *)
Theorem inline_pair_marks_the_longer_clash
  (st st' : run_state) (sites_cart : list vec3) (fsc0 : conn_table)
  (c p1 p2 : nat) (partners bonded : list nat) (x1 x2 xc : vec3)
  (r1 r2 : clash_info) :
  NoDup (Dict.keys (_clashes_dict (rs_clashes st))) →
  _process_clashes st sites_cart fsc0 = Ok st' →
  (c, partners) ∈ rs_mult_clash_dict st →
  (p1, p2) ∈ ordered_pairs partners →
  fsc0 !! p2 = Some bonded → p1 ∈ bonded →
  sites_cart !! p1 = Some x1 → sites_cart !! p2 = Some x2 →
  sites_cart !! c = Some xc →
  Dict.get (_clashes_dict (rs_clashes st)) (sorted_pair c p1) = Some r1 →
  Dict.get (_clashes_dict (rs_clashes st)) (sorted_pair c p2) = Some r2 →
  ci_symop r1 = None → ci_symop r2 = None →
  F64.ltb inline_cutoff (F64.abs (cos_vec x1 x2 xc)) = true →
  Col.neq x1 x2 = true →
  ∃ longer shorter marked,
    (longer, shorter)
    = (if F64.ltb (ci_model_distance r1) (ci_model_distance r2)
       then (sorted_pair c p2, sorted_pair c p1)
       else (sorted_pair c p1, sorted_pair c p2))
    ∧ inline_verdict (rs_clashes st) sites_cart fsc0 c (p1, p2)
      = Ok [longer]
    ∧ clashes_to_be_removed st sites_cart fsc0 = Ok marked
    ∧ longer ∈ marked
    ∧ (longer ∉ Dict.keys (_clashes_dict (rs_clashes st')))
    ∧ (shorter ∈ Dict.keys (_clashes_dict (rs_clashes st'))
       ↔ shorter ∉ marked)
    ∧ (∀ k, k ∈ marked
            ↔ ∃ c' partners' pair' ks,
                (c', partners') ∈ rs_mult_clash_dict st
                ∧ pair' ∈ ordered_pairs partners'
                ∧ inline_verdict (rs_clashes st) sites_cart fsc0 c' pair'
                  = Ok ks
                ∧ k ∈ ks).
Proof.
  intros Hnd Hrun Hc Hp Hb Hin H1 H2 Hxc Hr1 Hr2 Hsym _ Hcos Hneq.
  pose proof (inline_verdict_marks _ _ _ _ _ _ _ _ _ _ _ _
                Hb Hin H1 H2 Hxc Hr1 Hr2 Hsym Hcos Hneq) as Hv.
  unfold _process_clashes in Hrun. bind_inv Hrun as marked.
  injection Hrun as <-. cbn [rs_clashes].
  assert (Hmarked : ∀ k, k ∈ [if F64.ltb (ci_model_distance r1)
                                        (ci_model_distance r2)
                              then sorted_pair c p2 else sorted_pair c p1] →
                         k ∈ marked)
    by by eapply clashes_to_be_removed_elem.
  assert (Hk1 : sorted_pair c p1
                ∈ Dict.keys (_clashes_dict (rs_clashes st)))
    by (apply get_keys; by eexists).
  assert (Hk2 : sorted_pair c p2
                ∈ Dict.keys (_clashes_dict (rs_clashes st)))
    by (apply get_keys; by eexists).
  revert Hv Hmarked.
  destruct (F64.ltb (ci_model_distance r1) (ci_model_distance r2));
    intros Hv Hmarked; eexists _, _, marked;
    (split; [reflexivity|]); (split; [done|]);
    (split; [done|]); (split; [apply Hmarked; by left|]);
    (split;
     [intros [_ Hk]%(remove_marked_keys _ marked _ Hnd); apply Hk, Hmarked;
      by left|]);
    (split;
     [rewrite (proj2 (remove_marked_keys _ marked _ Hnd)); tauto
     |intros k; by apply marked_iff]).
Qed.

(** C2, the claim as stated fails: in [chain_of_three_model] atom 0
    overlaps with the bonded atoms 1 and 2, which lie in line with it at
    different positions, and both clashes are in the registry when the
    pass starts.  The pair (1, 2) marks the longer clash (0, 2); the
    shorter clash (0, 1) is removed as well, because the pair (3, 1)
    marks it.  Neither of the two records survives. *)
Lemma chain_of_three_loses_both_records :
  ∃ st',
    _process_clashes chain_of_three_classified axis_sites
      (m_fsc0 chain_of_three_model) = Ok st'
    ∧ Dict.keys (_clashes_dict (rs_clashes chain_of_three_classified))
      = [(0, 3); (0, 1); (0, 2)]
    ∧ (0, [3; 1; 2]) ∈ rs_mult_clash_dict chain_of_three_classified
    ∧ m_fsc0 chain_of_three_model !! 2 = Some [1]
    ∧ (F64.ltb inline_cutoff
         (F64.abs (cos_vec (point (F64.of_Z 2) F64.zero F64.zero)
                           (point (F64.dec 25 1) F64.zero F64.zero)
                           (point F64.zero F64.zero F64.zero))) = true)
    ∧ inline_verdict (rs_clashes chain_of_three_classified) axis_sites
        (m_fsc0 chain_of_three_model) 0 (1, 2) = Ok [(0, 2)]
    ∧ Dict.keys (_clashes_dict (rs_clashes st')) = [(0, 3)]
    ∧ ((0, 1) ∉ Dict.keys (_clashes_dict (rs_clashes st')))
    ∧ ((0, 2) ∉ Dict.keys (_clashes_dict (rs_clashes st'))).
Proof.
  eexists. split; [by vm_compute|].
  split; [by vm_compute|]. split; [by left|].
  split; [by vm_compute|]. split; [by vm_compute|].
  split; [by vm_compute|]. split; [by vm_compute|].
  split; apply (bool_decide_unpack _); by vm_compute.
Qed.

(** The pass on [chain_of_three_model] meets the hypotheses of the
    theorem for the common atom 0 and its partners 1 and 2. *)
Lemma inline_pair_marks_the_longer_clash_witness :
  ∃ longer shorter marked,
    (longer, shorter) = ((0, 2), (0, 1))
    ∧ inline_verdict (rs_clashes chain_of_three_classified) axis_sites
        (m_fsc0 chain_of_three_model) 0 (1, 2) = Ok [longer]
    ∧ clashes_to_be_removed chain_of_three_classified axis_sites
        (m_fsc0 chain_of_three_model) = Ok marked
    ∧ longer ∈ marked
    ∧ (longer ∉ Dict.keys (_clashes_dict (rs_clashes chain_of_three_resolved)))
    ∧ (shorter ∈ Dict.keys (_clashes_dict (rs_clashes chain_of_three_resolved))
       ↔ shorter ∉ marked)
    ∧ (∀ k, k ∈ marked
            ↔ ∃ c' partners' pair' ks,
                (c', partners') ∈ rs_mult_clash_dict chain_of_three_classified
                ∧ pair' ∈ ordered_pairs partners'
                ∧ inline_verdict (rs_clashes chain_of_three_classified)
                    axis_sites (m_fsc0 chain_of_three_model) c' pair'
                  = Ok ks
                ∧ k ∈ ks).
Proof.
  refine (inline_pair_marks_the_longer_clash
            chain_of_three_classified chain_of_three_resolved axis_sites
            (m_fsc0 chain_of_three_model) 0 1 2 [3; 1; 2] [1]
            (point (F64.of_Z 2) F64.zero F64.zero)
            (point (F64.dec 25 1) F64.zero F64.zero)
            (point F64.zero F64.zero F64.zero)
            (ClashInfo (F64.of_Z 2) (F64.dec 34 1)
               (F64.abs (F64.sub (F64.of_Z 2) (F64.dec 34 1))) "" None)
            (ClashInfo (F64.dec 25 1) (F64.dec 34 1)
               (F64.abs (F64.sub (F64.dec 25 1) (F64.dec 34 1))) "" None)
            _ _ _ _ _ _ _ _ _ _ _ _ _ _ _).
  - apply (bool_decide_unpack _). by vm_compute.
  - by vm_compute.
  - by left.
  - apply (bool_decide_unpack _). by vm_compute.
  - by vm_compute.
  - by left.
  - by vm_compute.
  - by vm_compute.
  - by vm_compute.
  - by vm_compute.
  - by vm_compute.
  - reflexivity.
  - reflexivity.
  - by vm_compute.
  - by vm_compute.
Defined.

(** ** The order of the two partners *)




(** ** The claims at concrete inputs *)

(** C3, the claim as stated fails: on the chain H-A1-A2-A3-A4-X the test
    for (H, X) is not true, although five bonds lead from H to X and no
    fewer do; the loop stops after labelling A4. *)
Lemma chain_H_X_is_not_1_5 :
  check_if_1_5_interaction 0 5 chain_hd_sel chain_table ≠ Ok true
  ∧ walk chain_table 0 5 5.
Proof.
  split; [by vm_compute|].
  assert (B : ∀ a b l, chain_table !! a = Some l → b ∈ l →
                       bonded chain_table a b) by (intros; by eexists).
  eapply walk_S; [eapply walk_S; [eapply walk_S; [eapply walk_S;
    [eapply walk_S; [apply walk_O|]|]|]|]|].
  - apply (B 0 1 [1]); [done|by left].
  - apply (B 1 2 [0; 2]); [done|by right; left].
  - apply (B 2 3 [1; 3]); [done|by right; left].
  - apply (B 3 4 [2; 4]); [done|by right; left].
  - apply (B 4 5 [3; 5]); [done|by right; left].
Qed.

Lemma chain_table_closed : table_closed chain_table.
Proof.
  intros a l b Hl Hb.
  apply elem_of_list_to_map_2 in Hl.
  repeat (apply elem_of_cons in Hl as [[= -> ->]|Hl];
          [repeat (apply elem_of_cons in Hb as [->|Hb]; [by eexists|]);
           by apply elem_of_nil in Hb|]).
  by apply elem_of_nil in Hl.
Qed.

(** The general part of the theorem at the hydrogen and A4 of the
    chain. *)
Lemma check_if_1_5_is_four_bonds_witness :
  ∃ b, check_if_1_5_interaction 0 4 chain_hd_sel chain_table = Ok b
       ∧ (b = true ↔ true ≠ false ∧ bond_distance chain_table 0 4 4).
Proof.
  apply (proj2 check_if_1_5_is_four_bonds 0 4 chain_hd_sel chain_table
           true false).
  - reflexivity.
  - reflexivity.
  - apply chain_table_closed.
  - by eexists.
  - by eexists.
Defined.


(** The first record of [bifurcated_model] is within the thresholds. *)
Lemma hbond_records_within_thresholds_witness :
  F64.leb (F64.dec 12 1) (hb_h_a_distance bifurcated_first_record) = true
  ∧ F64.leb (hb_h_a_distance bifurcated_first_record) (F64.dec 22 1) = true
  ∧ F64.leb (F64.dec 22 1) (hb_x_a_distance bifurcated_first_record) = true
  ∧ F64.leb (hb_x_a_distance bifurcated_first_record) (F64.dec 32 1) = true
  ∧ F64.leb (F64.of_Z 110) (hb_x_h_a_angle bifurcated_first_record) = true.
Proof.
  apply (proj1 hbond_records_within_thresholds bifurcated_libm
           (manager_init bifurcated_model) true true bifurcated_finished
           bifurcated_hbonds (0, 1, 2) bifurcated_first_record).
  - by vm_compute.
  - by vm_compute.
  - apply (list_elem_of_lookup_2 _ 0). by vm_compute.
Defined.



(** C8, the claim as stated fails: in [self_contact_model] atom 3
    overlaps with its own symmetry copy, and the registry of the
    finished run holds the key (3, 3), whose first component is not less
    than its second. *)
Lemma self_contact_key_is_not_strict :
  clash_keys (first_run no_angles self_contact_model) = Some [(3, 3)]
  ∧ ¬ keys_strictly_ordered [(3, 3)].
Proof.
  split; [by vm_compute|].
  intros H. specialize (H (3, 3)). cbn in H.
  assert (3 < 3) by (apply H; by left). lia.
Qed.

(** The registry of [chain_of_three_model] after its first run. *)
Lemma clash_keys_canonical_witness :
  NoDup (Dict.keys (_clashes_dict chain_of_three_clashes))
  ∧ keys_ordered (Dict.keys (_clashes_dict chain_of_three_clashes))
  ∧ keys_from
      [Proxy "" 0 3 (F64.dec 15 1) (F64.dec 34 1) "" None;
       Proxy "" 0 1 (F64.of_Z 2) (F64.dec 34 1) "" None;
       Proxy "" 0 2 (F64.dec 25 1) (F64.dec 34 1) "" None]
      (Dict.keys (_clashes_dict chain_of_three_clashes)).
Proof.
  apply (proj2 (proj2 clash_keys_canonical) no_angles
           (manager_init chain_of_three_model) true true
           chain_of_three_finished chain_of_three_clashes _ 0).
  - by vm_compute.
  - by vm_compute.
  - reflexivity.
Defined.

(** ** Where the code departs from its own intent *)

(** C4: in [symmetry_partner_model] the clash of atom 0 with atom 2 is a
    symmetry clash, the clash of atom 0 with atom 1 is not.  The scan
    tests the operator of the first partner's key only, computes the
    score from the untransformed coordinates, and marks the symmetry
    clash (0, 2), which the pass removes. *)
Theorem symmetry_clash_of_second_partner_is_removed :
  Dict.keys (_clashes_dict (rs_clashes symmetry_partner_classified))
  = [(0, 1); (0, 2)]
  ∧ (ci_symop_str
       <$> Dict.get (_clashes_dict (rs_clashes symmetry_partner_classified))
                    (0, 2)) = Some " sym=x,y,z+1"
  ∧ is_Some (Dict.get
               (_clashes_dict (rs_clashes symmetry_partner_classified))
               (0, 2) ≫= ci_symop)
  ∧ rs_mult_clash_dict symmetry_partner_classified
    = [(0, [1; 2]); (1, [0]); (2, [0])]
  ∧ inline_verdict (rs_clashes symmetry_partner_classified)
      (m_sites_cart symmetry_partner_model)
      (m_fsc0 symmetry_partner_model) 0 (1, 2) = Ok [(0, 2)]
  ∧ clash_keys (first_run no_angles symmetry_partner_model)
    = Some [(0, 1)].
Proof.
  split; [by vm_compute|]. split; [by vm_compute|].
  split; [by eexists|]. split; by vm_compute.
Qed.

(** C5: when [get_sorted] returns [None] the run raises TypeError while
    it builds the empty clash registry, because [clashes(...)] is called
    without its [model] argument; no registry is created. *)
Theorem empty_candidate_list_raises_TypeError
  (L : libm) (atoms : list hier_atom) (sites_cart : list vec3)
  (hd_sel water_sel : list bool) (uc : option unit_cell)
  (fsc0 : conn_table) (cl : option clashes) (hb : option hbonds)
  (find_clashes find_hbonds : bool) :
  _process_nonbonded_proxies L
    (Manager (Model atoms sites_cart hd_sel water_sel uc None fsc0) cl hb)
    find_clashes find_hbonds = Raise TypeError
  ∧ get_clashes L
      (manager_init (Model atoms sites_cart hd_sel water_sel uc None fsc0))
    = Raise TypeError
  ∧ get_hbonds L
      (manager_init (Model atoms sites_cart hd_sel water_sel uc None fsc0))
    = Raise TypeError.
Proof. by repeat split. Qed.

(** C9: [has_hbonds] never returns: with a registry in place it raises
    AttributeError, because the registry has no attribute
    [get_n_bonds]; without one it raises that or what the run raises.
    [has_clashes] returns whether the count of the registry in place is
    positive. *)
Theorem has_hbonds_always_raises
  (L : libm) (mdl : model_t) (cl : option clashes) (hb : hbonds)
  (cl' : clashes) (hb' : option hbonds) :
  has_hbonds L (Manager mdl cl (Some hb)) = Raise AttributeError
  ∧ (∃ e, has_hbonds L (Manager mdl cl None) = Raise e)
  ∧ has_clashes L (Manager mdl (Some cl') hb')
    = Ok (0 <? get_n_clashes cl', Manager mdl (Some cl') hb').
Proof.
  split; [done|]. split; [|done].
  unfold has_hbonds, get_hbonds. cbn [_hbonds].
  destruct (_process_nonbonded_proxies L (Manager mdl cl None) true true)
    as [self'|e] eqn:Hrun; [|by exists e].
  apply run_inv in Hrun as (l & n & st & marked & cl0 & _ & _ & _ & _ & ->).
  by exists AttributeError.
Qed.

(** * Further properties of the code *)

(** ** The 1-5 test beyond the chain *)

Lemma getitem_Raise_inv {A} (l : list A) i e :
  getitem l i = Raise e → e = IndexError.
Proof. unfold getitem. destruct (l !! i); by intros [= <-]. Qed.

(** X1: the 1-5 test does not depend on the order in which the two
    atoms are given: it gives the same verdict, or raises the same
    exception, for (i, j) and for (j, i). *)
Theorem check_if_1_5_interaction_swap
  (i j : nat) (hd_sel : list bool) (t : conn_table) :
  check_if_1_5_interaction i j hd_sel t
  = check_if_1_5_interaction j i hd_sel t.
Proof.
  unfold check_if_1_5_interaction.
  destruct (getitem hd_sel i) as [hi|e] eqn:Hi,
           (getitem hd_sel j) as [hj|e'] eqn:Hj; rewrite ?bind_Ok.
  - by destruct hi, hj.
  - done.
  - done.
  - apply getitem_Raise_inv in Hi, Hj. by subst.
Qed.

(** X2: how the 1-5 test ends without a verdict from the search: an
    index outside the hydrogen flags raises IndexError; two hydrogens or
    two heavy atoms give False whatever the table holds; for a hydrogen
    without an entry in the table the lookup of the table fails and the
    test raises instead of returning a verdict. *)
Theorem check_if_1_5_interaction_edges
  (i j : nat) (hd_sel : list bool) (t : conn_table) :
  (hd_sel !! i = None ∨ hd_sel !! j = None →
   check_if_1_5_interaction i j hd_sel t = Raise IndexError)
  ∧ (∀ h, hd_sel !! i = Some h → hd_sel !! j = Some h →
          check_if_1_5_interaction i j hd_sel t = Ok false)
  ∧ (hd_sel !! i = Some true → hd_sel !! j = Some false → t !! i = None →
     ∃ e, check_if_1_5_interaction i j hd_sel t = Raise e).
Proof.
  unfold check_if_1_5_interaction. split; [|split].
  - unfold getitem. intros [Hn|Hn]; rewrite Hn; [done|].
    by destruct (hd_sel !! i).
  - intros h Hi Hj.
    rewrite (getitem_Some _ _ _ Hi), (getitem_Some _ _ _ Hj), !bind_Ok.
    by destruct h.
  - intros Hi Hj Ht.
    rewrite (getitem_Some _ _ _ Hi), (getitem_Some _ _ _ Hj), !bind_Ok.
    cbn [py_xor orb andb negb].
    change (seq 2 4) with (2 :: seq 3 3). rewrite for_each_cons.
    assert (bfs_step t 2 (bfs_init i) = Raise KeyError) as ->;
      [|by eexists].
    unfold bfs_step, bfs_init, gather. cbn [new_connections].
    rewrite elements_singleton, for_each_cons.
    unfold table_getitem. by rewrite Ht.
Qed.

(** The hydrogen of [chain_hd_sel] searched in an empty table. *)
Lemma check_if_1_5_interaction_edges_witness :
  ∃ e, check_if_1_5_interaction 0 1 chain_hd_sel ∅ = Raise e.
Proof.
  by apply (proj2 (proj2 (check_if_1_5_interaction_edges 0 1 chain_hd_sel ∅))).
Defined.

(** ** The collinearity score beyond its symmetry *)

Lemma abs_not_negative x : F64.ltb (F64.abs x) F64.zero = false.
Proof. by destruct x as [[]|[]| |[] m e]. Qed.

Lemma abs_abs x : F64.abs (F64.abs x) = F64.abs x.
Proof. by destruct x. Qed.

(** X3: the score of [cos_vec] is never negative (it is a magnitude, 1
    or NaN), and taking its absolute value again, as the pass over the
    clashes does, changes nothing. *)
Theorem cos_vec_not_negative (u v w : vec3) :
  F64.ltb (cos_vec u v w) F64.zero = false
  ∧ F64.abs (cos_vec u v w) = cos_vec u v w.
Proof.
  unfold cos_vec. cbv zeta.
  destruct (Col.normalize (Col.vsub w _)) as [n1|]; [|done].
  destruct (Col.normalize (Col.vsub u v)) as [n2|]; [|done].
  split; [apply abs_not_negative|apply abs_abs].
Qed.

Lemma sub_self_is_zero x :
  is_finite x = true → F64.is_zero (F64.sub x x) = true.
Proof.
  destruct x as [[]|[]| |s m e]; try done. intros _.
  unfold F64.sub, SFsub. by rewrite Z.sub_diag.
Qed.

Lemma length_of_zeros a :
  F64.is_zero (vx a) = true → F64.is_zero (vy a) = true →
  F64.is_zero (vz a) = true → Col.normalize a = None.
Proof.
  destruct a as [[[]| | |] [[]| | |] [[]| | |]]; by try discriminate.
Qed.

(** X4: for two partners at the same finite position the score is 1:
    their difference has length zero and the division raises, which
    [cos_vec] answers with 1, wherever the common atom is. *)
Theorem cos_vec_coincident (u w : vec3) :
  finite_vec u → cos_vec u u w = F64.one.
Proof.
  intros (Hx & Hy & Hz). unfold cos_vec. cbv zeta.
  destruct (Col.normalize (Col.vsub w _)) as [n1|]; [|done].
  rewrite length_of_zeros; [done|by apply sub_self_is_zero..].
Qed.

(** Two partners at (2, 0, 0) and the common atom at the origin. *)
Lemma cos_vec_coincident_witness :
  cos_vec (point (F64.of_Z 2) F64.zero F64.zero)
          (point (F64.of_Z 2) F64.zero F64.zero)
          (point F64.zero F64.zero F64.zero) = F64.one.
Proof.
  apply (cos_vec_coincident (point (F64.of_Z 2) F64.zero F64.zero)
           (point F64.zero F64.zero F64.zero)).
  by repeat split.
Defined.

(** ** The registry of clashes as a dictionary *)

Lemma length_set {K V} `{EqDecision K} (d : list (K * V)) k v :
  length (Dict.set d k v)
  = if Dict.mem d k then length d else S (length d).
Proof.
  rewrite <- !(length_fmap fst). change (fst <$> ?l) with (Dict.keys l).
  rewrite keys_set. destruct (Dict.mem d k); [done|].
  rewrite length_app. simpl. lia.
Qed.

Lemma get_None_keys {K V} `{EqDecision K} (d : list (K * V)) k :
  Dict.get d k = None ↔ k ∉ Dict.keys d.
Proof.
  rewrite <- get_keys. split.
  - intros E [v Hv]. congruence.
  - intros Hn. destruct (Dict.get d k) eqn:E; [|done].
    destruct Hn. by eexists.
Qed.

Lemma get_del {K V} `{EqDecision K} (d : list (K * V)) k k' :
  NoDup (Dict.keys d) →
  Dict.get (Dict.del d k) k'
  = if decide (k' = k) then None else Dict.get d k'.
Proof.
  unfold Dict.keys. induction d as [|[k0 v0] d IH]; intros Hnd.
  - by destruct (decide (k' = k)).
  - apply NoDup_cons in Hnd as [Hk0 Hnd]. cbn [Dict.del Dict.get].
    destruct (decide (k = k0)) as [->|Hne].
    + destruct (decide (k' = k0)) as [->|?]; [|done].
      by apply get_None_keys.
    + cbn [Dict.get]. destruct (decide (k' = k0)) as [->|?].
      * by rewrite decide_False by done.
      * by apply IH.
Qed.

Lemma length_del {K V} `{EqDecision K} (d : list (K * V)) k :
  length (Dict.del d k)
  = if Dict.mem d k then length d - 1 else length d.
Proof.
  unfold Dict.mem. induction d as [|[k0 v0] d IH]; [done|].
  cbn [Dict.del Dict.get]. destruct (decide (k = k0)); simpl; [lia|].
  rewrite IH. destruct (Dict.get d k) eqn:E; [|done].
  destruct d; [done|]. simpl. lia.
Qed.

Lemma get_Some_elem {K V} `{EqDecision K} (d : list (K * V)) k v :
  NoDup (Dict.keys d) → Dict.get d k = Some v ↔ (k, v) ∈ d.
Proof.
  unfold Dict.keys. induction d as [|[k0 v0] d IH]; intros Hnd.
  - split; [done|by intros ?%elem_of_nil].
  - apply NoDup_cons in Hnd as [Hk0 Hnd]. cbn [Dict.get].
    rewrite elem_of_cons. destruct (decide (k = k0)) as [->|Hne].
    + split; [intros [= ->]; by left|].
      intros [[= ->]|Hin]; [done|]. destruct Hk0.
      apply list_elem_of_fmap. by exists (k0, v).
    + rewrite (IH Hnd). split; [by right|].
      by intros [[= -> ->]|?].
Qed.

(** X5: adding a clash and looking it up: the key is then in the
    registry, its model distance and its operator are those of the
    record just added (a record already stored under the key is
    replaced), every other key answers as before, and the count grows by
    one for a new key and stays for a key that was present. *)
Theorem add_clash_then_lookup
  (cl : clashes) (k k' : clash_key) (info : clash_info) :
  iseq_tuple_is_clashing (add_clash cl k info) k = true
  ∧ get_model_distance (add_clash cl k info) k
    = Ok (ci_model_distance info)
  ∧ iseq_tuple_is_sym_clash (add_clash cl k info) k = Ok (ci_symop info)
  ∧ get_n_clashes (add_clash cl k info)
    = (if iseq_tuple_is_clashing cl k then get_n_clashes cl
       else S (get_n_clashes cl))
  ∧ (k' ≠ k →
     iseq_tuple_is_clashing (add_clash cl k info) k'
     = iseq_tuple_is_clashing cl k'
     ∧ get_model_distance (add_clash cl k info) k'
       = get_model_distance cl k'
     ∧ iseq_tuple_is_sym_clash (add_clash cl k info) k'
       = iseq_tuple_is_sym_clash cl k').
Proof.
  unfold iseq_tuple_is_clashing, get_model_distance,
    iseq_tuple_is_sym_clash, get_n_clashes, Dict.getitem, Dict.mem,
    add_clash. cbn [_clashes_dict].
  rewrite get_set_eq. repeat split; try done.
  - apply length_set.
  - by rewrite get_set, decide_False.
  - by rewrite get_set, decide_False.
  - by rewrite get_set, decide_False.
Qed.

(** A second key added to a registry that holds (0, 3). *)
Lemma add_clash_then_lookup_witness :
  iseq_tuple_is_clashing
    (add_clash chain_of_three_clashes (1, 2)
       (ClashInfo F64.one F64.two F64.one "" None)) (0, 3)
  = iseq_tuple_is_clashing chain_of_three_clashes (0, 3).
Proof.
  apply (proj2 (proj2 (proj2 (proj2
           (add_clash_then_lookup chain_of_three_clashes (1, 2) (0, 3)
              (ClashInfo F64.one F64.two F64.one "" None)))))).
  done.
Defined.

(** X6: removing a clash from a registry (whose keys are unique, as in
    every dictionary): the key is gone, every other key answers as
    before, the count drops by one if the key was present, and removing
    a key that is not present changes nothing. *)
Theorem remove_clash_then_lookup (cl : clashes) (k k' : clash_key) :
  NoDup (Dict.keys (_clashes_dict cl)) →
  iseq_tuple_is_clashing (remove_clash cl k) k = false
  ∧ NoDup (Dict.keys (_clashes_dict (remove_clash cl k)))
  ∧ get_n_clashes (remove_clash cl k)
    = (if iseq_tuple_is_clashing cl k then get_n_clashes cl - 1
       else get_n_clashes cl)
  ∧ (iseq_tuple_is_clashing cl k = false → remove_clash cl k = cl)
  ∧ (k' ≠ k →
     iseq_tuple_is_clashing (remove_clash cl k) k'
     = iseq_tuple_is_clashing cl k'
     ∧ get_model_distance (remove_clash cl k) k'
       = get_model_distance cl k').
Proof.
  intros Hnd.
  unfold iseq_tuple_is_clashing, get_model_distance, get_n_clashes,
    Dict.getitem, remove_clash.
  destruct (Dict.mem (_clashes_dict cl) k) eqn:Hmem; cbn [_clashes_dict].
  - unfold Dict.mem. rewrite !get_del by done.
    rewrite decide_True by done.
    split; [done|]. split; [by apply NoDup_keys_del|].
    split; [by rewrite length_del, Hmem|]. split; [done|].
    intros Hne. by rewrite decide_False.
  - by rewrite Hmem.
Qed.

(** The key (0, 3) removed from the registry that holds it alone. *)
Lemma remove_clash_then_lookup_witness :
  iseq_tuple_is_clashing (remove_clash chain_of_three_clashes (0, 3)) (0, 3)
  = false.
Proof.
  apply (remove_clash_then_lookup chain_of_three_clashes (0, 3) (0, 3)).
  apply (bool_decide_unpack _). by vm_compute.
Defined.

(** X7: asking for the model distance or the operator of a pair raises
    KeyError exactly when the pair is not in the registry; for a pair
    that is, both return what its record holds. *)
Theorem lookup_of_missing_pair_raises (cl : clashes) (k : clash_key) :
  (iseq_tuple_is_clashing cl k = false
   ↔ get_model_distance cl k = Raise KeyError)
  ∧ (iseq_tuple_is_clashing cl k = false
     ↔ iseq_tuple_is_sym_clash cl k = Raise KeyError)
  ∧ (iseq_tuple_is_clashing cl k = true
     ↔ ∃ info, (k, info) ∈ _clashes_dict cl
               ∧ Dict.get (_clashes_dict cl) k = Some info
               ∧ get_model_distance cl k = Ok (ci_model_distance info)
               ∧ iseq_tuple_is_sym_clash cl k = Ok (ci_symop info)).
Proof.
  unfold iseq_tuple_is_clashing, get_model_distance,
    iseq_tuple_is_sym_clash, Dict.getitem, Dict.mem.
  destruct (Dict.get (_clashes_dict cl) k) as [info|] eqn:E.
  - rewrite !bind_Ok. split; [done|]. split; [done|].
    split; [|done]. intros _. exists info. split; [|done].
    clear -E. induction (_clashes_dict cl) as [|[k0 v0] d IH]; [done|].
    cbn [Dict.get] in E. destruct (decide (k = k0)) as [->|?].
    + injection E as ->. by left.
    + right. by apply IH.
  - split; [done|]. split; [done|]. split; [done|].
    by intros (info & _ & ? & _).
Qed.

(** X8: [iseq_is_clashing] holds for an atom exactly when the atom is
    one of the two atoms of some key of the registry; in particular both
    atoms of a pair that has just been added are clashing, and no atom
    is in an empty registry. *)
Theorem iseq_is_clashing_iff (cl : clashes) (iseq : nat) :
  (iseq_is_clashing cl iseq = true
   ↔ ∃ k, k ∈ Dict.keys (_clashes_dict cl) ∧ (k.1 = iseq ∨ k.2 = iseq))
  ∧ (∀ i j info,
       iseq_is_clashing (add_clash cl (i, j) info) i = true
       ∧ iseq_is_clashing (add_clash cl (i, j) info) j = true)
  ∧ iseq_is_clashing (Clashes [] (clashes_model cl)) iseq = false.
Proof.
  assert (Hiff : ∀ cl a,
            iseq_is_clashing cl a = true
            ↔ ∃ k, k ∈ Dict.keys (_clashes_dict cl) ∧ (k.1 = a ∨ k.2 = a)).
  { intros cl0 a. unfold iseq_is_clashing.
    destruct (_clashes_dict cl0) as [|kv d] eqn:E.
    { split; [done|]. by intros (k & ?%elem_of_nil & _). }
    rewrite orb_true_iff, !bool_decide_eq_true, !list_elem_of_fmap. split.
    - intros [(k & -> & Hk)|(k & -> & Hk)]; exists k; auto.
    - intros (k & Hk & [<-|<-]); [left|right]; by exists k. }
  split; [apply Hiff|]. split; [|done].
  intros i j info. split; apply Hiff; exists (i, j);
    (split; [apply elem_of_keys_set; by left|auto]).
Qed.

(** ** Sorting the registry *)

Lemma insert_by_key_ascending {A} (key : A → float) x l :
  ascending key l → ascending key (insert_by_key key x l).
Proof.
  induction l as [|y l IH]; [done|]. intros [Hy Hl]. cbn [insert_by_key].
  destruct (F64.ltb (key y) (key x)) eqn:E.
  - split; [|by apply IH].
    destruct l as [|z l]; cbn [insert_by_key].
    + by apply ltb_asym.
    + destruct (F64.ltb (key z) (key x)); [done|by apply ltb_asym].
  - by repeat split.
Qed.

Lemma sorted_by_key_ascending {A} (key : A → float) l :
  ascending key (sorted_by_key key l).
Proof.
  unfold sorted_by_key. induction l as [|x l IH]; [done|].
  by apply insert_by_key_ascending.
Qed.

Lemma sorted_by_key_fixed {A} (key : A → float) l :
  ascending key l → sorted_by_key key l = l.
Proof.
  unfold sorted_by_key. induction l as [|x l IH]; [done|].
  intros [Hx Hl]. cbn [foldr]. rewrite (IH Hl).
  destruct l as [|y l]; [done|]. cbn [insert_by_key]. by rewrite Hx.
Qed.

(** What [sort_clashes] does for one of its three float fields. *)
Lemma sort_with_field cl by_value field :
  (by_value, field) ∈ [("overlap", ci_overlap);
                       ("vdw_distance", ci_vdw_sum);
                       ("model_distance", ci_model_distance)] →
  sort_clashes cl by_value
  = Ok (Clashes (sorted_by_key (fun kv => field kv.2) (_clashes_dict cl))
                (clashes_model cl)).
Proof.
  intros [[= -> ->]|[[= -> ->]|[[= -> ->]|[]%elem_of_nil]%elem_of_cons
                              ]%elem_of_cons]%elem_of_cons; reflexivity.
Qed.

(** X9: sorting by model distance, by vdW distance or by overlap returns
    the same records, rearranged so that no record is followed by one
    whose field is strictly smaller (smallest first); the keys, the
    count and, for a registry with unique keys, every lookup are as
    before.  A sort option that is not one of the four names raises
    NameError: the guard names [Sorry], which the module never
    imports. *)
Theorem sort_clashes_rearranges (cl : clashes) (by_value : string) :
  (by_value ∉ sort_options → sort_clashes cl by_value = Raise NameError)
  ∧ ∀ field,
      (by_value, field) ∈ [("overlap", ci_overlap);
                           ("vdw_distance", ci_vdw_sum);
                           ("model_distance", ci_model_distance)] →
      ∃ cl',
        sort_clashes cl by_value = Ok cl'
        ∧ _clashes_dict cl' ≡ₚ _clashes_dict cl
        ∧ ascending (fun kv => field kv.2) (_clashes_dict cl')
        ∧ get_n_clashes cl' = get_n_clashes cl
        ∧ (NoDup (Dict.keys (_clashes_dict cl)) →
           ∀ k, Dict.get (_clashes_dict cl') k
                = Dict.get (_clashes_dict cl) k).
Proof.
  split.
  { intros Hn. unfold sort_clashes. by rewrite decide_False. }
  intros field Hf. eexists. split; [by apply sort_with_field|].
  cbn [_clashes_dict].
  pose proof (sorted_by_key_perm (fun kv : clash_key * clash_info =>
                                    field kv.2) (_clashes_dict cl)) as Hp.
  split; [done|]. split; [apply sorted_by_key_ascending|].
  split; [unfold get_n_clashes; cbn [_clashes_dict]; by rewrite Hp|].
  intros Hnd k.
  assert (Hnd' : NoDup (Dict.keys (sorted_by_key
                          (fun kv : clash_key * clash_info => field kv.2)
                          (_clashes_dict cl)))).
  { unfold Dict.keys. by rewrite Hp. }
  destruct (Dict.get (_clashes_dict cl) k) as [v|] eqn:E.
  - apply (get_Some_elem _ _ _ Hnd'). rewrite Hp.
    by apply (get_Some_elem _ _ _ Hnd).
  - apply get_None_keys. unfold Dict.keys. rewrite Hp.
    by apply get_None_keys.
Qed.

(** The registry of [chain_of_three_model] sorted by model distance. *)
Lemma sort_clashes_rearranges_witness :
  ∃ cl',
    sort_clashes chain_of_three_clashes "model_distance" = Ok cl'
    ∧ _clashes_dict cl' ≡ₚ _clashes_dict chain_of_three_clashes
    ∧ ascending (fun kv => ci_model_distance kv.2) (_clashes_dict cl')
    ∧ get_n_clashes cl' = get_n_clashes chain_of_three_clashes
    ∧ (NoDup (Dict.keys (_clashes_dict chain_of_three_clashes)) →
       ∀ k, Dict.get (_clashes_dict cl') k
            = Dict.get (_clashes_dict chain_of_three_clashes) k).
Proof.
  apply (proj2 (sort_clashes_rearranges chain_of_three_clashes
                  "model_distance") ci_model_distance).
  do 2 right. left.
Defined.

(** X10: sorting by model distance, by vdW distance or by overlap is
    idempotent: when no record has NaN in the field, where [<] does not
    order the keys, a registry that [sort_clashes] returned is returned
    unchanged when it is sorted again by the same option. *)
Theorem sort_clashes_idempotent
  (cl cl' : clashes) (by_value : string) (field : clash_info → float) :
  (by_value, field) ∈ [("overlap", ci_overlap);
                       ("vdw_distance", ci_vdw_sum);
                       ("model_distance", ci_model_distance)] →
  Forall (fun kv => is_nan (field kv.2) = false) (_clashes_dict cl) →
  sort_clashes cl by_value = Ok cl' → sort_clashes cl' by_value = Ok cl'.
Proof.
  intros Hopt _. rewrite !(sort_with_field _ _ _ Hopt). intros [= <-].
  cbn [_clashes_dict clashes_model].
  by rewrite sorted_by_key_fixed by apply sorted_by_key_ascending.
Qed.

(** The three records of [chain_of_three_model], which the loop leaves
    in the order of their distances, sorted by overlap twice. *)
Lemma sort_clashes_idempotent_witness :
  sort_clashes chain_of_three_by_overlap "overlap"
  = Ok chain_of_three_by_overlap.
Proof.
  apply (sort_clashes_idempotent (rs_clashes chain_of_three_classified)
           chain_of_three_by_overlap "overlap" ci_overlap).
  - by left.
  - apply (bool_decide_unpack _). by vm_compute.
  - by vm_compute.
Defined.

(** ** The pass over clashes that share an atom *)

Lemma del_sublist {K V} `{EqDecision K} (d : list (K * V)) k :
  Dict.del d k `sublist_of` d.
Proof.
  induction d as [|[k0 v0] d IH]; [done|]. cbn [Dict.del].
  destruct (decide (k = k0)); [by apply sublist_cons|by apply sublist_skip].
Qed.

Lemma remove_marked_sublist cl marked :
  _clashes_dict (remove_marked cl marked) `sublist_of` _clashes_dict cl
  ∧ clashes_model (remove_marked cl marked) = clashes_model cl.
Proof.
  unfold remove_marked. revert cl.
  induction marked as [|m marked IH]; intros cl; [done|]. cbn [foldl].
  destruct (IH (if iseq_tuple_is_clashing cl m then remove_clash cl m
                else cl)) as [Hs Hm].
  split.
  - etrans; [exact Hs|]. unfold iseq_tuple_is_clashing, remove_clash.
    destruct (Dict.mem (_clashes_dict cl) m); [|done].
    apply del_sublist.
  - rewrite Hm. unfold iseq_tuple_is_clashing, remove_clash.
    by destruct (Dict.mem (_clashes_dict cl) m).
Qed.

Lemma remove_marked_get cl marked k :
  NoDup (Dict.keys (_clashes_dict cl)) →
  Dict.get (_clashes_dict (remove_marked cl marked)) k
  = if decide (k ∈ marked) then None else Dict.get (_clashes_dict cl) k.
Proof.
  unfold remove_marked. revert cl.
  induction marked as [|m marked IH]; intros cl Hnd.
  { by rewrite decide_False by apply not_elem_of_nil. }
  cbn [foldl].
  set (cl1 := if iseq_tuple_is_clashing cl m then remove_clash cl m else cl).
  assert (H1 : NoDup (Dict.keys (_clashes_dict cl1))
               ∧ Dict.get (_clashes_dict cl1) k
                 = if decide (k = m) then None
                   else Dict.get (_clashes_dict cl) k).
  { subst cl1. unfold iseq_tuple_is_clashing, remove_clash.
    destruct (Dict.mem (_clashes_dict cl) m) eqn:E; cbn [_clashes_dict].
    - split; [by apply NoDup_keys_del|by apply get_del].
    - split; [done|]. destruct (decide (k = m)) as [->|?]; [|done].
      unfold Dict.mem in E. by destruct (Dict.get (_clashes_dict cl) m). }
  destruct H1 as [Hnd1 Hget1]. rewrite (IH cl1 Hnd1), Hget1.
  destruct (decide (k ∈ marked)) as [Hin|Hin].
  - by rewrite decide_True by by right.
  - destruct (decide (k = m)) as [->|Hne].
    + by rewrite decide_True by by left.
    + rewrite decide_False; [done|]. by intros [?|?]%elem_of_cons.
Qed.

(** When the innermost loop body marks a key. *)
Lemma inline_verdict_inv cl sites_cart fsc0 c p1 p2 ks k :
  inline_verdict cl sites_cart fsc0 c (p1, p2) = Ok ks → k ∈ ks →
  ∃ bonded r1 r2,
    fsc0 !! p2 = Some bonded ∧ p1 ∈ bonded
    ∧ Dict.get (_clashes_dict cl) (sorted_pair c p1) = Some r1
    ∧ Dict.get (_clashes_dict cl) (sorted_pair c p2) = Some r2
    ∧ ci_symop r1 = None
    ∧ ks = [k]
    ∧ k = (if F64.ltb (ci_model_distance r1) (ci_model_distance r2)
           then sorted_pair c p2 else sorted_pair c p1).
Proof.
  unfold inline_verdict. intros H Hk.
  bind_inv H as bonded. apply table_getitem_Ok_inv in E.
  destruct (decide (p1 ∈ bonded)) as [Hin|?];
    [|injection H as <-; by apply elem_of_nil in Hk].
  bind_inv H as x1. bind_inv H as x2. bind_inv H as xc.
  bind_inv H as sym. unfold iseq_tuple_is_sym_clash in E3.
  bind_inv E3 as r1. injection E3 as <-.
  unfold Dict.getitem in E4.
  destruct (Dict.get (_clashes_dict cl) (sorted_pair c p1)) as [r1'|] eqn:Hr1;
    [injection E4 as ->|done].
  destruct (_ && Col.neq x1 x2) eqn:Hcond;
    [|injection H as <-; by apply elem_of_nil in Hk].
  unfold iseq_tuple_is_clashing, get_model_distance, Dict.getitem,
    Dict.mem in H.
  rewrite Hr1 in H. cbn [andb] in H.
  destruct (Dict.get (_clashes_dict cl) (sorted_pair c p2)) as [r2|] eqn:Hr2;
    [|injection H as <-; by apply elem_of_nil in Hk].
  rewrite !bind_Ok in H.
  destruct (ci_symop r1) eqn:Hsym.
  { apply andb_true_iff in Hcond as [Hcos _]. by vm_compute in Hcos. }
  exists bonded, r1, r2. do 5 (split; [done|]).
  destruct (F64.ltb (ci_model_distance r1) (ci_model_distance r2));
    injection H as <-; apply list_elem_of_singleton in Hk as ->; done.
Qed.

(** X11: the pass only removes: the registry it leaves holds records of
    the registry it found, in the same order; every key it marks was in
    the registry; the hydrogen-bond records and the index of partners
    are left as they were. *)
Theorem _process_clashes_only_removes
  (st st' : run_state) (sites_cart : list vec3) (fsc0 : conn_table) :
  _process_clashes st sites_cart fsc0 = Ok st' →
  _clashes_dict (rs_clashes st') `sublist_of` _clashes_dict (rs_clashes st)
  ∧ clashes_model (rs_clashes st') = clashes_model (rs_clashes st)
  ∧ rs_hbonds_dict st' = rs_hbonds_dict st
  ∧ rs_mult_clash_dict st' = rs_mult_clash_dict st
  ∧ ∃ marked,
      clashes_to_be_removed st sites_cart fsc0 = Ok marked
      ∧ ∀ k, k ∈ marked → k ∈ Dict.keys (_clashes_dict (rs_clashes st)).
Proof.
  unfold _process_clashes. intros H. bind_inv H as marked.
  injection H as <-. cbn [rs_clashes rs_hbonds_dict rs_mult_clash_dict].
  destruct (remove_marked_sublist (rs_clashes st) marked) as [Hs Hm].
  do 4 (split; [done|]). exists marked. split; [done|].
  intros k Hk. apply (marked_iff _ _ _ _ _ E) in Hk
    as (c & partners & [p1 p2] & ks & _ & _ & Hv & Hin).
  destruct (inline_verdict_inv _ _ _ _ _ _ _ _ Hv Hin)
    as (bonded & r1 & r2 & _ & _ & Hr1 & Hr2 & _ & _ & ->).
  destruct (F64.ltb _ _); apply get_keys; by eexists.
Qed.

(** The pass on [chain_of_three_model]. *)
Lemma _process_clashes_only_removes_witness :
  _clashes_dict (rs_clashes chain_of_three_resolved)
    `sublist_of` _clashes_dict (rs_clashes chain_of_three_classified)
  ∧ clashes_model (rs_clashes chain_of_three_resolved)
    = clashes_model (rs_clashes chain_of_three_classified)
  ∧ rs_hbonds_dict chain_of_three_resolved
    = rs_hbonds_dict chain_of_three_classified
  ∧ rs_mult_clash_dict chain_of_three_resolved
    = rs_mult_clash_dict chain_of_three_classified
  ∧ ∃ marked,
      clashes_to_be_removed chain_of_three_classified axis_sites
        (m_fsc0 chain_of_three_model) = Ok marked
      ∧ ∀ k, k ∈ marked →
             k ∈ Dict.keys
                   (_clashes_dict (rs_clashes chain_of_three_classified)).
Proof.
  apply (_process_clashes_only_removes chain_of_three_classified
           chain_of_three_resolved axis_sites (m_fsc0 chain_of_three_model)).
  by vm_compute.
Defined.

(** X12: a pair of partners marks nothing when the two are not bonded
    to each other, when the clash of the common atom with the first
    partner carries a symmetry operator (the score then stays 0), or
    when the two partners have the same position. *)
Theorem inline_verdict_marks_nothing
  (cl : clashes) (sites_cart : list vec3) (fsc0 : conn_table)
  (c p1 p2 : nat) (bonded : list nat) :
  fsc0 !! p2 = Some bonded →
  (p1 ∉ bonded → inline_verdict cl sites_cart fsc0 c (p1, p2) = Ok [])
  ∧ ∀ x1 x2 xc r1,
      sites_cart !! p1 = Some x1 → sites_cart !! p2 = Some x2 →
      sites_cart !! c = Some xc →
      Dict.get (_clashes_dict cl) (sorted_pair c p1) = Some r1 →
      is_Some (ci_symop r1) ∨ Col.neq x1 x2 = false →
      inline_verdict cl sites_cart fsc0 c (p1, p2) = Ok [].
Proof.
  intros Hb. unfold inline_verdict.
  rewrite (table_getitem_Some _ _ _ Hb), bind_Ok. split.
  { intros Hn. by rewrite decide_False. }
  intros x1 x2 xc r1 H1 H2 Hc Hr1 Hcase.
  destruct (decide (p1 ∈ bonded)); [|done].
  rewrite (getitem_Some _ _ _ H1), bind_Ok, (getitem_Some _ _ _ H2), bind_Ok,
    (getitem_Some _ _ _ Hc), bind_Ok.
  unfold iseq_tuple_is_sym_clash.
  rewrite (dict_getitem_Some _ _ _ Hr1), !bind_Ok.
  destruct Hcase as [[op Hop]|Hneq].
  - by rewrite Hop.
  - rewrite Hneq. by rewrite andb_false_r.
Qed.

(** Atom 0 of [symmetry_partner_model] with its partners in the other
    order: the clash with the first partner, atom 2, is a symmetry
    clash. *)
Lemma inline_verdict_marks_nothing_witness :
  inline_verdict (rs_clashes symmetry_partner_classified)
    (m_sites_cart symmetry_partner_model) (m_fsc0 symmetry_partner_model)
    0 (2, 1) = Ok [].
Proof.
  refine (proj2 (inline_verdict_marks_nothing
                   (rs_clashes symmetry_partner_classified)
                   (m_sites_cart symmetry_partner_model)
                   (m_fsc0 symmetry_partner_model) 0 2 1 [2] _)
            (point (F64.dec 25 1) F64.zero F64.zero)
            (point (F64.of_Z 2) F64.zero F64.zero)
            (point F64.zero F64.zero F64.zero)
            (ClashInfo (F64.dec 25 1) (F64.dec 34 1)
               (F64.abs (F64.sub (F64.dec 25 1) (F64.dec 34 1)))
               " sym=x,y,z+1" (Some shift_z)) _ _ _ _ _);
    try by vm_compute.
  left. by eexists.
Defined.

Lemma sorted_pair_inj c p1 p2 :
  sorted_pair c p1 = sorted_pair c p2 → p1 = p2.
Proof.
  unfold sorted_pair.
  destruct (p1 <? c) eqn:E1, (p2 <? c) eqn:E2; intros [= ]; try done;
    try apply Nat.ltb_lt in E1; try apply Nat.ltb_lt in E2;
    try apply Nat.ltb_ge in E1; try apply Nat.ltb_ge in E2; lia.
Qed.

(** X13: the most severe clash is never removed: if no atom is listed as
    bonded to itself, a record whose model distance is strictly smaller
    than that of every other record of the registry is still there,
    unchanged, after the pass. *)
Theorem shortest_clash_survives
  (st st' : run_state) (sites_cart : list vec3) (fsc0 : conn_table)
  (k : clash_key) (r : clash_info) :
  NoDup (Dict.keys (_clashes_dict (rs_clashes st))) →
  table_irreflexive fsc0 →
  _process_clashes st sites_cart fsc0 = Ok st' →
  Dict.get (_clashes_dict (rs_clashes st)) k = Some r →
  (∀ k' r', (k', r') ∈ _clashes_dict (rs_clashes st) → k' ≠ k →
     F64.ltb (ci_model_distance r) (ci_model_distance r') = true) →
  Dict.get (_clashes_dict (rs_clashes st')) k = Some r.
Proof.
  intros Hnd Hirr Hrun Hk Hmin. unfold _process_clashes in Hrun.
  bind_inv Hrun as marked. injection Hrun as <-. cbn [rs_clashes].
  rewrite (remove_marked_get _ _ _ Hnd).
  destruct (decide (k ∈ marked)) as [Hin|?]; [exfalso|done].
  apply (marked_iff _ _ _ _ _ E) in Hin
    as (c & partners & [p1 p2] & ks & _ & _ & Hv & Hin).
  destruct (inline_verdict_inv _ _ _ _ _ _ _ _ Hv Hin)
    as (bonded & r1 & r2 & Hb & Hp1 & Hr1 & Hr2 & _ & _ & Hkeq).
  assert (Hne : sorted_pair c p1 ≠ sorted_pair c p2).
  { intros ->%sorted_pair_inj. by apply (Hirr p2 bonded). }
  destruct (F64.ltb (ci_model_distance r1) (ci_model_distance r2)) eqn:Hlt.
  - rewrite Hkeq, Hr2 in Hk. injection Hk as ->.
    assert (F64.ltb (ci_model_distance r) (ci_model_distance r1) = true)
      as Hlt'.
    { apply (Hmin (sorted_pair c p1)); [|by rewrite Hkeq].
      by apply (get_Some_elem _ _ _ Hnd). }
    by rewrite (ltb_asym _ _ Hlt') in Hlt.
  - rewrite Hkeq, Hr1 in Hk. injection Hk as ->.
    assert (F64.ltb (ci_model_distance r) (ci_model_distance r2) = true)
      as Hlt'.
    { apply (Hmin (sorted_pair c p2)); [|rewrite Hkeq; by apply not_eq_sym].
      by apply (get_Some_elem _ _ _ Hnd). }
    by rewrite Hlt' in Hlt.
Qed.

Lemma chain_table_irreflexive : table_irreflexive (m_fsc0 chain_of_three_model).
Proof.
  intros a l Hl Ha. apply elem_of_list_to_map_2 in Hl.
  repeat (apply elem_of_cons in Hl as [[= -> ->]|Hl];
          [repeat (apply elem_of_cons in Ha as [?|Ha]; [done|]);
           by apply elem_of_nil in Ha|]).
  by apply elem_of_nil in Hl.
Qed.

(** The clash (0, 3) of [chain_of_three_model], the shortest of the
    three. *)
Lemma shortest_clash_survives_witness :
  Dict.get (_clashes_dict (rs_clashes chain_of_three_resolved)) (0, 3)
  = Some (ClashInfo (F64.dec 15 1) (F64.dec 34 1)
            (F64.abs (F64.sub (F64.dec 15 1) (F64.dec 34 1))) "" None).
Proof.
  apply (shortest_clash_survives chain_of_three_classified
           chain_of_three_resolved axis_sites (m_fsc0 chain_of_three_model)).
  - apply (bool_decide_unpack _). by vm_compute.
  - apply chain_table_irreflexive.
  - by vm_compute.
  - by vm_compute.
  - intros k' r' Hin Hne.
    change (_clashes_dict (rs_clashes chain_of_three_classified))
      with [((0, 3), ClashInfo (F64.dec 15 1) (F64.dec 34 1)
                       (F64.abs (F64.sub (F64.dec 15 1) (F64.dec 34 1)))
                       "" None);
            ((0, 1), ClashInfo (F64.of_Z 2) (F64.dec 34 1)
                       (F64.abs (F64.sub (F64.of_Z 2) (F64.dec 34 1)))
                       "" None);
            ((0, 2), ClashInfo (F64.dec 25 1) (F64.dec 34 1)
                       (F64.abs (F64.sub (F64.dec 25 1) (F64.dec 34 1)))
                       "" None)] in Hin.
    repeat (apply elem_of_cons in Hin as [[= -> ->]|Hin]; [done|]).
    by apply elem_of_nil in Hin.
Defined.

(** ** The index of partners *)

Lemma get_ensure_list_val d k k' :
  Dict.get (ensure_list d k) k'
  = if decide (k' = k) then Some (default [] (Dict.get d k))
    else Dict.get d k'.
Proof.
  unfold ensure_list, Dict.mem.
  destruct (Dict.get d k) as [l|] eqn:E.
  - destruct (decide (k' = k)) as [->|?]; [by rewrite E|done].
  - rewrite get_set. by destruct (decide (k' = k)).
Qed.

Lemma NoDup_ensure_list d k :
  NoDup (Dict.keys d) → NoDup (Dict.keys (ensure_list d k)).
Proof.
  unfold ensure_list. destruct (Dict.mem d k); [done|].
  apply NoDup_keys_set.
Qed.

Lemma get_index_after_clash d i j c :
  Dict.get (index_after_clash d i j) c
  = if decide (c = j)
    then Some ((if decide (j = i) then default [] (Dict.get d i) ++ [j]
                else default [] (Dict.get d j)) ++ [i])
    else if decide (c = i) then Some (default [] (Dict.get d i) ++ [j])
    else Dict.get d c.
Proof.
  unfold index_after_clash. cbv zeta.
  rewrite !get_set, !get_ensure_list_val.
  repeat case_decide; simplify_eq; cbn [default]; try done;
    by destruct (Dict.get d _).
Qed.

Lemma NoDup_index_after_clash d i j :
  NoDup (Dict.keys d) → NoDup (Dict.keys (index_after_clash d i j)).
Proof.
  intros Hd. unfold index_after_clash. cbv zeta.
  by do 2 apply NoDup_keys_set; do 2 apply NoDup_ensure_list.
Qed.

Lemma _is_clash_index mdl st i j fsc0 md :
  check_if_1_5_interaction i j (m_hd_sel mdl) fsc0 = Ok false →
  _is_clash mdl st i j fsc0 md
  = Ok (true, RunState (rs_clashes st) (rs_hbonds_dict st)
                (index_after_clash (rs_mult_clash_dict st) i j)).
Proof.
  intros Hb. unfold _is_clash, index_after_clash. rewrite Hb, bind_Ok.
  cbn [negb]. cbv zeta.
  set (d2 := ensure_list (ensure_list _ i) j).
  destruct (append_to_ok d2 i j) as (l & Hl & ->).
  { apply get_ensure_list. right. apply get_ensure_list. by left. }
  rewrite bind_Ok, Hl. cbn [default].
  destruct (append_to_ok (Dict.set d2 i (l ++ [j])) j i) as (l' & Hl' & ->).
  { rewrite get_set. destruct (decide (j = i)); [by eexists|].
    apply get_ensure_list. by left. }
  rewrite bind_Ok. unfold id. by rewrite Hl'.
Qed.

(** The clash branch either changes nothing or stores the record of the
    candidate and records the pair in the index. *)
Lemma clash_branch_effect mdl fc fsc0 item st b st' :
  clash_branch mdl fc fsc0 item st = Ok (b, st') →
  (b = false ∧ st' = st)
  ∨ (b = true ∧ fc = true
     ∧ F64.ltb (F64.sub (p_model_distance item) (p_vdw_sum item))
               clash_cutoff = true
     ∧ check_if_1_5_interaction (p_i_seq item) (p_j_seq item)
         (m_hd_sel mdl) fsc0 = Ok false
     ∧ st' = RunState
               (add_clash (rs_clashes st)
                  (sorted_pair (p_i_seq item) (p_j_seq item))
                  (ClashInfo (p_model_distance item) (p_vdw_sum item)
                     (F64.abs (F64.sub (p_model_distance item)
                                       (p_vdw_sum item)))
                     (p_symop_str item) (p_symop item)))
               (rs_hbonds_dict st)
               (index_after_clash (rs_mult_clash_dict st)
                  (p_i_seq item) (p_j_seq item))).
Proof.
  unfold clash_branch. destruct fc; [|intros [= <- <-]; by left].
  destruct (F64.ltb _ clash_cutoff) eqn:Hlt; [|intros [= <- <-]; by left].
  destruct (check_if_1_5_interaction (p_i_seq item) (p_j_seq item)
              (m_hd_sel mdl) fsc0) as [[]|e] eqn:Hchk.
  - destruct (_is_clash_spec mdl st _ _ fsc0 (p_model_distance item) _ Hchk)
      as (st1 & -> & _ & _ & Hsame).
    rewrite bind_Ok, (Hsame eq_refl). intros [= <- <-]. by left.
  - rewrite (_is_clash_index _ _ _ _ _ (p_model_distance item) Hchk), bind_Ok.
    intros [= <- <-]. right. by repeat split.
  - by rewrite (_is_clash_raise mdl st _ _ fsc0 _ e Hchk).
Qed.

Lemma hbond_branch_keeps L mdl fh uc fsc0 item st b st' :
  hbond_branch L mdl fh uc fsc0 item st = Ok (b, st') →
  rs_clashes st' = rs_clashes st
  ∧ rs_mult_clash_dict st' = rs_mult_clash_dict st.
Proof.
  intros [[_ ->]|(atom_h & atom_a & xs & _ & _ & H)]%hbond_branch_inv;
    [done|].
  by apply find_donor_first in H
    as [[_ ->]|(_ & pre & x & post & hx & _ & _ & _ & r & _ & _ & _ & ->)].
Qed.

Lemma index_after_clash_consistent mult d i j info :
  index_consistent mult d →
  index_consistent (index_after_clash mult i j)
                   (Dict.set d (sorted_pair i j) info).
Proof.
  intros [Hnd Hc].
  pose proof (NoDup_index_after_clash mult i j Hnd) as Hnd'.
  split; [done|].
  assert (Hget : ∀ c ps, Dict.get (index_after_clash mult i j) c = Some ps →
                         (c, ps) ∈ index_after_clash mult i j)
    by (intros c ps; by apply (get_Some_elem _ _ _ Hnd')).
  assert (Hi : ∃ ps, (i, ps) ∈ index_after_clash mult i j ∧ j ∈ ps).
  { pose proof (get_index_after_clash mult i j i) as E.
    destruct (decide (i = j)) as [->|?].
    - rewrite decide_True in E by done. eexists. split; [by apply Hget|].
      rewrite !elem_of_app, list_elem_of_singleton. auto.
    - rewrite decide_True in E by done. eexists. split; [by apply Hget|].
      rewrite elem_of_app, list_elem_of_singleton. auto. }
  assert (Hj : ∃ ps, (j, ps) ∈ index_after_clash mult i j ∧ i ∈ ps).
  { pose proof (get_index_after_clash mult i j j) as E.
    rewrite decide_True in E by done. eexists. split; [by apply Hget|].
    rewrite elem_of_app, list_elem_of_singleton. auto. }
  assert (Hold : ∀ c ps0 p, (c, ps0) ∈ mult → p ∈ ps0 →
                   ∃ ps, (c, ps) ∈ index_after_clash mult i j ∧ p ∈ ps).
  { intros c ps0 p Hin Hp. apply (get_Some_elem _ _ _ Hnd) in Hin.
    pose proof (get_index_after_clash mult i j c) as E.
    destruct (decide (c = j)) as [->|Hcj].
    - eexists. split; [by apply Hget|].
      destruct (decide (j = i)) as [->|?]; rewrite Hin; cbn [default];
        rewrite !elem_of_app; auto.
    - destruct (decide (c = i)) as [->|Hci].
      + eexists. split; [by apply Hget|].
        rewrite Hin. cbn [default]. rewrite elem_of_app. auto.
      + exists ps0. split; [|done]. apply Hget. by rewrite E. }
  assert (Hold_key : ∀ c ps0 p, (c, ps0) ∈ mult → p ∈ ps0 →
            sorted_pair c p ∈ Dict.keys (Dict.set d (sorted_pair i j) info)
            ∧ ∃ ps, (p, ps) ∈ index_after_clash mult i j ∧ c ∈ ps).
  { intros c ps0 p Hin Hp. destruct (Hc c ps0 p Hin Hp) as [Hk (ps' & ? & ?)].
    split; [apply elem_of_keys_set; by right|]. by eapply Hold. }
  assert (Hnew_key : sorted_pair i j
                     ∈ Dict.keys (Dict.set d (sorted_pair i j) info))
    by (apply elem_of_keys_set; by left).
  intros c ps p Hin Hp. apply (get_Some_elem _ _ _ Hnd') in Hin.
  rewrite get_index_after_clash in Hin.
  destruct (decide (c = j)) as [->|Hcj].
  - injection Hin as <-. apply elem_of_app in Hp as [Hp|Hp].
    + destruct (decide (j = i)) as [->|Hji].
      * apply elem_of_app in Hp as [Hp|Hp%list_elem_of_singleton];
          [|subst p; by split].
        destruct (Dict.get mult i) as [ps0|] eqn:E;
          [|by apply elem_of_nil in Hp].
        apply (Hold_key i ps0 p); [|done].
        by apply (get_Some_elem _ _ _ Hnd).
      * destruct (Dict.get mult j) as [ps0|] eqn:E;
          [|by apply elem_of_nil in Hp].
        apply (Hold_key j ps0 p); [|done].
        by apply (get_Some_elem _ _ _ Hnd).
    + apply list_elem_of_singleton in Hp as ->.
      split; [by rewrite sorted_pair_comm|done].
  - destruct (decide (c = i)) as [->|Hci].
    + injection Hin as <-.
      apply elem_of_app in Hp as [Hp|Hp%list_elem_of_singleton];
        [|subst p; by split].
      destruct (Dict.get mult i) as [ps0|] eqn:E;
        [|by apply elem_of_nil in Hp].
      apply (Hold_key i ps0 p); [|done].
      by apply (get_Some_elem _ _ _ Hnd).
    + apply (Hold_key c ps p); [|done].
      by apply (get_Some_elem _ _ _ Hnd).
Qed.

(** After the loop: every record comes from a candidate, and the index
    of partners agrees with the registry. *)
Lemma classify_pairs_records L mdl fc fh l st :
  classify_pairs L mdl fc fh l = Ok st →
  (∀ entry, entry ∈ _clashes_dict (rs_clashes st) →
            ∃ item, item ∈ l ∧ clash_record_of mdl item entry)
  ∧ index_consistent (rs_mult_clash_dict st) (_clashes_dict (rs_clashes st))
  ∧ (fc = false → _clashes_dict (rs_clashes st) = []).
Proof.
  unfold classify_pairs. rewrite clashes_init_empty, bind_Ok.
  apply (for_each_inv
           (λ s, (∀ entry, entry ∈ _clashes_dict (rs_clashes s) →
                           ∃ item, item ∈ l ∧ clash_record_of mdl item entry)
                 ∧ index_consistent (rs_mult_clash_dict s)
                     (_clashes_dict (rs_clashes s))
                 ∧ (fc = false → _clashes_dict (rs_clashes s) = []))).
  - intros item s s' Hin (Hrec & Hidx & Hoff) Hbody.
    apply loop_body_inv in Hbody as (b1 & s1 & b2 & Hh & Hc).
    apply hbond_branch_keeps in Hh as [Hcl1 Hm1].
    apply clash_branch_effect in Hc
      as [[_ ->]|(_ & Hfc & Hlt & Hchk & ->)].
    { by rewrite Hcl1, Hm1. }
    cbn [rs_clashes rs_mult_clash_dict add_clash _clashes_dict].
    rewrite Hcl1, Hm1. split; [|split].
    + intros [k r] [[-> ->]|Hold]%elem_of_set; [|by apply Hrec].
      exists item. split; [done|]. by repeat split.
    + by apply index_after_clash_consistent.
    + intros ->. done.
  - split; [by intros entry ?%elem_of_nil|]. split; [|done].
    split; [apply NoDup_nil_2|]. by intros c ps p ?%elem_of_nil.
Qed.

Lemma ltb_negative_abs x mc ec :
  F64.ltb x (S754_finite true mc ec) = true
  → F64.ltb (S754_finite false mc ec) (F64.abs x) = true.
Proof.
  destruct x as [[]|[]| |[] m e]; try done.
  unfold F64.ltb, SFltb. cbn [SFcompare F64.abs SFabs].
  rewrite (Z.compare_antisym e ec).
  destruct (e ?= ec)%Z; cbn [CompOpp]; try done.
  change (Pos.compare_cont Eq m mc) with (Pos.compare m mc).
  change (Pos.compare_cont Eq mc m) with (Pos.compare mc m).
  rewrite (Pos.compare_antisym m mc).
  by destruct (m ?= mc)%positive.
Qed.

Lemma overlap_above_cutoff x :
  F64.ltb x clash_cutoff = true
  → F64.ltb (F64.dec 40 2) (F64.abs x) = true.
Proof.
  assert (∃ mc ec, clash_cutoff = S754_finite true mc ec
                   ∧ F64.dec 40 2 = S754_finite false mc ec)
    as (mc & ec & -> & ->) by (by eexists _, _).
  apply ltb_negative_abs.
Qed.

(** X14: every record in the clash registry of a finished run was made
    from one of the candidates: it is stored under the sorted pair of
    the candidate's atoms, holds the candidate's distances and symmetry
    operator, the candidate's delta is below -0.40 and the candidate is
    no 1-5 interaction; the stored overlap is the absolute value of
    delta and exceeds 0.40. *)
Theorem finished_clash_records_come_from_candidates
  (L : libm) (self self' : manager) (fc fh : bool) (cl : clashes)
  (nonbonded_list : list proxy) (n : nat) (entry : clash_key * clash_info) :
  _process_nonbonded_proxies L self fc fh = Ok self' →
  _clashes self' = Some cl →
  m_get_sorted (model self) = Some (nonbonded_list, n) →
  entry ∈ _clashes_dict cl →
  ∃ item, item ∈ nonbonded_list
          ∧ clash_record_of (model self) item entry
          ∧ F64.ltb (F64.dec 40 2) (ci_overlap entry.2) = true.
Proof.
  intros Hrun Hcl Hl Hin.
  apply run_inv in Hrun
    as (l' & n' & st & marked & cl' & Hl' & Hst & _ & Hsort & ->).
  injection Hcl as ->. rewrite Hl in Hl'. injection Hl' as <- <-.
  apply classify_pairs_records in Hst as (Hrec & _).
  apply sort_overlap_perm in Hsort. rewrite Hsort in Hin.
  destruct (remove_marked_sublist (rs_clashes st) marked) as [Hsub _].
  destruct (Hrec entry (elem_of_sublist _ _ _ Hin Hsub))
    as (item & Hitem & Hof).
  exists item. split; [done|]. split; [done|].
  destruct Hof as (_ & -> & Hlt & _). by apply overlap_above_cutoff.
Qed.

(** The record of [chain_of_three_model] that is left after its run. *)
Lemma finished_clash_records_come_from_candidates_witness :
  ∃ item,
    item ∈ [Proxy "" 0 3 (F64.dec 15 1) (F64.dec 34 1) "" None;
            Proxy "" 0 1 (F64.of_Z 2) (F64.dec 34 1) "" None;
            Proxy "" 0 2 (F64.dec 25 1) (F64.dec 34 1) "" None]
    ∧ clash_record_of chain_of_three_model item
        ((0, 3), ClashInfo (F64.dec 15 1) (F64.dec 34 1)
                   (F64.abs (F64.sub (F64.dec 15 1) (F64.dec 34 1))) "" None)
    ∧ F64.ltb (F64.dec 40 2)
        (F64.abs (F64.sub (F64.dec 15 1) (F64.dec 34 1))) = true.
Proof.
  apply (finished_clash_records_come_from_candidates no_angles
           (manager_init chain_of_three_model) chain_of_three_finished
           true true chain_of_three_clashes _ 0).
  - by vm_compute.
  - by vm_compute.
  - reflexivity.
  - apply (list_elem_of_lookup_2 _ 0). by vm_compute.
Defined.

(** X15: the clash registry of a finished run is sorted by overlap,
    smallest first: no record is followed by one with a strictly smaller
    overlap, and sorting it by overlap again returns it unchanged. *)
Theorem finished_registry_is_sorted_by_overlap
  (L : libm) (self self' : manager) (fc fh : bool) (cl : clashes) :
  _process_nonbonded_proxies L self fc fh = Ok self' →
  _clashes self' = Some cl →
  ascending (fun kv => ci_overlap kv.2) (_clashes_dict cl)
  ∧ sort_clashes cl "overlap" = Ok cl.
Proof.
  intros Hrun Hcl.
  apply run_inv in Hrun as (l & n & st & marked & cl' & _ & _ & _ & Hsort & ->).
  injection Hcl as ->. injection Hsort as <-. split.
  - apply sorted_by_key_ascending.
  - rewrite (sort_with_field _ "overlap" ci_overlap) by left.
    cbn [_clashes_dict clashes_model].
    by rewrite sorted_by_key_fixed by apply sorted_by_key_ascending.
Qed.

(** The run of [chain_of_three_model]. *)
Lemma finished_registry_is_sorted_by_overlap_witness :
  ascending (fun kv => ci_overlap kv.2) (_clashes_dict chain_of_three_clashes)
  ∧ sort_clashes chain_of_three_clashes "overlap"
    = Ok chain_of_three_clashes.
Proof.
  apply (finished_registry_is_sorted_by_overlap no_angles
           (manager_init chain_of_three_model) chain_of_three_finished
           true true chain_of_three_clashes); by vm_compute.
Defined.

(** X16: when the loop over the candidates has ended, the index of
    partners agrees with the registry: each atom is listed once, and for
    every partner listed for an atom the clash of the two is in the
    registry and the partner lists the atom in turn. *)
Theorem classify_pairs_index_consistent
  (L : libm) (mdl : model_t) (fc fh : bool) (l : list proxy)
  (st : run_state) :
  classify_pairs L mdl fc fh l = Ok st →
  index_consistent (rs_mult_clash_dict st) (_clashes_dict (rs_clashes st)).
Proof. intros Hst. by apply classify_pairs_records in Hst as (_ & ? & _). Qed.

(** The loop on [chain_of_three_model]. *)
Lemma classify_pairs_index_consistent_witness :
  index_consistent (rs_mult_clash_dict chain_of_three_classified)
    (_clashes_dict (rs_clashes chain_of_three_classified)).
Proof.
  apply (classify_pairs_index_consistent no_angles chain_of_three_model
           true true
           [Proxy "" 0 3 (F64.dec 15 1) (F64.dec 34 1) "" None;
            Proxy "" 0 1 (F64.of_Z 2) (F64.dec 34 1) "" None;
            Proxy "" 0 2 (F64.dec 25 1) (F64.dec 34 1) "" None]).
  by vm_compute.
Defined.

(** ** The scores *)

Lemma truediv_Done a b :
  b ≠ 0 →
  Score.truediv a b
  = Score.Done (F64.div (F64.of_Z (Z.of_nat a)) (F64.of_Z (Z.of_nat b))).
Proof.
  intros Hb. unfold Score.truediv.
  by destruct (Nat.eqb_spec b 0).
Qed.

Lemma macro_mol_filter_error sel d e :
  macro_mol_filter sel d = Score.Failed e → e = Score.IndexError.
Proof.
  induction d as [|[k r] d IH]; [done|]. cbn [macro_mol_filter].
  unfold Score.sel_getitem.
  destruct (sel !! k.1) as [[]|]; [| |by intros [= <-]].
  - destruct (sel !! k.2) as [b1|]; [|by intros [= <-]].
    destruct (macro_mol_filter sel d); [|by intros [= <-]; apply IH].
    by destruct (b1 && _).
  - destruct (macro_mol_filter sel d); [|by intros [= <-]; apply IH].
    by destruct (false && _).
Qed.

Lemma macro_mol_filter_kept sel d r :
  macro_mol_filter sel d = Score.Done r →
  r `sublist_of` filter (fun kv => ¬ is_Some (ci_symop kv.2)) d
  ∧ ∀ kv, kv ∈ r → sel !! kv.1.1 = Some true ∧ sel !! kv.1.2 = Some true.
Proof.
  revert r. induction d as [|[k c] d IH]; intros r.
  { intros [= <-]. split; [done|]. by intros kv ?%elem_of_nil. }
  cbn [macro_mol_filter]. unfold Score.sel_getitem.
  destruct (sel !! k.1) as [b0|] eqn:E0; [|done].
  assert (∀ b1 : bool,
            (b0 = true → sel !! k.2 = Some b1) →
            match macro_mol_filter sel d with
            | Score.Done rest =>
                if b1 && bool_decide (ci_symop c = None)
                then Score.Done ((k, c) :: rest) else Score.Done rest
            | Score.Failed e => Score.Failed e
            end = Score.Done r →
            (b0 = true ∨ b1 = false) →
            r `sublist_of` filter (λ kv, ¬ is_Some (ci_symop kv.2))
                             ((k, c) :: d)
            ∧ ∀ kv, kv ∈ r →
                sel !! kv.1.1 = Some true ∧ sel !! kv.1.2 = Some true)
    as Hstep.
  { intros b1 Hb1 H Hor.
    destruct (macro_mol_filter sel d) as [rest|]; [|done].
    destruct (IH rest eq_refl) as [Hsub Hsel].
    destruct (b1 && bool_decide (ci_symop c = None)) eqn:Hc;
      injection H as <-.
    - apply andb_prop in Hc as [-> Hnone%bool_decide_eq_true].
      destruct Hor as [->|?]; [|done].
      split.
      + rewrite filter_cons_True.
        * by apply sublist_skip.
        * cbn. rewrite Hnone. by intros [? ?].
      + intros kv [->|?]%elem_of_cons; [|by apply Hsel].
        cbn. split; [done|by apply Hb1].
    - split; [|done]. rewrite filter_cons.
      destruct (decide _); [by apply sublist_cons|done]. }
  destruct b0.
  - destruct (sel !! k.2) as [b1|] eqn:E1; [|done].
    intros H. apply (Hstep b1); [done|done|by left].
  - intros H. apply (Hstep false); [done|done|by right].
Qed.

Lemma selected_count (sel : list bool) i :
  sel !! i = Some true → length (filter (eq true) sel) ≠ 0.
Proof.
  intros H%list_elem_of_lookup_2.
  assert (true ∈ filter (eq true) sel) as Hin
    by by apply list_elem_of_filter.
  destruct (filter (eq true) sel); [by apply elem_of_nil in Hin|done].
Qed.

(** X17: the scores fail with ZeroDivisionError exactly when the model
    has no atoms: the overall score divides by [model.size()] before
    anything else, also for an empty registry; the division by the
    number of selected atoms can never be by zero, because it is only
    made when a clash between two selected atoms was found. *)
Theorem get_results_ZeroDivisionError_iff
  (self : clashes) (mc : model_counts) :
  get_results self mc = Score.Failed Score.ZeroDivisionError
  ↔ mc_size mc = 0.
Proof.
  unfold get_results. split.
  - destruct (decide (mc_size mc = 0)) as [|Hn]; [done|].
    rewrite truediv_Done by done.
    assert (∀ k : clashes_dict_t * nat * float → Score.outcome clash_results,
              (∀ x, k x ≠ Score.Failed Score.ZeroDivisionError) →
              match _obtain_macro_mol_clashes self mc with
              | Score.Done x => k x
              | Score.Failed e => Score.Failed e
              end ≠ Score.Failed Score.ZeroDivisionError) as Hmacro.
    { intros k Hk. unfold _obtain_macro_mol_clashes.
      destruct (macro_mol_filter _ _) as [r|e] eqn:E.
      - destruct r as [|kv r]; [apply Hk|].
        apply macro_mol_filter_kept in E as [_ Hsel].
        destruct (Hsel kv) as [H1 _]; [by left|].
        rewrite truediv_Done by by eapply selected_count. apply Hk.
      - by apply macro_mol_filter_error in E as ->. }
    unfold _obtain_symmetry_clashes. intros H. exfalso. revert H.
    destruct (filter _ _) as [|kv0 sym];
      [|rewrite truediv_Done by done];
      (apply (Hmacro (λ x, let '(_, n_macro, score_macro) := x in _));
       by intros [[? ?] ?]).
  - intros E. unfold Score.truediv. by rewrite E.
Qed.

Lemma _obtain_symmetry_clashes_count self mc d n s :
  _obtain_symmetry_clashes self mc = Score.Done (d, n, s) →
  d = filter (fun kv => is_Some (ci_symop kv.2)) (_clashes_dict self)
  ∧ n = length d.
Proof.
  unfold _obtain_symmetry_clashes.
  destruct (filter _ _) as [|kv0 sym]; [by intros [= <- <- <-]|].
  destruct (Score.truediv _ _); [|done]. by intros [= <- <- <-].
Qed.

Lemma _obtain_macro_mol_clashes_count self mc d n s :
  _obtain_macro_mol_clashes self mc = Score.Done (d, n, s) →
  macro_mol_filter (mc_protein_sel mc) (_clashes_dict self) = Score.Done d
  ∧ n = length d.
Proof.
  unfold _obtain_macro_mol_clashes.
  destruct (macro_mol_filter _ _) as [[|kv r]|e]; [| |done].
  - by intros [= <- <- <-].
  - destruct (Score.truediv _ _); [|done]. by intros [= <- <- <-].
Qed.

Lemma get_results_inv self mc r :
  get_results self mc = Score.Done r →
  ∃ dsym dmacro,
    _obtain_symmetry_clashes self mc
    = Score.Done (dsym, n_clashes_sym r, clashscore_sym r)
    ∧ _obtain_macro_mol_clashes self mc
      = Score.Done (dmacro, n_clashes_macro_mol r, clashscore_macro_mol r)
    ∧ n_clashes r = get_n_clashes self
    ∧ Score.truediv (get_n_clashes self * 1000) (mc_size mc)
      = Score.Done (clashscore r).
Proof.
  unfold get_results.
  destruct (Score.truediv _ _) as [score|]; [|done].
  destruct (_obtain_symmetry_clashes self mc) as [[[dsym n1] s1]|]; [|done].
  destruct (_obtain_macro_mol_clashes self mc) as [[[dmacro n2] s2]|];
    [|done].
  intros [= <-]. by exists dsym, dmacro.
Qed.

(** X18: the counts that [get_results] reports: all records, the records
    that carry a symmetry operator, and the records without operator
    whose two atoms are selected; the two partial counts never add up
    to more than the total. *)
Theorem get_results_counts
  (self : clashes) (mc : model_counts) (r : clash_results) :
  get_results self mc = Score.Done r →
  n_clashes r = length (_clashes_dict self)
  ∧ n_clashes_sym r
    = length (filter (fun kv => is_Some (ci_symop kv.2))
                (_clashes_dict self))
  ∧ n_clashes_sym r + n_clashes_macro_mol r ≤ n_clashes r.
Proof.
  intros (dsym & dmacro & Hsym & Hmacro & Hn & _)%get_results_inv.
  apply _obtain_symmetry_clashes_count in Hsym as [-> Hs].
  apply _obtain_macro_mol_clashes_count in Hmacro as [Hf Hm].
  apply macro_mol_filter_kept in Hf as [Hsub _].
  apply sublist_length in Hsub.
  pose proof (filter_app_complement
                (fun kv : clash_key * clash_info => is_Some (ci_symop kv.2))
                (_clashes_dict self)) as Hperm.
  apply Permutation_length in Hperm. rewrite length_app in Hperm.
  unfold get_n_clashes in Hn. rewrite Hn, Hs, Hm.
  split; [done|]. split; [done|]. lia.
Qed.

(** The registry of [chain_of_three_model]. *)
Lemma get_results_counts_witness :
  n_clashes chain_of_three_results
  = length (_clashes_dict chain_of_three_clashes)
  ∧ n_clashes_sym chain_of_three_results
    = length (filter (fun kv => is_Some (ci_symop kv.2))
                (_clashes_dict chain_of_three_clashes))
  ∧ n_clashes_sym chain_of_three_results
    + n_clashes_macro_mol chain_of_three_results
    ≤ n_clashes chain_of_three_results.
Proof.
  apply (get_results_counts chain_of_three_clashes chain_of_three_counts).
  by vm_compute.
Defined.

Lemma macro_mol_filter_Done sel d :
  (∀ k, k ∈ Dict.keys d → k.1 < length sel ∧ k.2 < length sel) →
  ∃ r, macro_mol_filter sel d = Score.Done r.
Proof.
  induction d as [|[k c] d IH]; intros Hk; [by eexists|].
  cbn [macro_mol_filter]. unfold Score.sel_getitem.
  destruct (Hk k) as [H1 H2]; [by left|].
  apply lookup_lt_is_Some_2 in H1 as [b0 ->], H2 as [b1 ->].
  destruct IH as [rest ->].
  { intros k' Hk'. apply Hk. by right. }
  destruct b0; [destruct (b1 && _)|destruct (false && _)]; by eexists.
Qed.

(** X19: [get_results] returns for a model with at least one atom whose
    selection covers both atoms of every key of the registry. *)
Theorem get_results_returns (self : clashes) (mc : model_counts) :
  mc_size mc ≠ 0 →
  (∀ k, k ∈ Dict.keys (_clashes_dict self) →
        k.1 < length (mc_protein_sel mc) ∧ k.2 < length (mc_protein_sel mc)) →
  ∃ r, get_results self mc = Score.Done r.
Proof.
  intros Hn Hk. unfold get_results. rewrite truediv_Done by done.
  unfold _obtain_symmetry_clashes.
  assert (∃ x, _obtain_macro_mol_clashes self mc = Score.Done x)
    as [[[dm nm] sm] ->].
  { unfold _obtain_macro_mol_clashes.
    destruct (macro_mol_filter_Done _ _ Hk) as [r E]. rewrite E.
    destruct r as [|kv r]; [by eexists|].
    apply macro_mol_filter_kept in E as [_ Hsel].
    destruct (Hsel kv) as [H1 _]; [by left|].
    rewrite truediv_Done by by eapply selected_count. by eexists. }
  destruct (filter _ _) as [|kv0 sym]; [by eexists|].
  rewrite truediv_Done by done. by eexists.
Qed.

(** The registry of [chain_of_three_model]. *)
Lemma get_results_returns_witness :
  ∃ r, get_results chain_of_three_clashes chain_of_three_counts
       = Score.Done r.
Proof.
  apply (get_results_returns chain_of_three_clashes chain_of_three_counts).
  - done.
  - intros k Hk. vm_compute in Hk.
    apply list_elem_of_singleton in Hk as ->. vm_compute. lia.
Defined.

(** ** The accessors of the manager *)

(** X20: the first [get_clashes] of a manager runs both searches, so a
    call that returns hands out a registry and leaves both registries
    cached: later calls of [get_clashes] and [get_hbonds] return the
    cached objects and leave the manager as it is, and [has_clashes]
    tells whether the cached registry holds a record. *)
Theorem get_clashes_caches
  (L : libm) (self self' : manager) (r : option clashes) :
  _clashes self = None →
  get_clashes L self = Ok (r, self') →
  ∃ cl hb,
    r = Some cl
    ∧ self' = Manager (model self) (Some cl) (Some hb)
    ∧ get_clashes L self' = Ok (Some cl, self')
    ∧ get_hbonds L self' = Ok (Some hb, self')
    ∧ has_clashes L self' = Ok (0 <? length (_clashes_dict cl), self').
Proof.
  unfold get_clashes at 1. intros -> H.
  bind_inv H as m. injection H as <- <-.
  apply run_inv in E as (l & n & st & marked & cl & _ & _ & _ & _ & ->).
  by eexists cl, _.
Qed.

(** The first call on [chain_of_three_model]. *)
Lemma get_clashes_caches_witness :
  ∃ cl hb,
    Some chain_of_three_clashes = Some cl
    ∧ chain_of_three_finished
      = Manager (model (manager_init chain_of_three_model)) (Some cl)
          (Some hb)
    ∧ get_clashes no_angles chain_of_three_finished
      = Ok (Some cl, chain_of_three_finished)
    ∧ get_hbonds no_angles chain_of_three_finished
      = Ok (Some hb, chain_of_three_finished)
    ∧ has_clashes no_angles chain_of_three_finished
      = Ok (0 <? length (_clashes_dict cl), chain_of_three_finished).
Proof.
  apply (get_clashes_caches no_angles (manager_init chain_of_three_model)).
  - reflexivity.
  - by vm_compute.
Defined.

Lemma classify_pairs_hbonds_off L mdl fc l st :
  classify_pairs L mdl fc false l = Ok st → rs_hbonds_dict st = [].
Proof.
  unfold classify_pairs. rewrite clashes_init_empty, bind_Ok.
  apply (for_each_inv (λ s, rs_hbonds_dict s = [])); [|done].
  intros item s s' _ Hs Hbody.
  apply loop_body_inv in Hbody as (b1 & s1 & b2 & Hh & Hc).
  injection Hh as <- <-.
  apply clash_branch_inv in Hc as [-> _]. done.
Qed.

(** X21: a search that is switched off leaves its registry empty: a run
    with [find_clashes = False] ends with a clash registry without
    records, a run with [find_hbonds = False] with a hydrogen-bond
    registry without records. *)
Theorem switched_off_search_leaves_registry_empty
  (L : libm) (self self' : manager) (fc fh : bool) :
  _process_nonbonded_proxies L self fc fh = Ok self' →
  (fc = false →
   ∃ cl, _clashes self' = Some cl ∧ _clashes_dict cl = [])
  ∧ (fh = false →
     ∃ hb, _hbonds self' = Some hb ∧ _hbonds_dict hb = []).
Proof.
  intros (l & n & st & marked & cl & _ & Hst & _ & Hsort & ->)%run_inv.
  split; intros ->.
  - exists cl. split; [done|].
    apply classify_pairs_records in Hst as (_ & _ & Hoff).
    apply sort_overlap_perm in Hsort.
    destruct (remove_marked_sublist (rs_clashes st) marked) as [Hsub _].
    rewrite (Hoff eq_refl) in Hsub. apply sublist_nil_r in Hsub.
    rewrite Hsub in Hsort. by apply Permutation_nil_r in Hsort.
  - eexists. split; [done|]. cbn. by eapply classify_pairs_hbonds_off.
Qed.

(** [chain_of_three_model] with both searches off. *)
Lemma switched_off_search_leaves_registry_empty_witness :
  (false = false →
   ∃ cl, _clashes chain_of_three_unsearched = Some cl
         ∧ _clashes_dict cl = [])
  ∧ (false = false →
     ∃ hb, _hbonds chain_of_three_unsearched = Some hb
           ∧ _hbonds_dict hb = []).
Proof.
  apply (switched_off_search_leaves_registry_empty no_angles
           (manager_init chain_of_three_model)).
  by vm_compute.
Defined.

(** ** Where hydrogen-bond records come from *)

Lemma find_donor_stores L mdl st item atom_h atom_a xs b st' :
  find_donor L mdl st item atom_h atom_a xs = Ok (b, st') →
  st' = st
  ∨ ∃ iseq_x hx r,
      iseq_x ∈ xs
      ∧ m_atoms mdl !! iseq_x = Some hx
      ∧ approx_equal (hb_h_a_distance r) (p_model_distance item)
          (F64.dec 1 1) = true
      ∧ hb_symop_str r = p_symop_str item
      ∧ hb_symop r = p_symop item
      ∧ hb_vdw_sum r = p_vdw_sum item
      ∧ st' = RunState (rs_clashes st)
                (Dict.set (rs_hbonds_dict st)
                   (i_seq (the_atom hx), i_seq atom_h, i_seq atom_a) r)
                (rs_mult_clash_dict st).
Proof.
  induction xs as [|iseq_x rest IH].
  - intros [= <- <-]. by left.
  - destruct (m_atoms mdl !! iseq_x) as [hx|] eqn:Hx.
    2:{ cbn [find_donor]. unfold getitem. by rewrite Hx. }
    rewrite (find_donor_cons _ _ _ _ _ _ _ _ hx Hx). cbv zeta.
    destruct (approx_equal _ _ _) eqn:Happrox; [|done]. cbn [negb].
    destruct (hbond_thresholds _ _ _).
    + intros [= <- <-]. right.
      exists iseq_x, hx. eexists (HbondInfo _ _ _ _ _ _).
      split; [by left|]. split; [done|]. by cbn.
    + intros Hrest.
      destruct (IH Hrest) as [?|(x & hx0 & r & Hin & ?)]; [by left|].
      right. exists x, hx0, r. split; [by right|done].
Qed.

Lemma _is_hbond_stores L mdl st item uc fsc0 b st' :
  _is_hbond L mdl st item uc fsc0 = Ok (b, st') →
  st' = st
  ∨ (m_water_sel mdl !! p_i_seq item = Some false
     ∧ m_water_sel mdl !! p_j_seq item = Some false
     ∧ (∃ a1 a2,
          m_atoms mdl !! p_i_seq item = Some a1
          ∧ m_atoms mdl !! p_j_seq item = Some a2
          ∧ id_str (parent_rg a1) ≠ id_str (parent_rg a2))
     ∧ ∃ atom_h atom_a xs,
         m_hd_sel mdl !! i_seq atom_h = Some true
         ∧ fsc0 !! i_seq atom_h = Some xs
         ∧ find_donor L mdl st item atom_h atom_a xs = Ok (b, st')).
Proof.
  unfold _is_hbond. intros H.
  bind_inv H as hatom1. bind_inv H as hatom2.
  bind_inv H as water_i. bind_inv H as water.
  destruct water; [injection H as <- <-; by left|].
  destruct (decide _) as [|Hid]; [injection H as <- <-; by left|].
  bind_inv H as [atom1 atom2].
  bind_inv H as hd1. bind_inv H as [atom_h atom_a].
  destruct (decide _); [|injection H as <- <-; by left].
  bind_inv H as xs. right.
  apply getitem_Ok_inv in E, E0, E1.
  destruct water_i; [done|]. apply getitem_Ok_inv in E2.
  split; [done|]. split; [done|].
  split; [by exists hatom1, hatom2|].
  exists atom_h, atom_a, xs.
  split; [|split; [|done]].
  - destruct hd1.
    + injection E5 as <- <-. by apply getitem_Ok_inv.
    + bind_inv E5 as hd2. destruct hd2; [|done]. injection E5 as <- <-.
      by apply getitem_Ok_inv.
  - by apply table_getitem_Ok_inv.
Qed.

Lemma hbond_branch_stores L mdl fh item st b st' :
  hbond_branch L mdl fh (m_unit_cell mdl) (m_fsc0 mdl) item st
  = Ok (b, st') →
  rs_hbonds_dict st' = rs_hbonds_dict st
  ∨ ∃ entry,
      hbond_record_of mdl item entry
      ∧ rs_hbonds_dict st' = Dict.set (rs_hbonds_dict st) entry.1 entry.2.
Proof.
  unfold hbond_branch. intros H.
  destruct fh; [|injection H as <- <-; by left].
  destruct (F64.ltb _ _) eqn:Hnear; [|injection H as <- <-; by left].
  bind_inv H as hd_i. bind_inv H as hd_j.
  apply getitem_Ok_inv in E, E0.
  destruct (_ =? 1) eqn:Hone; [|injection H as <- <-; by left].
  apply _is_hbond_stores in H
    as [->|(Hw1 & Hw2 & Hrg & atom_h & atom_a & xs & Hh & Hxs & H)];
    [by left|].
  apply find_donor_stores in H
    as [->|(x & hx & r & Hin & Hx & Hap & Hs1 & Hs2 & Hv & ->)];
    [by left|].
  right. exists ((i_seq (the_atom hx), i_seq atom_h, i_seq atom_a), r).
  split; [|done].
  split; [done|]. split.
  { exists hd_i, hd_j. split; [done|]. split; [done|].
    by destruct hd_i, hd_j. }
  do 3 (split; [done|]). split; [done|].
  split; [by exists xs, x, hx|]. done.
Qed.

Lemma classify_pairs_hbond_records L mdl fc fh l st :
  classify_pairs L mdl fc fh l = Ok st →
  ∀ entry, entry ∈ rs_hbonds_dict st →
           ∃ item, item ∈ l ∧ hbond_record_of mdl item entry.
Proof.
  unfold classify_pairs. rewrite clashes_init_empty, bind_Ok.
  apply (for_each_inv
           (λ s, ∀ entry, entry ∈ rs_hbonds_dict s →
                          ∃ item, item ∈ l ∧ hbond_record_of mdl item entry)).
  - intros item s s' Hin Hrec Hbody.
    apply loop_body_inv in Hbody as (b1 & s1 & b2 & Hh & Hc).
    apply clash_branch_inv in Hc as [-> _].
    apply hbond_branch_stores in Hh as [->|([k r] & Hof & ->)]; [done|].
    intros [k' r'] [[-> ->]|Hold]%elem_of_set; [|by apply Hrec].
    by exists item.
  - by intros entry ?%elem_of_nil.
Qed.

(** X22: every record in the hydrogen-bond registry of a finished run
    was made from one of the candidates: a pair closer than 3 A with
    exactly one hydrogen, no water, two different residue groups; the
    middle atom of the key is a hydrogen, the first atom is one that the
    table lists as bonded to it; the stored H...A distance agrees with
    the candidate's model distance to 0.1 A, and the operator and the
    vdW sum are the candidate's. *)
Theorem finished_hbond_records_come_from_candidates
  (L : libm) (self self' : manager) (fc fh : bool) (hb : hbonds)
  (nonbonded_list : list proxy) (n : nat) (entry : hbond_key * hbond_info) :
  _process_nonbonded_proxies L self fc fh = Ok self' →
  _hbonds self' = Some hb →
  m_get_sorted (model self) = Some (nonbonded_list, n) →
  entry ∈ _hbonds_dict hb →
  ∃ item, item ∈ nonbonded_list ∧ hbond_record_of (model self) item entry.
Proof.
  intros Hrun Hhb Hl Hin.
  apply run_inv in Hrun
    as (l' & n' & st & marked & cl' & Hl' & Hst & _ & _ & ->).
  injection Hhb as <-. rewrite Hl in Hl'. injection Hl' as <- <-.
  by eapply classify_pairs_hbond_records.
Qed.

(** The first record of [bifurcated_model]. *)
Lemma finished_hbond_records_come_from_candidates_witness :
  ∃ item,
    item ∈ [Proxy "" 1 2 (F64.of_Z 2) (F64.dec 23 1) "" None;
            Proxy "" 1 3 (F64.of_Z 2) (F64.dec 23 1) "" None]
    ∧ hbond_record_of (model (manager_init bifurcated_model)) item
        ((0, 1, 2), bifurcated_first_record).
Proof.
  apply (finished_hbond_records_come_from_candidates bifurcated_libm
           (manager_init bifurcated_model) bifurcated_finished
           true true bifurcated_hbonds _ 0).
  - by vm_compute.
  - by vm_compute.
  - reflexivity.
  - apply (list_elem_of_lookup_2 _ 0). by vm_compute.
Defined.

(** ** The symmetry copy of the second atom *)

Lemma set_xyz_moved (atoms : list atom) (f : vec3 → vec3) :
  set_xyz atoms (f <$> (xyz <$> atoms))
  = Ok ((fun a => Atom (i_seq a) (name a) (element a) (f (xyz a))
                       (altloc a)) <$> atoms).
Proof.
  unfold set_xyz. rewrite !length_fmap, Nat.eqb_refl. f_equal.
  induction atoms as [|a atoms IH]; [done|]. cbn. by rewrite IH.
Qed.

Lemma rematch_fmap (a2 : atom) (g : atom → atom) (l : list atom) :
  (∀ a, name (g a) = name a ∧ altloc (g a) = altloc a) →
  rematch a2 (g <$> l)
  = default a2
      (g <$> head (filter (fun b => name b = name a2 ∧ altloc b = altloc a2)
                     l)).
Proof.
  intros Hg. induction l as [|a l IH]; [done|].
  cbn [fmap list_fmap rematch]. rewrite filter_cons.
  destruct (Hg a) as [-> ->].
  destruct (decide (name a = name a2 ∧ altloc a = altloc a2)); [done|].
  apply IH.
Qed.

(** X23: what [_residue_groups_rt_mx_ij] hands back.  Without a unit
    cell or without an operator string both atoms are returned as they
    are.  With both, the first atom is returned as it is and the second
    is replaced by the moved copy of the first atom of its residue group
    that has its name and altloc: the atom itself at its image under the
    operator when names are unique in the group, another atom when they
    are not, and the atom unmoved when the group has no such atom. *)
Theorem _residue_groups_rt_mx_ij_second_atom
  (atom1 atom2 : hier_atom) (uc : option unit_cell) (symop_str : string)
  (symop : option rt_mx) :
  ((uc = None ∨ symop_str = "") →
   _residue_groups_rt_mx_ij atom1 atom2 uc symop_str symop
   = Ok (the_atom atom1, the_atom atom2))
  ∧ ∀ c op,
      uc = Some c → symop_str ≠ "" → symop = Some op →
      _residue_groups_rt_mx_ij atom1 atom2 uc symop_str symop
      = Ok (the_atom atom1,
            default (the_atom atom2)
              (moved c op
                 <$> head (namesakes (the_atom atom2) (parent_rg atom2)))).
Proof.
  unfold _residue_groups_rt_mx_ij. split.
  - intros [->| ->]; [done|]. destruct uc; [|done].
    by destruct (decide _).
  - intros c op -> Hs ->. destruct (decide _); [done|].
    rewrite (set_xyz_moved _
               (fun p => orthogonalize c (rt_apply op (fractionalize c p)))).
    rewrite bind_Ok. f_equal. f_equal.
    by apply (rematch_fmap _ (moved c op)).
Qed.

(** Atom 2 of the axis under the shift along z. *)
Lemma _residue_groups_rt_mx_ij_second_atom_witness :
  _residue_groups_rt_mx_ij (axis_atom 0) (axis_atom 2) (Some unit_cube)
    " sym=x,y,z+1" (Some shift_z)
  = Ok (the_atom (axis_atom 0),
        default (the_atom (axis_atom 2))
          (moved unit_cube shift_z
             <$> head (namesakes (the_atom (axis_atom 2))
                         (parent_rg (axis_atom 2))))).
Proof.
  apply (proj2 (_residue_groups_rt_mx_ij_second_atom (axis_atom 0)
                  (axis_atom 2) (Some unit_cube) " sym=x,y,z+1"
                  (Some shift_z))); done.
Defined.

(** ** The pass returns on what the loop produced *)

Lemma collect_Ok {A B} (body : A → result (list B)) l :
  (∀ a, a ∈ l → ∃ bs, body a = Ok bs) → ∃ r, collect body l = Ok r.
Proof.
  induction l as [|a l IH]; intros Hbody; [by eexists|].
  destruct (Hbody a) as [bs Hbs]; [by left|].
  destruct IH as [r Hr]; [intros a' Ha'; apply Hbody; by right|].
  cbn [collect]. rewrite Hbs, bind_Ok, Hr, bind_Ok. by eexists.
Qed.

Lemma ordered_pairs_elem {A} (l : list A) x y :
  (x, y) ∈ ordered_pairs l → x ∈ l ∧ y ∈ l.
Proof.
  induction l as [|a l IH]; [by intros ?%elem_of_nil|].
  cbn [ordered_pairs]. intros [H|H]%elem_of_app.
  - apply list_elem_of_fmap in H as (z & [= -> ->] & Hz).
    split; [by left|by right].
  - destruct (IH H). split; by right.
Qed.

Lemma sorted_pair_atoms c p i j :
  sorted_pair c p = sorted_pair i j → (c = i ∧ p = j) ∨ (c = j ∧ p = i).
Proof.
  unfold sorted_pair.
  destruct (p <? c), (j <? i); intros [= -> ->]; auto.
Qed.

Lemma inline_verdict_Ok cl sites_cart fsc0 c p1 p2 :
  is_Some (fsc0 !! p2) →
  p1 < length sites_cart → p2 < length sites_cart → c < length sites_cart →
  sorted_pair c p1 ∈ Dict.keys (_clashes_dict cl) →
  ∃ ks, inline_verdict cl sites_cart fsc0 c (p1, p2) = Ok ks.
Proof.
  intros [bonded Hb] [x1 H1]%lookup_lt_is_Some_2 [x2 H2]%lookup_lt_is_Some_2
         [xc Hc]%lookup_lt_is_Some_2 [r1 Hr1]%get_keys.
  unfold inline_verdict.
  rewrite (table_getitem_Some _ _ _ Hb), bind_Ok.
  destruct (decide _); [|by eexists].
  rewrite (getitem_Some _ _ _ H1), bind_Ok, (getitem_Some _ _ _ H2), bind_Ok,
    (getitem_Some _ _ _ Hc), bind_Ok.
  unfold iseq_tuple_is_sym_clash.
  rewrite (dict_getitem_Some _ _ _ Hr1), !bind_Ok.
  destruct (_ && _); [|by eexists].
  unfold iseq_tuple_is_clashing, get_model_distance.
  rewrite (mem_Some _ _ _ Hr1), (dict_getitem_Some _ _ _ Hr1), !bind_Ok.
  cbn [andb].
  destruct (Dict.mem _ (sorted_pair c p2)) eqn:Hm; [|by eexists].
  apply mem_get in Hm as [r2 Hr2].
  rewrite (dict_getitem_Some _ _ _ Hr2), !bind_Ok.
  destruct (F64.ltb _ _); by eexists.
Qed.

(** X24: the pass over clashes that share an atom returns on what the
    loop produced, as long as the coordinates and the connectivity table
    cover the atoms of the candidates: every lookup it makes in the
    registry is for a pair that the loop recorded. *)
Theorem _process_clashes_returns
  (L : libm) (mdl : model_t) (fc fh : bool) (l : list proxy)
  (st : run_state) :
  classify_pairs L mdl fc fh l = Ok st →
  covers_candidates (m_sites_cart mdl) (m_fsc0 mdl) l →
  ∃ st', _process_clashes st (m_sites_cart mdl) (m_fsc0 mdl) = Ok st'.
Proof.
  intros Hst Hcov.
  pose proof (classify_pairs_inv _ _ _ _ _ _ Hst) as (_ & Hfrom & _).
  apply classify_pairs_records in Hst as (_ & [_ Hidx] & _).
  assert (∀ c ps p, (c, ps) ∈ rs_mult_clash_dict st → p ∈ ps →
            (c < length (m_sites_cart mdl) ∧ is_Some (m_fsc0 mdl !! c))
            ∧ (p < length (m_sites_cart mdl) ∧ is_Some (m_fsc0 mdl !! p))
            ∧ sorted_pair c p ∈ Dict.keys (_clashes_dict (rs_clashes st)))
    as Hatoms.
  { intros c ps p Hc Hp. destruct (Hidx c ps p Hc Hp) as [Hkey _].
    destruct (Hfrom _ Hkey) as (item & Hitem & Heq).
    destruct (Hcov item Hitem) as [Hi Hj].
    by apply sorted_pair_atoms in Heq as [[-> ->]|[-> ->]]. }
  unfold _process_clashes, clashes_to_be_removed.
  destruct (collect_Ok
              (fun entry : nat * list nat =>
                 let '(i_seq_, j_seq_list) := entry in
                 collect (inline_verdict (rs_clashes st) (m_sites_cart mdl)
                            (m_fsc0 mdl) i_seq_)
                         (ordered_pairs j_seq_list))
              (rs_mult_clash_dict st)) as [marked Hmarked].
  { intros [c ps] Hc. apply collect_Ok. intros [p1 p2] Hp.
    apply ordered_pairs_elem in Hp as [Hp1 Hp2].
    destruct (Hatoms c ps p1 Hc Hp1) as ([Hcs _] & [H1 _] & Hkey).
    destruct (Hatoms c ps p2 Hc Hp2) as (_ & [H2 Ht2] & _).
    by apply inline_verdict_Ok. }
  rewrite Hmarked, bind_Ok. by eexists.
Qed.

(** The loop output of [chain_of_three_model]. *)
Lemma _process_clashes_returns_witness :
  ∃ st', _process_clashes chain_of_three_classified
           (m_sites_cart chain_of_three_model) (m_fsc0 chain_of_three_model)
         = Ok st'.
Proof.
  apply (_process_clashes_returns no_angles chain_of_three_model true true
           [Proxy "" 0 3 (F64.dec 15 1) (F64.dec 34 1) "" None;
            Proxy "" 0 1 (F64.of_Z 2) (F64.dec 34 1) "" None;
            Proxy "" 0 2 (F64.dec 25 1) (F64.dec 34 1) "" None]).
  - by vm_compute.
  - intros item Hin.
    repeat (apply elem_of_cons in Hin as [->|Hin]);
      [..|by apply elem_of_nil in Hin];
      vm_compute; (repeat split; try lia; by eexists).
Defined.
